(** * Falcon: catalog store, transcoding workflow and streaming gateway

    A shallow embedding of the Go services of the repository:
    - [Video], [VideoStream], [sql] : the rows of the [videos] and
      [video_streams] tables and the SQL statements of the [database]
      package, as functions on the tables;
    - [database], [storage] : the Go methods of the two packages;
    - [ffmpeg]     : the encode-command builder and the media probe;
    - [workflow]   : activity execution under a retry policy;
    - [transcoder] : the Temporal workflow and its activities;
    - [streamer]   : the read-path HTTP handlers.

    Go values are modelled as follows: [string] is [string], [int] and
    [int64] are [Z], [float64] is the primitive [float], [time.Time] and
    [time.Duration] are [Z] (nanoseconds), a slice is a [list] (the nil slice
    is the empty list), a [map[string]string] is a [gmap], an [error] is its
    message and a [(T, error)] result is [result T]. A time that a table
    holds is a multiple of 1000: PostgreSQL keeps microseconds.
    PostgreSQL, Redis, the object store, the encoding tool and Temporal are
    the surroundings: their answers are inputs of the model (wall-clock
    timeouts and backoff intervals are not modelled). *)

From Stdlib Require Import ZArith Lia PrimFloat Ascii String.
From stdpp Require Import base option list strings sorting pretty gmap.

Local Open Scope Z_scope.
Local Open Scope string_scope.

#[local] Arguments String.append !s1 s2.

(** ** Go results *)

Definition error := string.

Inductive result (A : Type) : Type :=
| Ok (a : A)
| Err (e : error).
Arguments Ok {A} a.
Arguments Err {A} e.

Definition is_ok {A} (r : result A) : bool :=
  match r with Ok _ => true | Err _ => false end.

(** ** Fragments of the Go standard library used by the services *)

Module strings_go.

Fixpoint HasPrefix (s p : string) : bool :=
  match p, s with
  | EmptyString, _ => true
  | String c p', String d s' => if decide (c = d) then HasPrefix s' p' else false
  | String _ _, EmptyString => false
  end.

Definition HasSuffix (s suffix : string) : bool :=
  HasPrefix (String.rev s) (String.rev suffix).

(** [s[len(s)-n:]] for [n <= len(s)]. *)
Definition last_n (n : nat) (s : string) : string :=
  String.substring (String.length s - n) n s.

Definition TrimSuffix (s suffix : string) : string :=
  if HasSuffix s suffix
  then String.substring 0 (String.length s - String.length suffix) s
  else s.

End strings_go.

Module filepath.
(** Slash-separated paths; the functions agree with Go's [path/filepath]
    on paths that are already clean (no doubled slash, no dot element). *)

Definition slash : ascii := "/"%char.
Definition dot : ascii := "."%char.

Fixpoint drop_slashes (l : list ascii) : list ascii :=
  match l with
  | c :: l' => if decide (c = slash) then drop_slashes l' else l
  | [] => []
  end.

Fixpoint until_slash (l : list ascii) : list ascii :=
  match l with
  | c :: l' => if decide (c = slash) then [] else c :: until_slash l'
  | [] => []
  end.

Fixpoint after_slash (l : list ascii) : list ascii :=
  match l with
  | c :: l' => if decide (c = slash) then l' else after_slash l'
  | [] => []
  end.

Definition Base (path : string) : string :=
  if decide (path = "") then "."
  else
    match until_slash (drop_slashes (reverse (list_ascii_of_string path))) with
    | [] => "/"
    | b => string_of_list_ascii (reverse b)
    end.

Fixpoint ext_go (rev acc : list ascii) : string :=
  match rev with
  | [] => ""
  | c :: r =>
      if decide (c = slash) then ""
      else if decide (c = dot) then string_of_list_ascii (c :: acc)
      else ext_go r (c :: acc)
  end.

Definition Ext (path : string) : string :=
  ext_go (reverse (list_ascii_of_string path)) [].

Definition Dir (path : string) : string :=
  let l := reverse (list_ascii_of_string path) in
  if bool_decide (slash ∈ l) then
    match drop_slashes (after_slash l) with
    | [] => "/"
    | d => string_of_list_ascii (reverse d)
    end
  else ".".

Definition Join (dir name : string) : string :=
  if decide (dir = "") then name
  else if decide (name = "") then dir
  else dir +:+ "/" +:+ name.

End filepath.

Module time.
(** [time.Duration] counts nanoseconds. *)
Definition Second : Z := 1000000000.
Definition Minute : Z := 60 * Second.
Definition Hour : Z := 60 * Minute.
End time.

Module fmt.
(** [%d] applied to an [int]. *)
Definition d (n : Z) : string := pretty n.
(** [%d] applied to a [string]: the verb does not fit the operand and
    [fmt] prints the bad-verb form [%!d(string=...)]. *)
Definition d_string (s : string) : string := "%!d(string=" +:+ s +:+ ")".
End fmt.

(** ** The catalog store *)

Module Video.
Record t : Type := mk {
  ID : string;
  Title : string;
  OriginalName : string;
  OriginalPath : string;
  ProcessingState : string;
  Duration : float;
  Size : Z;
  ContentType : string;
  CreatedAt : Z;
  UpdatedAt : Z
}.
End Video.

Module VideoStream.
Record t : Type := mk {
  ID : string;
  VideoID : string;
  Resolution : string;
  Bitrate : string;
  Format : string;
  Path : string;
  Size : Z;
  SegmentSize : Z;
  CreatedAt : Z
}.
End VideoStream.

Module sql.
(** The two tables of [CreateTables] as lists of rows in insertion order,
    and the statements of the [database] package as functions on them.
    Constraint violations are the statement's error. *)

Record DB : Type := mkDB {
  videos : list Video.t;
  video_streams : list VideoStream.t
}.

Definition empty : DB := mkDB [] [].

Definition has_video (id : string) (d : DB) : bool :=
  existsb (λ r, bool_decide (Video.ID r = id)) (videos d).

(** A value of a [TIMESTAMP WITH TIME ZONE] column: PostgreSQL keeps
    microseconds, so the nanoseconds of a [time.Time] below the last
    microsecond are cut. *)
Definition timestamptz (t : Z) : Z := t / 1000 * 1000.

(** [INSERT INTO videos (id, title, original_name, original_path,
    processing_state, size, content_type, created_at, updated_at)]:
    the [duration] column is not listed and takes its [DEFAULT 0]. *)
Definition insert_video (v : Video.t) (d : DB) : result DB :=
  if has_video (Video.ID v) d
  then Err "duplicate key value violates unique constraint videos_pkey"
  else Ok (mkDB
    (videos d ++
      [Video.mk (Video.ID v) (Video.Title v) (Video.OriginalName v)
         (Video.OriginalPath v) (Video.ProcessingState v) 0%float
         (Video.Size v) (Video.ContentType v) (timestamptz (Video.CreatedAt v))
         (timestamptz (Video.UpdatedAt v))])
    (video_streams d)).

Definition set_status (status : string) (now : Z) (r : Video.t) : Video.t :=
  Video.mk (Video.ID r) (Video.Title r) (Video.OriginalName r)
    (Video.OriginalPath r) status (Video.Duration r) (Video.Size r)
    (Video.ContentType r) (Video.CreatedAt r) (timestamptz now).

(** [UPDATE videos SET processing_state = $1, updated_at = NOW()
    WHERE id = $2]. *)
Definition update_status (status id : string) (now : Z) (d : DB) : DB :=
  mkDB
    (map (λ r, if decide (Video.ID r = id) then set_status status now r else r)
       (videos d))
    (video_streams d).

(** [SELECT ... FROM videos WHERE id = $1]. *)
Definition select_video (id : string) (d : DB) : option Video.t :=
  find (λ r, bool_decide (Video.ID r = id)) (videos d).

Definition stream_key (s : VideoStream.t) : string * string * string :=
  (VideoStream.VideoID s, VideoStream.Resolution s, VideoStream.Format s).

(** The row as the table keeps it. *)
Definition stored (s : VideoStream.t) : VideoStream.t :=
  VideoStream.mk (VideoStream.ID s) (VideoStream.VideoID s)
    (VideoStream.Resolution s) (VideoStream.Bitrate s) (VideoStream.Format s)
    (VideoStream.Path s) (VideoStream.Size s) (VideoStream.SegmentSize s)
    (timestamptz (VideoStream.CreatedAt s)).

Definition excluded (new old : VideoStream.t) : VideoStream.t :=
  VideoStream.mk (VideoStream.ID old) (VideoStream.VideoID old)
    (VideoStream.Resolution old) (VideoStream.Bitrate old)
    (VideoStream.Format old) (VideoStream.Path new) (VideoStream.Size new)
    (VideoStream.SegmentSize new) (VideoStream.CreatedAt old).

(** The [DO UPDATE] arm: the row that conflicts on the arbiter
    [(video_id, resolution, format)] takes the new path, size and
    segment size. *)
Fixpoint do_update (s : VideoStream.t) (rows : list VideoStream.t)
  : list VideoStream.t :=
  match rows with
  | [] => []
  | r :: rows' =>
      if decide (stream_key r = stream_key s)
      then excluded s r :: rows'
      else r :: do_update s rows'
  end.

(** [INSERT INTO video_streams (...) VALUES (...)
    ON CONFLICT (video_id, resolution, format) DO UPDATE SET path, size,
    segment_size]: a conflict on the arbiter updates; without one the row
    is inserted, which the primary key on [id] and the foreign key on
    [video_id] can still refuse. *)
Definition upsert_stream (s : VideoStream.t) (d : DB) : result DB :=
  if existsb (λ r, bool_decide (stream_key r = stream_key s)) (video_streams d)
  then Ok (mkDB (videos d) (do_update s (video_streams d)))
  else if existsb (λ r, bool_decide (VideoStream.ID r = VideoStream.ID s))
            (video_streams d)
  then Err "duplicate key value violates unique constraint video_streams_pkey"
  else if has_video (VideoStream.VideoID s) d
  then Ok (mkDB (videos d) (video_streams d ++ [stored s]))
  else Err "insert or update on table video_streams violates foreign key constraint".

(** [ORDER BY resolution DESC], text compared code point by code point. *)
Definition resolution_desc (a b : VideoStream.t) : Prop :=
  String.le (VideoStream.Resolution b) (VideoStream.Resolution a).

#[global] Instance resolution_desc_dec a b : Decision (resolution_desc a b).
Proof. unfold resolution_desc, String.le. apply _. Defined.

(** [SELECT ... FROM video_streams WHERE video_id = $1
    ORDER BY resolution DESC]. *)
Definition select_streams (id : string) (d : DB) : list VideoStream.t :=
  merge_sort resolution_desc
    (filter (λ r, VideoStream.VideoID r = id) (video_streams d)).

(** [ORDER BY created_at DESC]. *)
Definition created_desc (a b : Video.t) : Prop :=
  (Video.CreatedAt b ≤ Video.CreatedAt a)%Z.

#[global] Instance created_desc_dec a b : Decision (created_desc a b).
Proof. unfold created_desc. apply _. Defined.

(** The order in which an execution happens to meet the rows. *)
Definition met_by (rank : Video.t → Z) (a b : Video.t) : Prop :=
  (rank a ≤ rank b)%Z.

#[global] Instance met_by_dec rank a b : Decision (met_by rank a b).
Proof. unfold met_by. apply _. Defined.

(** [SELECT ... FROM videos ORDER BY created_at DESC LIMIT $1 OFFSET $2].
    The statement names no second sort key: the order of rows created at
    the same time depends on how the execution met them, [rank].
    PostgreSQL refuses a negative [LIMIT] or [OFFSET] when the statement
    is executed. *)
Definition select_videos_page (rank : Video.t → Z) (limit offset : Z) (d : DB)
  : result (list Video.t) :=
  if decide (limit < 0) then Err "LIMIT must not be negative"
  else if decide (offset < 0) then Err "OFFSET must not be negative"
  else Ok (take (Z.to_nat limit)
             (drop (Z.to_nat offset)
                (merge_sort created_desc (merge_sort (met_by rank) (videos d))))).

End sql.

(** ** The world the services run in *)

Module Resolution.
(** [ffmpeg.Resolution]: one ladder entry. *)
Record t : Type := mk {
  Width : Z;
  Height : Z;
  Bitrate : string
}.
End Resolution.

(** What the services read from their surroundings and never change. *)
Record Env : Type := mkEnv {
  TempDir : string;                        (* os.TempDir() *)
  temp_suffix : string;                    (* the random part of os.MkdirTemp *)
  stat_size : string → Z;                  (* os.Stat(path).Size(), 0 on error *)
  tool_stderr : string;                    (* what the encoding tool prints *)
  ladder_config : result (list Resolution.t); (* viper "ffmpeg.resolutions" *)
  ParseFloat : string → float;             (* strconv.ParseFloat(s, 64) *)
  Sscanf_d : string → option Z;            (* fmt.Sscanf(s, "%d", &n) *)
  presign : string → Z → result string;    (* S3 request presigning *)
  redis_get : string → string * option error; (* Redis GET: value and error *)
  tie_rank : Z → Z → Video.t → Z;          (* how a listing meets the rows *)
  rows_read : nat                          (* rows a broken result set gave *)
}.

(** The state: the catalog tables, the committed states that preceded them
    (newest first), the outcomes the next fallible external calls will
    have (nothing left: they succeed), the clock and the commands run. *)
Record World : Type := mkWorld {
  db : sql.DB;
  history : list sql.DB;
  faults : list (option error);
  clock : Z;
  commands : list (string * list string);
  env : Env
}.

(** Go code threading the world and returning [(T, error)]. *)
Definition M (A : Type) : Type := World → World * result A.

Definition ret {A} (a : A) : M A := λ w, (w, Ok a).

Definition fail {A} (e : error) : M A := λ w, (w, Err e).

Definition bind {A B} (m : M A) (k : A → M B) : M B :=
  λ w, match m w with
       | (w', Ok a) => k a w'
       | (w', Err e) => (w', Err e)
       end.

Notation "x <- m ;; k" := (bind m (λ x, k))
  (at level 100, m at next level, right associativity).
Notation "m ;;; k" := (bind m (λ _, k))
  (at level 100, right associativity).

(** [v, err := f()] with [err] inspected rather than returned. *)
Definition attempt {A} (m : M A) : M (result A) :=
  λ w, let (w', r) := m w in (w', Ok r).

(** [fmt.Errorf(prefix + "%v", err)]. *)
Definition wrap {A} (prefix : string) (m : M A) : M A :=
  λ w, match m w with
       | (w', Ok a) => (w', Ok a)
       | (w', Err e) => (w', Err (prefix +:+ e))
       end.

Definition lift {A} (r : result A) : M A := λ w, (w, r).

Definition ask : M Env := λ w, (w, Ok (env w)).

(** A fallible call to the outside takes the next outcome. *)
Definition external : M unit :=
  λ w, match faults w with
       | [] => (w, Ok tt)
       | o :: q =>
           (mkWorld (db w) (history w) q (clock w) (commands w) (env w),
            match o with None => Ok tt | Some e => Err e end)
       end.

(** [time.Now()] and SQL [NOW()]: read the clock, which moves on. *)
Definition Now : M Z :=
  λ w, (mkWorld (db w) (history w) (faults w) (clock w + 1) (commands w) (env w),
        Ok (clock w)).

(** A statement that commits: the tables it replaces join the history. *)
Definition commit (stmt : sql.DB → result sql.DB) : M unit :=
  λ w, match stmt (db w) with
       | Ok d' =>
           (mkWorld d' (db w :: history w) (faults w) (clock w) (commands w) (env w),
            Ok tt)
       | Err e => (w, Err e)
       end.

Definition query {A} (q : sql.DB → A) : M A := λ w, (w, Ok (q (db w))).

(** [exec.Command(name, args...).Run()]. *)
Definition run_command (name : string) (args : list string) : M unit :=
  λ w, external
         (mkWorld (db w) (history w) (faults w) (clock w)
            (commands w ++ [(name, args)]) (env w)).

(** ** Package [database] *)

Module database.

Definition CreateVideo (video : Video.t) : M unit :=
  wrap "failed to insert video: "
    (external ;;; commit (sql.insert_video video)).

Definition UpdateVideoStatus (videoID status : string) : M unit :=
  wrap "failed to update video status: "
    (external ;;;
     now <- Now ;;
     commit (λ d, Ok (sql.update_status status videoID now d))).

Definition GetVideo (videoID : string) : M Video.t :=
  wrap "failed to get video: " external ;;;
  r <- query (sql.select_video videoID) ;;
  match r with
  | Some video => ret video
  | None => fail ("video not found: " +:+ videoID)
  end.

Definition AddVideoStream (stream : VideoStream.t) : M unit :=
  wrap "failed to insert video stream: "
    (external ;;; commit (sql.upsert_stream stream)).

(** [for rows.Next() { rows.Scan(...); s = append(s, row) }; return s, nil]
    over the rows of a statement that was sent. The rows arrive while the
    loop runs: an error of the execution, or a connection that breaks, ends
    the loop with the rows read so far and is left in [rows.Err()], which
    is not read. ([rows.Scan] does not fail on rows this package wrote.) *)
Definition scan_rows {A} (rows : result (list A)) : M (list A) :=
  r <- attempt external ;;
  e <- ask ;;
  match rows, r with
  | Ok l, Ok _ => ret l
  | Ok l, Err _ => ret (take (rows_read e) l)
  | Err _, _ => ret []
  end.

Definition GetVideoStreams (videoID : string) : M (list VideoStream.t) :=
  wrap "failed to query video streams: " external ;;;
  rows <- query (λ d, Ok (sql.select_streams videoID d)) ;;
  scan_rows rows.

Definition ListVideos (limit offset : Z) : M (list Video.t) :=
  wrap "failed to query videos: " external ;;;
  e <- ask ;;
  rows <- query (sql.select_videos_page (tie_rank e limit offset) limit offset) ;;
  scan_rows rows.

End database.

(** ** Package [storage] *)

Module storage.

Definition DownloadFile (objectKey localFilePath : string) : M unit :=
  external.

Definition GetSignedURL (objectKey : string) (expiration : Z) : M string :=
  e <- ask ;;
  wrap "failed to sign request: " (lift (presign e objectKey expiration)).

End storage.

(** ** Package [ffmpeg] *)

Module ffmpeg.

Record FFmpeg : Type := mkFFmpeg {
  BinaryPath : string;
  ThreadCount : Z;
  Preset : string
}.

Definition nl : string := String "010"%char "".

Definition variantName (i : Z) : string := "v" +:+ fmt.d i.

Definition playlistFile (segmentFilename : string) (i : Z) : string :=
  segmentFilename +:+ "_" +:+ variantName i +:+ ".m3u8".

Definition segmentFile (segmentFilename : string) (i : Z) : string :=
  segmentFilename +:+ "_" +:+ variantName i +:+ "_%03d.ts".

Definition resolution_label (res : Resolution.t) : string :=
  fmt.d (Resolution.Width res) +:+ "x" +:+ fmt.d (Resolution.Height res).

(** The line written for one variant: [res.Bitrate] is a string handed
    to the verb [%d]. *)
Definition stream_inf (res : Resolution.t) : string :=
  "#EXT-X-STREAM-INF:BANDWIDTH=" +:+ fmt.d_string (Resolution.Bitrate res)
  +:+ ",RESOLUTION=" +:+ resolution_label res.

(** The body of [for i, res := range resolutions]: the loop carries
    [variantArgs] and the text of [masterPlaylistContent]. *)
Fixpoint variants (f : FFmpeg) (outputDir segmentFilename : string)
    (i : Z) (resolutions : list Resolution.t)
    (variantArgs : list string) (masterPlaylistContent : string)
  : list string * string :=
  match resolutions with
  | [] => (variantArgs, masterPlaylistContent)
  | res :: rest =>
      variants f outputDir segmentFilename (i + 1) rest
        (variantArgs ++
           ["-map"; "0:v:0";
            "-map"; "0:a:0";
            "-c:v"; "libx264";
            "-preset"; Preset f;
            "-b:v"; Resolution.Bitrate res;
            "-s"; resolution_label res;
            "-c:a"; "aac";
            "-b:a"; "128k";
            "-hls_time"; "10";
            "-hls_list_size"; "0";
            "-hls_segment_filename";
              outputDir +:+ "/" +:+ segmentFile segmentFilename i;
            outputDir +:+ "/" +:+ playlistFile segmentFilename i])
        (masterPlaylistContent
           +:+ (stream_inf res +:+ nl)
           +:+ (playlistFile segmentFilename i +:+ nl))
  end.

(** The text [masterPlaylistContent] holds when the loop is over. *)
Definition masterPlaylistContent (f : FFmpeg)
    (outputDir segmentFilename : string) (resolutions : list Resolution.t)
  : string :=
  snd (variants f outputDir segmentFilename 0 resolutions []
         ("#EXTM3U" +:+ nl +:+ "#EXT-X-VERSION:3" +:+ nl)).

Definition hls_args (f : FFmpeg)
    (inputFile outputDir segmentFilename : string)
    (resolutions : list Resolution.t) : list string :=
  (["-i"; inputFile; "-threads"; fmt.d (ThreadCount f)]
   ++ fst (variants f outputDir segmentFilename 0 resolutions []
            ("#EXTM3U" +:+ nl +:+ "#EXT-X-VERSION:3" +:+ nl)))%list.

(** Runs the tool once with every variant; the manifest text built on
    the way is a local that is neither written nor returned. *)
Definition TranscodeToHLS (f : FFmpeg)
    (inputFile outputDir segmentFilename : string)
    (resolutions : list Resolution.t) : M unit :=
  e <- ask ;;
  r <- attempt (run_command (BinaryPath f)
                  (hls_args f inputFile outputDir segmentFilename resolutions)) ;;
  match r with
  | Err err =>
      fail ("failed to transcode: " +:+ err +:+ " - " +:+ tool_stderr e)
  | Ok _ => ret tt
  end.

(** Runs the tool on the file, keeps its output in a local and returns
    the map it has just made. *)
Definition GetMediaInfo (f : FFmpeg) (inputFile : string)
  : M (gmap string string) :=
  _ <- attempt (run_command (BinaryPath f) ["-i"; inputFile; "-hide_banner"]) ;;
  e <- ask ;;
  let info : gmap string string := ∅ in
  let output := tool_stderr e in
  ret info.

End ffmpeg.

(** ** Temporal *)

Module workflow.

(** An activity that may still be retried [retries] times: it runs until
    it succeeds and the last error is the result. *)
Fixpoint run_attempts {A} (retries : nat) (activity : M A) : M A :=
  match retries with
  | O => activity
  | S n =>
      r <- attempt activity ;;
      match r with
      | Ok a => ret a
      | Err _ => run_attempts n activity
      end
  end.

(** What a worker answers to a task for an activity type it has not
    registered. *)
Definition not_registered (activityType : string) (registered : list string)
  : error :=
  "unable to find activityType=" +:+ activityType +:+ ". Supported types: ["
  +:+ String.concat ", " registered +:+ "]".

(** [workflow.ExecuteActivity(ctx, activity, ...).Get(ctx, &out)] under a
    retry policy with [MaximumAttempts] at least 1. The activity is
    scheduled under the name of its function, [activityType], and runs on
    a worker that has [registered] that name; for any other name every
    attempt fails before the function is called. *)
Definition ExecuteActivity {A} (registered : list string)
    (MaximumAttempts : nat) (activityType : string) (activity : M A) : M A :=
  if bool_decide (activityType ∈ registered)
  then run_attempts (MaximumAttempts - 1) activity
  else fail (not_registered activityType registered).

End workflow.

(** ** Command [transcoder] *)

Module transcoder.

Record TranscodeParams : Type := mkTranscodeParams {
  VideoID : string;
  ObjectKey : string;
  Filename : string;
  ContentType : string
}.

Record ActivityDependencies : Type := mkDeps {
  FFmpeg : ffmpeg.FFmpeg
}.

Record DownloadResult : Type := mkDownloadResult {
  dl_VideoID : string;
  LocalPath : string;
  OriginalPath : string
}.

Record MetadataResult : Type := mkMetadataResult {
  md_VideoID : string;
  Duration : float
}.

Record StreamInfo : Type := mkStreamInfo {
  Resolution : string;
  Bitrate : string;
  Format : string;
  Path : string;
  Size : Z;
  SegmentSize : Z
}.

Record TranscodeResult : Type := mkTranscodeResult {
  tr_VideoID : string;
  OutputDirectory : string;
  Streams : list StreamInfo
}.

(** [os.MkdirTemp("", pattern)] for a pattern without path separator:
    the directory is made in [os.TempDir()] under the pattern followed by a
    random suffix. *)
Definition MkdirTemp (pattern : string) : M string :=
  external ;;;
  e <- ask ;;
  ret (filepath.Join (TempDir e) (pattern +:+ temp_suffix e)).

Definition getFileSize (path : string) : M Z :=
  e <- ask ;; ret (stat_size e path).

(** [w.RegisterActivity(...)] in [main]: the four activities of the
    worker. *)
Definition registered : list string :=
  ["DownloadVideoActivity"; "ExtractMetadataActivity";
   "TranscodeVideoActivity"; "CleanupActivity"].

(** The status write of the workflow: a function literal scheduled as an
    activity of its own, five attempts. Go names the literal [func1], the
    first of [updateVideoStatus]; [main] registers no activity of that
    name. *)
Definition updateVideoStatus (videoID status : string) : M unit :=
  workflow.ExecuteActivity registered 5 "func1"
    (database.UpdateVideoStatus videoID status).

Definition DownloadVideoActivity (params : TranscodeParams)
  : M DownloadResult :=
  tempDir <- MkdirTemp ("transcode-" +:+ VideoID params) ;;
  let filename := filepath.Base (ObjectKey params) in
  let localPath := filepath.Join tempDir filename in
  storage.DownloadFile (ObjectKey params) localPath ;;;
  now <- Now ;;
  size <- getFileSize localPath ;;
  let video :=
    Video.mk (VideoID params)
      (strings_go.TrimSuffix (Filename params) (filepath.Ext (Filename params)))
      (Filename params) (ObjectKey params) "downloading" 0%float size
      (ContentType params) now now in
  database.CreateVideo video ;;;
  ret (mkDownloadResult (VideoID params) localPath (ObjectKey params)).

Definition ExtractMetadataActivity (deps : ActivityDependencies)
    (download : DownloadResult) : M MetadataResult :=
  info <- ffmpeg.GetMediaInfo (FFmpeg deps) (LocalPath download) ;;
  e <- ask ;;
  let duration :=
    match info !! "duration" with
    | Some durationStr => ParseFloat e durationStr
    | None => 0%float
    end in
  database.UpdateVideoStatus (dl_VideoID download) "analyzing" ;;;
  ret (mkMetadataResult (dl_VideoID download) duration).

Definition streamPath (params : TranscodeParams) (i : Z) : string :=
  "videos/" +:+ VideoID params +:+ "/hls/"
  +:+ ffmpeg.playlistFile (VideoID params) i.

(** The loop that records the streams: one upsert per ladder entry. *)
Fixpoint record_streams (params : TranscodeParams) (i : Z)
    (resolutions : list Resolution.t) (streams : list StreamInfo)
  : M (list StreamInfo) :=
  match resolutions with
  | [] => ret streams
  | res :: rest =>
      now <- Now ;;
      let stream :=
        VideoStream.mk (VideoID params +:+ "-" +:+ ffmpeg.variantName i)
          (VideoID params) (ffmpeg.resolution_label res)
          (Resolution.Bitrate res) "hls" (streamPath params i) 0 10 now in
      database.AddVideoStream stream ;;;
      record_streams params (i + 1) rest
        (streams ++
           [mkStreamInfo (ffmpeg.resolution_label res)
              (Resolution.Bitrate res) "hls" (streamPath params i) 0 10])
  end.

Definition TranscodeVideoActivity (deps : ActivityDependencies)
    (params : TranscodeParams) : M TranscodeResult :=
  video <- database.GetVideo (VideoID params) ;;
  database.UpdateVideoStatus (VideoID params) "transcoding" ;;;
  outputDir <- MkdirTemp ("output-" +:+ VideoID params) ;;
  e <- ask ;;
  let tempDir :=
    filepath.Dir (filepath.Join (TempDir e) ("transcode-" +:+ VideoID params)) in
  let inputFile := filepath.Join tempDir (filepath.Base (ObjectKey params)) in
  resolutions <- lift (ladder_config e) ;;
  let segmentFilename := VideoID params in
  ffmpeg.TranscodeToHLS (FFmpeg deps) inputFile outputDir segmentFilename
    resolutions ;;;
  streams <- record_streams params 0 resolutions [] ;;
  ret (mkTranscodeResult (VideoID params) outputDir streams).

(** [os.RemoveAll(filepath.Dir(localPath))]. *)
Definition CleanupActivity (localPath : string) : M unit :=
  external.

(** [if err := ...; err != nil { updateVideoStatus(ctx, id, "error");
    return "", err }]. *)
Definition or_mark_error {A} (videoID : string) (stage : M A) : M A :=
  r <- attempt stage ;;
  match r with
  | Ok a => ret a
  | Err err =>
      _ <- attempt (updateVideoStatus videoID "error") ;;
      fail err
  end.

Definition TranscodeWorkflow (deps : ActivityDependencies)
    (params : TranscodeParams) : M string :=
  updateVideoStatus (VideoID params) "processing" ;;;
  downloadResult <-
    or_mark_error (VideoID params)
      (workflow.ExecuteActivity registered 3 "DownloadVideoActivity"
         (DownloadVideoActivity params)) ;;
  metadataResult <-
    or_mark_error (VideoID params)
      (workflow.ExecuteActivity registered 3 "ExtractMetadataActivity"
         (ExtractMetadataActivity deps downloadResult)) ;;
  transcodeResult <-
    or_mark_error (VideoID params)
      (workflow.ExecuteActivity registered 3 "TranscodeVideoActivity"
         (TranscodeVideoActivity deps
            (mkTranscodeParams (VideoID params) (ObjectKey params)
               (Filename params) (ContentType params)))) ;;
  _ <- attempt
         (workflow.ExecuteActivity registered 3 "CleanupActivity"
            (CleanupActivity (LocalPath downloadResult))) ;;
  updateVideoStatus (VideoID params) "completed" ;;;
  ret ("Transcoding completed for " +:+ VideoID params).

End transcoder.

(** ** Command [streamer] *)

Module streamer.

Record VideoStreamInfo : Type := mkVideoStreamInfo {
  VideoID : string;
  Title : string;
  Duration : float;
  Status : string;
  Formats : list string;
  HLSMaster : string;
  DASHMaster : string;
  Streams : list VideoStream.t;
  CreatedAt : Z
}.

(** What a handler leaves in the [http.ResponseWriter]. *)
Inductive Response : Type :=
| Bytes (contentType : string) (body : string)       (* w.Write *)
| HttpError (msg : string) (code : Z)                (* http.Error *)
| Redirect (url : string) (code : Z)                 (* http.Redirect *)
| VideoInfo (info : VideoStreamInfo)                 (* JSON body *)
| VideoList (videos : list Video.t) (limit offset : Z). (* JSON body *)

Definition StatusTemporaryRedirect : Z := 307.
Definition StatusNotFound : Z := 404.
Definition StatusInternalServerError : Z := 500.

Fixpoint contains (slice : list string) (value : string) : bool :=
  match slice with
  | [] => false
  | item :: rest => if decide (item = value) then true else contains rest value
  end.

Definition isM3U8File (filename : string) : bool :=
  bool_decide (5 < String.length filename)%nat
  && bool_decide (strings_go.last_n 5 filename = ".m3u8").

Definition hlsMasterKey (videoID : string) : string :=
  "videos/" +:+ videoID +:+ "/hls/master.m3u8".

Definition dashMasterKey (videoID : string) : string :=
  "videos/" +:+ videoID +:+ "/dash/manifest.mpd".

(** The loop of [GetVideoInfo] over the streams; it carries [formats],
    [hlsMaster] and [dashMaster]. *)
Fixpoint masters (videoID : string) (streams : list VideoStream.t)
    (formats : list string) (hlsMaster dashMaster : string)
  : M (list string * string * string) :=
  match streams with
  | [] => ret (formats, hlsMaster, dashMaster)
  | stream :: rest =>
      let formats :=
        if contains formats (VideoStream.Format stream) then formats
        else (formats ++ [VideoStream.Format stream])%list in
      if bool_decide (VideoStream.Format stream = "hls")
         && bool_decide (VideoStream.Resolution stream = "1920x1080")
      then
        r <- attempt (storage.GetSignedURL (hlsMasterKey videoID) (24 * time.Hour)) ;;
        masters videoID rest formats
          (match r with Ok url => url | Err _ => hlsMaster end) dashMaster
      else if bool_decide (VideoStream.Format stream = "dash")
              && bool_decide (VideoStream.Resolution stream = "1920x1080")
      then
        r <- attempt (storage.GetSignedURL (dashMasterKey videoID) (24 * time.Hour)) ;;
        masters videoID rest formats hlsMaster
          (match r with Ok url => url | Err _ => dashMaster end)
      else masters videoID rest formats hlsMaster dashMaster
  end.

Definition GetVideoInfo (videoID : string) : M Response :=
  r <- attempt (database.GetVideo videoID) ;;
  match r with
  | Err err => ret (HttpError ("Error retrieving video: " +:+ err) StatusNotFound)
  | Ok video =>
      r <- attempt (database.GetVideoStreams videoID) ;;
      match r with
      | Err err =>
          ret (HttpError ("Error retrieving video streams: " +:+ err)
                 StatusInternalServerError)
      | Ok streams =>
          m <- masters videoID streams [] "" "" ;;
          let '(formats, hlsMaster, dashMaster) := m in
          ret (VideoInfo
                 (mkVideoStreamInfo videoID (Video.Title video)
                    (Video.Duration video) (Video.ProcessingState video)
                    formats hlsMaster dashMaster streams
                    (Video.CreatedAt video)))
      end
  end.

(** The part the two file handlers share once the cache did not serve:
    sign the object key for one hour and redirect. *)
Definition redirect_signed (objectKey : string) : M Response :=
  r <- attempt (storage.GetSignedURL objectKey (1 * time.Hour)) ;;
  match r with
  | Err err =>
      ret (HttpError ("Error generating URL: " +:+ err) StatusInternalServerError)
  | Ok signedURL => ret (Redirect signedURL StatusTemporaryRedirect)
  end.

Definition ServeHLSFile (videoID filename : string) : M Response :=
  let objectKey := "videos/" +:+ videoID +:+ "/hls/" +:+ filename in
  let cacheKey := "hls:" +:+ objectKey in
  e <- ask ;;
  let '(cachedContent, err) := redis_get e cacheKey in
  if bool_decide (err = None) && negb (bool_decide (cachedContent = ""))
  then
    if isM3U8File filename
    then ret (Bytes "application/x-mpegURL" cachedContent)
    else ret (Bytes "video/MP2T" cachedContent)
  else redirect_signed objectKey.

Definition ServeDASHFile (videoID filename : string) : M Response :=
  let objectKey := "videos/" +:+ videoID +:+ "/dash/" +:+ filename in
  let cacheKey := "dash:" +:+ objectKey in
  e <- ask ;;
  let '(cachedContent, err) := redis_get e cacheKey in
  if bool_decide (err = None) && negb (bool_decide (cachedContent = ""))
  then
    if bool_decide (filename = "manifest.mpd")
    then ret (Bytes "application/dash+xml" cachedContent)
    else ret (Bytes "video/mp4" cachedContent)
  else redirect_signed objectKey.

(** [n := def; if q != "" { fmt.Sscanf(q, "%d", &n) }]: a failed scan
    leaves the default. *)
Definition query_int (e : Env) (q : string) (def : Z) : Z :=
  if decide (q = "") then def
  else match Sscanf_d e q with Some n => n | None => def end.

(** [limit_q] and [offset_q] are [r.URL.Query().Get("limit")] and
    [...Get("offset")], empty when the parameter is absent. *)
Definition ListVideos (limit_q offset_q : string) : M Response :=
  e <- ask ;;
  let limit := query_int e limit_q 10 in
  let offset := query_int e offset_q 0 in
  r <- attempt (database.ListVideos limit offset) ;;
  match r with
  | Err err =>
      ret (HttpError ("Error retrieving videos: " +:+ err)
             StatusInternalServerError)
  | Ok videos => ret (VideoList videos limit offset)
  end.

End streamer.

(** ** Package [storage], the write side *)

Module storage_put.

Definition getContentType (filePath : string) : string :=
  let ext := filepath.Ext filePath in
  if decide (ext = ".mp4") then "video/mp4"
  else if decide (ext = ".ts") then "video/MP2T"
  else if decide (ext = ".m3u8") then "application/x-mpegURL"
  else if decide (ext = ".mpd") then "application/dash+xml"
  else "application/octet-stream".

(** [ioutil.ReadFile] then [PutObjectWithContext]; the content type of the
    object goes to the store with the request. *)
Definition UploadFile (bucket localFilePath objectKey : string) : M string :=
  wrap "failed to read file: " external ;;;
  let ContentType := getContentType localFilePath in
  wrap "failed to upload file to S3: " external ;;;
  ret ("s3://" +:+ bucket +:+ "/" +:+ objectKey).

End storage_put.

(** ** More of the Go standard library *)

Module filepath_clean.
(** [filepath.Clean] on slash-separated paths: the elements of the path
    without the empty and the dot elements, each [..] taking away the
    element before it. *)

Fixpoint elements (l element : list ascii) : list (list ascii) :=
  match l with
  | [] => [reverse element]
  | c :: l' =>
      if decide (c = filepath.slash) then reverse element :: elements l' []
      else elements l' (c :: element)
  end.

Definition dotdot : list ascii := [filepath.dot; filepath.dot].

(** [out] holds the elements kept so far, last first. *)
Fixpoint walk (rooted : bool) (els out : list (list ascii))
  : list (list ascii) :=
  match els with
  | [] => reverse out
  | el :: els' =>
      if decide (el = []) then walk rooted els' out
      else if decide (el = [filepath.dot]) then walk rooted els' out
      else if decide (el = dotdot) then
        match out with
        | top :: out' =>
            if decide (top = dotdot) then walk rooted els' (el :: out)
            else walk rooted els' out'
        | [] => if rooted then walk rooted els' out
                else walk rooted els' (el :: out)
        end
      else walk rooted els' (el :: out)
  end.

Fixpoint join (els : list (list ascii)) : list ascii :=
  match els with
  | [] => []
  | [el] => el
  | el :: els' => (el ++ filepath.slash :: join els')%list
  end.

Definition Clean (path : string) : string :=
  if decide (path = "") then "."
  else
    let l := list_ascii_of_string path in
    let rooted := bool_decide (head l = Some filepath.slash) in
    let out := join (walk rooted (elements l []) []) in
    if rooted then string_of_list_ascii (filepath.slash :: out)
    else match out with
         | [] => "."
         | _ => string_of_list_ascii out
         end.

End filepath_clean.

(** ** Command [uploader] *)

Module uploader.

(** What [r.FormFile] gives of the part: its name, its size and its
    [Content-Type] header. *)
Record FileHeader : Type := mkFileHeader {
  Filename : string;
  Size : Z;
  ContentType : string
}.

(** What the handler reads of the request: the outcome of
    [r.ParseMultipartForm] and of [r.FormFile("video")]. *)
Record Request : Type := mkRequest {
  ParseMultipartForm : option error;
  FormFile : result FileHeader
}.

(** [Timestamp] holds the time that the handler formats as RFC 3339. *)
Record VideoUploadResponse : Type := mkVideoUploadResponse {
  ur_VideoID : string;
  ur_Filename : string;
  ur_Size : Z;
  ur_ContentType : string;
  Status : string;
  Message : string;
  Timestamp : Z
}.

Inductive Response : Type :=
| Error (error details : string) (statusCode : Z)   (* handleError *)
| Uploaded (response : VideoUploadResponse).         (* JSON body *)

Definition StatusBadRequest : Z := 400.
Definition StatusInternalServerError : Z := 500.

Definition handleError (message : string) (err : option error) (statusCode : Z)
  : Response :=
  let errMsg :=
    match err with
    | Some e => message +:+ ": " +:+ e
    | None => message
    end in
  Error message errMsg statusCode.

Definition validTypes : list string :=
  ["video/mp4"; "video/quicktime"; "video/x-msvideo"; "video/x-ms-wmv";
   "video/x-matroska"].

Fixpoint isValidVideoType_loop (validTypes : list string) (contentType : string)
  : bool :=
  match validTypes with
  | [] => false
  | valid :: rest =>
      if decide (contentType = valid) then true
      else isValidVideoType_loop rest contentType
  end.

Definition isValidVideoType (contentType : string) : bool :=
  isValidVideoType_loop validTypes contentType.

(** [strings.ReplaceAll(s, " ", "")]. *)
Fixpoint ReplaceAll_spaces (s : string) : string :=
  match s with
  | EmptyString => EmptyString
  | String c s' =>
      if decide (c = " "%char) then ReplaceAll_spaces s'
      else String c (ReplaceAll_spaces s')
  end.

(** [time.Time.Unix]: the seconds of a time counted in nanoseconds. *)
Definition Unix (t : Z) : Z := t / time.Second.

Definition generateUniqueID : M string :=
  now <- Now ;;
  e <- ask ;;
  ret (fmt.d (Unix now) +:+ "-"
       +:+ ReplaceAll_spaces (filepath.Base (filepath_clean.Clean (TempDir e)))).

(** The handler, with the workflow it has started, if any, beside its
    response. Calls whose error the handler drops without a look ([Close],
    the deferred [os.Remove]) are left out. *)
Definition UploadVideo (bucket : string) (r : Request)
  : M (Response * option transcoder.TranscodeParams) :=
  match ParseMultipartForm r with
  | Some err =>
      ret (handleError "Failed to parse form" (Some err) StatusBadRequest, None)
  | None =>
  match FormFile r with
  | Err err =>
      ret (handleError "Failed to get video file" (Some err) StatusBadRequest,
           None)
  | Ok header =>
  let contentType := ContentType header in
  if negb (isValidVideoType contentType) then
    ret (handleError "Invalid video format" None StatusBadRequest, None)
  else
    videoID <- generateUniqueID ;;
    e <- ask ;;
    let ext := filepath.Ext (Filename header) in
    let filename := videoID +:+ ext in
    let tempFile := filepath.Join (TempDir e) filename in
    created <- attempt external ;;                       (* os.Create *)
    match created with
    | Err err =>
        ret (handleError "Failed to create temporary file" (Some err)
               StatusInternalServerError, None)
    | Ok _ =>
    copied <- attempt external ;;                        (* io.Copy *)
    match copied with
    | Err err =>
        ret (handleError "Failed to save file" (Some err)
               StatusInternalServerError, None)
    | Ok _ =>
    let objectKey := "uploads/" +:+ videoID +:+ "/" +:+ filename in
    stored <- attempt (storage_put.UploadFile bucket tempFile objectKey) ;;
    match stored with
    | Err err =>
        ret (handleError "Failed to upload to storage" (Some err)
               StatusInternalServerError, None)
    | Ok _ =>
    let workflowParams :=
      transcoder.mkTranscodeParams videoID objectKey (Filename header)
        contentType in
    started <- attempt external ;;                       (* ExecuteWorkflow *)
    now <- Now ;;
    ret (Uploaded
           (mkVideoUploadResponse videoID (Filename header) (Size header)
              contentType "uploaded"
              "Video uploaded successfully and scheduled for transcoding" now),
         match started with
         | Ok _ => Some workflowParams
         | Err _ => None
         end)
    end end end
  end end.

End uploader.

(** * Vocabulary of the properties *)

(** The catalog answers: no outcome is pending for the external calls, so
    each of them succeeds. *)
Definition reachable (w : World) : Prop := faults w = [].

(** What go-redis reports for a key that is not there. *)
Definition redis_Nil : error := "redis: nil".

(** The answer of the file handlers when the cache did not serve: a 307
    to the object key signed for one hour, a 500 when signing failed. *)
Definition signed_redirect (w : World) (objectKey : string) : streamer.Response :=
  match presign (env w) objectKey (3600 * 1000000000) with
  | Ok url => streamer.Redirect url 307
  | Err e =>
      streamer.HttpError
        ("Error generating URL: failed to sign request: " +:+ e) 500
  end.

(** Cache-aside: a lookup without error and with a non-empty value is
    served with the content type [ct]; anything else is redirected. *)
Definition cache_aside (w : World) (looked_up : string * option error)
    (ct objectKey : string) : streamer.Response :=
  match looked_up with
  | (content, None) =>
      if decide (content = "") then signed_redirect w objectKey
      else streamer.Bytes ct content
  | (_, Some _) => signed_redirect w objectKey
  end.

Definition hls_content_type (filename : string) : string :=
  if streamer.isM3U8File filename then "application/x-mpegURL" else "video/MP2T".

Definition dash_content_type (filename : string) : string :=
  if decide (filename = "manifest.mpd") then "application/dash+xml" else "video/mp4".

(** A rendition of the given format at the reference resolution. *)
Definition is_reference (format : string) (s : VideoStream.t) : bool :=
  bool_decide (VideoStream.Format s = format)
  && bool_decide (VideoStream.Resolution s = "1920x1080").

(** The video has a rendition of the given format at the reference
    resolution. *)
Definition has_reference_rendition (videoID format : string) (d : sql.DB) : bool :=
  existsb (λ s, bool_decide (VideoStream.VideoID s = videoID)
                && bool_decide (VideoStream.Format s = format)
                && bool_decide (VideoStream.Resolution s = "1920x1080"))
    (sql.video_streams d).

(** The master URL of the detail response: the signature of the master
    key over 24 hours when the reference rendition exists and signing
    succeeds, empty otherwise. *)
Definition master_url (w : World) (videoID format masterKey : string) : string :=
  if has_reference_rendition videoID format (db w) then
    match presign (env w) masterKey (24 * 3600 * 1000000000) with
    | Ok url => url
    | Err _ => ""
    end
  else "".

(** Every lookup in the cache fails / finds nothing. *)
Definition cache_unavailable (w : World) : Prop :=
  ∀ key, snd (redis_get (env w) key) ≠ None.

Definition cache_empty (w : World) : Prop :=
  ∀ key, redis_get (env w) key = ("", Some redis_Nil).

(** [ORDER BY created_at DESC] is a total preorder. *)
#[global] Instance created_desc_total : Total sql.created_desc.
Proof. intros a b. unfold sql.created_desc. lia. Qed.

#[global] Instance created_desc_trans : Transitive sql.created_desc.
Proof. intros a b c. unfold sql.created_desc. lia. Qed.

(** ** A concrete deployment, for the examples *)

(** Scenario A of the specification: the two-step ladder, an object store
    whose signed URLs show the key and the lifetime, an empty cache. *)
Definition ladder_A : list Resolution.t :=
  [Resolution.mk 1920 1080 "5000k"; Resolution.mk 1280 720 "2500k"].

(** A scanner of unsigned decimals: the digits at the head of the text. *)
Fixpoint scan_digits (acc : Z) (s : string) : Z :=
  match s with
  | String c s' =>
      match Ascii.is_nat c with
      | Some n => scan_digits (10 * acc + Z.of_nat n) s'
      | None => acc
      end
  | EmptyString => acc
  end.

Definition scan_decimal (s : string) : option Z :=
  match s with
  | String c _ =>
      match Ascii.is_nat c with
      | Some _ => Some (scan_digits 0 s)
      | None => None
      end
  | EmptyString => None
  end.

(** A scanner of decimals with an optional sign. *)
Definition scan_signed (s : string) : option Z :=
  match s with
  | String "-" s' => Z.opp <$> scan_decimal s'
  | String "+" s' => scan_decimal s'
  | _ => scan_decimal s
  end.

Definition env_A : Env :=
  mkEnv "/tmp" "4021" (λ _, 15728640)
    "  Duration: 00:02:00.50, start: 0.000000, bitrate: 1048 kb/s"
    (Ok ladder_A) (λ _, 120.5%float) scan_signed
    (λ key ttl, Ok ("https://store/" +:+ key +:+ "?expires=" +:+ fmt.d ttl))
    (λ _, ("", Some redis_Nil)) (λ _ _ _, 0) 1.

(** An empty catalog that answers. *)
Definition world_A : World := mkWorld sql.empty [] [] 1000 [] env_A.

(** Scenario C of the specification with something to list: four videos,
    the second and the third created in the same microsecond. *)
Definition video_C (id : string) (created : Z) : Video.t :=
  Video.mk id id (id +:+ ".mp4") ("uploads/" +:+ id +:+ "/" +:+ id +:+ ".mp4")
    "downloading" 0%float 4096 "video/mp4" created created.

Definition world_C : World :=
  mkWorld
    (sql.mkDB [video_C "a" 1000; video_C "b" 3000; video_C "c" 3000;
               video_C "d" 2000] [])
    [] [] 5000 [] env_A.

Definition deps_A : transcoder.ActivityDependencies :=
  transcoder.mkDeps (ffmpeg.mkFFmpeg "ffmpeg" 4 "medium").

Definition params_A : transcoder.TranscodeParams :=
  transcoder.mkTranscodeParams "vid" "uploads/vid/vid.mp4" "movie.mp4" "video/mp4".

(** [w] with another cache. *)
Definition with_redis (get : string → string * option error) (w : World) : World :=
  mkWorld (db w) (history w) (faults w) (clock w) (commands w)
    (mkEnv (TempDir (env w)) (temp_suffix (env w)) (stat_size (env w))
       (tool_stderr (env w)) (ladder_config (env w)) (ParseFloat (env w))
       (Sscanf_d (env w)) (presign (env w)) get (tie_rank (env w))
       (rows_read (env w))).

(** [w] with an object store that refuses to sign. *)
Definition without_signing (w : World) : World :=
  mkWorld (db w) (history w) (faults w) (clock w) (commands w)
    (mkEnv (TempDir (env w)) (temp_suffix (env w)) (stat_size (env w))
       (tool_stderr (env w)) (ladder_config (env w)) (ParseFloat (env w))
       (Sscanf_d (env w)) (λ _ _, Err "NoCredentialProviders") (redis_get (env w))
       (tie_rank (env w)) (rows_read (env w))).

(** Scenario A after its Download stage. *)
Definition world_A_downloaded : World :=
  fst (transcoder.DownloadVideoActivity params_A world_A).

Definition download_A : transcoder.DownloadResult :=
  transcoder.mkDownloadResult "vid" "/tmp/transcode-vid4021/vid.mp4"
    "uploads/vid/vid.mp4".

(** ** Reading a master manifest *)

Definition line_feed : ascii := "010"%char.

(** The text holds no line feed. *)
Fixpoint single_line (s : string) : bool :=
  match s with
  | EmptyString => true
  | String c s' => negb (bool_decide (c = line_feed)) && single_line s'
  end.

(** The lines of a text: the pieces that the line feeds end. *)
Fixpoint manifest_lines (s : string) : list string :=
  match s with
  | EmptyString => []
  | String c s' =>
      if decide (c = line_feed) then "" :: manifest_lines s'
      else match manifest_lines s' with
           | [] => [String c ""]
           | l :: ls => String c l :: ls
           end
  end.

(** The variant entries of a manifest: every line that opens with the
    [STREAM-INF] tag, with the line after it, which names the playlist of
    the variant. *)
Fixpoint stream_inf_entries (ls : list string) : list (string * string) :=
  match ls with
  | [] => []
  | tag :: rest =>
      if strings_go.HasPrefix tag "#EXT-X-STREAM-INF:" then
        match rest with
        | [] => [(tag, "")]
        | uri :: rest' => (tag, uri) :: stream_inf_entries rest'
        end
      else stream_inf_entries rest
  end.

(** The entry of a variant as the specification words it: the tag line
    carries the bitrate of the variant and its resolution. *)
Definition claimed_stream_inf (res : Resolution.t) : string :=
  "#EXT-X-STREAM-INF:BANDWIDTH=" +:+ Resolution.Bitrate res
  +:+ ",RESOLUTION=" +:+ ffmpeg.resolution_label res.

(** The descriptor the Transcode stage reports for ladder entry [i]. *)
Definition descriptor (params : transcoder.TranscodeParams) (i : nat)
    (res : Resolution.t) : transcoder.StreamInfo :=
  transcoder.mkStreamInfo (ffmpeg.resolution_label res) (Resolution.Bitrate res)
    "hls" (transcoder.streamPath params (Z.of_nat i)) 0 10.

(** [entry] is the manifest entry of ladder entry [i]: a tag line with some
    bandwidth and the resolution of the variant, then the name of the
    variant's playlist. *)
Definition variant_entry (segmentFilename : string) (i : nat)
    (res : Resolution.t) (entry : string * string) : Prop :=
  (∃ bandwidth,
     fst entry = "#EXT-X-STREAM-INF:BANDWIDTH=" +:+ bandwidth
                 +:+ ",RESOLUTION=" +:+ ffmpeg.resolution_label res)
  ∧ snd entry = ffmpeg.playlistFile segmentFilename (Z.of_nat i).

(** ** Code that leaves the surroundings alone *)

Definition keeps_env {A} (m : M A) : Prop := ∀ w, env (fst (m w)) = env w.

(** Scenario A after its Analyze stage. *)
Definition world_A_analyzed : World :=
  fst (transcoder.ExtractMetadataActivity deps_A download_A world_A_downloaded).

(** Scenario A after its three stages, run one after the other. *)
Definition world_A_transcoded : World :=
  fst (transcoder.TranscodeVideoActivity deps_A params_A world_A_analyzed).

(** The result of the Transcode stage in scenario A. *)
Definition result_A : transcoder.TranscodeResult :=
  transcoder.mkTranscodeResult "vid" "/tmp/output-vid4021"
    [transcoder.mkStreamInfo "1920x1080" "5000k" "hls"
       "videos/vid/hls/vid_v0.m3u8" 0 10;
     transcoder.mkStreamInfo "1280x720" "2500k" "hls"
       "videos/vid/hls/vid_v1.m3u8" 0 10].

(** ** Publishing renditions *)

(** The key of the unique constraint of [video_streams] holds in the
    table. *)
Definition streams_unique (d : sql.DB) : Prop :=
  NoDup (map sql.stream_key (sql.video_streams d)).

(** The rows of a video for one resolution and format. *)
Definition renditions_of (videoID resolution format : string) (d : sql.DB)
  : list VideoStream.t :=
  filter (λ r, sql.stream_key r = (videoID, resolution, format))
    (sql.video_streams d).

(** What an upsert looks at in the stream it is given: the key of the
    arbiter and the three columns of [DO UPDATE]. *)
Definition stream_columns (s : VideoStream.t) : string * Z * Z :=
  (VideoStream.Path s, VideoStream.Size s, VideoStream.SegmentSize s).

Definition upsert_view (s : VideoStream.t)
  : (string * string * string) * (string * Z * Z) :=
  (sql.stream_key s, stream_columns s).

(** A row after a [DO UPDATE] with the given key and columns, if the key
    is the row's. *)
Definition updated (kc : (string * string * string) * (string * Z * Z))
    (r : VideoStream.t) : VideoStream.t :=
  if decide (sql.stream_key r = fst kc) then
    VideoStream.mk (VideoStream.ID r) (VideoStream.VideoID r)
      (VideoStream.Resolution r) (VideoStream.Bitrate r) (VideoStream.Format r)
      (fst (fst (snd kc))) (snd (fst (snd kc))) (snd (snd kc))
      (VideoStream.CreatedAt r)
  else r.

(** A sequence of upserts, stopping at the first refusal. *)
Fixpoint upsert_all (ss : list VideoStream.t) (d : sql.DB) : result sql.DB :=
  match ss with
  | [] => Ok d
  | s :: ss' =>
      match sql.upsert_stream s d with
      | Ok d' => upsert_all ss' d'
      | Err e => Err e
      end
  end.

(** What the publish loop upserts for a ladder, clock aside. *)
Fixpoint ladder_views (params : transcoder.TranscodeParams) (i : Z)
    (l : list Resolution.t)
  : list ((string * string * string) * (string * Z * Z)) :=
  match l with
  | [] => []
  | res :: rest =>
      ((transcoder.VideoID params, ffmpeg.resolution_label res, "hls"),
       (transcoder.streamPath params i, 0, 10))
      :: ladder_views params (i + 1) rest
  end.

(** A row after a sequence of [DO UPDATE]s, oldest first. *)
Definition updated_by
    (kcs : list ((string * string * string) * (string * Z * Z)))
    (r : VideoStream.t) : VideoStream.t :=
  fold_left (λ r kc, updated kc r) kcs r.

(** The rows the publish loop upserts when the clock reads [now] at its
    start and nothing else moves it. *)
Fixpoint published (params : transcoder.TranscodeParams) (i : Z)
    (l : list Resolution.t) (now : Z) : list VideoStream.t :=
  match l with
  | [] => []
  | res :: rest =>
      VideoStream.mk
        (transcoder.VideoID params +:+ "-" +:+ ffmpeg.variantName i)
        (transcoder.VideoID params) (ffmpeg.resolution_label res)
        (Resolution.Bitrate res) "hls" (transcoder.streamPath params i) 0 10 now
      :: published params (i + 1) rest (now + 1)
  end.

(** Scenario A after its Analyze stage, with a rendition left in the
    catalog by an earlier publish: the key is the one of the first ladder
    entry, the path, the size and the segment size are others. *)
Definition world_A_stale : World :=
  mkWorld
    (sql.mkDB (sql.videos (db world_A_analyzed))
       [VideoStream.mk "vid-old" "vid" "1920x1080" "4000k" "hls"
          "videos/vid/hls/old.m3u8" 77 6 500000])
    (history world_A_analyzed) [] (clock world_A_analyzed)
    (commands world_A_analyzed) env_A.

(** Scenario A after the publish loop of its Transcode stage. *)
Definition world_A_published : World :=
  fst (transcoder.record_streams params_A 0 ladder_A [] world_A_analyzed).

(** ** The trajectory of a processing state *)

(** The processing state the catalog records for a video; [None] when the
    video has no row. *)
Definition state_of (videoID : string) (d : sql.DB) : option string :=
  Video.ProcessingState <$> sql.select_video videoID d.

(** One move along the forward path: the row appears as [downloading];
    [downloading], [analyzing], [transcoding], [completed] follow each
    other; the three working states may end in [error]; writing the state
    that is already there moves nothing. *)
Definition forward (old new : option string) : Prop :=
  old = new
  ∨ (old = None ∧ new = Some "downloading")
  ∨ (old = Some "downloading" ∧ new = Some "analyzing")
  ∨ (old = Some "analyzing" ∧ new = Some "transcoding")
  ∨ (old = Some "transcoding" ∧ new = Some "completed")
  ∨ ((old = Some "downloading" ∨ old = Some "analyzing" ∨ old = Some "transcoding")
     ∧ new = Some "error").

(** A commit of the run of [videoID]: its state moves forward and the
    state of every other video stays. *)
Definition run_step (videoID : string) (old new : sql.DB) : Prop :=
  forward (state_of videoID old) (state_of videoID new)
  ∧ ∀ other, other ≠ videoID → state_of other new = state_of other old.

(** Successive catalogs, newest first, are linked by [step]. *)
Fixpoint chain (step : sql.DB → sql.DB → Prop) (newest_first : list sql.DB)
  : Prop :=
  match newest_first with
  | new :: rest =>
      match rest with
      | old :: _ => step old new ∧ chain step rest
      | [] => True
      end
  | [] => True
  end.

(** [w'] continues [w]: same surroundings, and the catalogs committed
    since [w], down to the catalog of [w], are linked by [step]. *)
Definition continues (step : sql.DB → sql.DB → Prop) (w w' : World) : Prop :=
  env w' = env w
  ∧ ∃ new, (db w' :: history w' = new ++ db w :: history w)%list
           ∧ chain step (new ++ [db w]).

(** From a catalog satisfying [P], the code [m] continues the world by
    [step]s and ends with a result and a catalog satisfying [Q]. *)
Definition triple {A} (step : sql.DB → sql.DB → Prop) (P : sql.DB → Prop)
    (m : M A) (Q : result A → sql.DB → Prop) : Prop :=
  ∀ w, P (db w) → continues step w (fst (m w)) ∧ Q (snd (m w)) (db (fst (m w))).

(** The state of [videoID] is one of [states]. *)
Definition among (videoID : string) (states : list (option string))
    (d : sql.DB) : Prop :=
  state_of videoID d ∈ states.

(** The post-condition of a stage: [ok] after success, [err] after
    failure. *)
Definition ends {A} (ok err : sql.DB → Prop) (r : result A) (d : sql.DB) : Prop :=
  match r with Ok _ => ok d | Err _ => err d end.

(** A commit that changes nothing. *)
Definition unchanged (old new : sql.DB) : Prop := new = old.

(** A commit in which the row of [videoID], if it appears, appears as
    [downloading]. *)
Definition appears (videoID : string) (old new : sql.DB) : Prop :=
  state_of videoID old = None →
  state_of videoID new = None ∨ state_of videoID new = Some "downloading".

(** A commit that moves the state of [videoID] forward or leaves it. *)
Definition moves_forward (videoID : string) (old new : sql.DB) : Prop :=
  forward (state_of videoID old) (state_of videoID new).

(** The processing states the world has recorded for a video, newest
    first. *)
Definition trajectory (videoID : string) (w : World) : list (option string) :=
  map (state_of videoID) (db w :: history w).


(** * Vocabulary of the further properties *)

(** The row [INSERT INTO videos] stores for a video: its fields, with the
    default duration and with the two times cut to the microsecond. *)
Definition stored_video (v : Video.t) : Video.t :=
  Video.mk (Video.ID v) (Video.Title v) (Video.OriginalName v)
    (Video.OriginalPath v) (Video.ProcessingState v) 0%float (Video.Size v)
    (Video.ContentType v) (Video.CreatedAt v / 1000 * 1000)
    (Video.UpdatedAt v / 1000 * 1000).

(** [ORDER BY resolution DESC] is a total preorder. *)
#[global] Instance resolution_desc_total : Total sql.resolution_desc.
Proof.
  intros a b. unfold sql.resolution_desc.
  destruct (total String.le (VideoStream.Resolution a) (VideoStream.Resolution b));
    auto.
Qed.

(** The renditions of a video in the table. *)
Definition streams_of (videoID : string) (d : sql.DB) : list VideoStream.t :=
  filter (λ r, VideoStream.VideoID r = videoID) (sql.video_streams d).

(** The formats the detail loop has collected after [streams], starting
    from [formats]: each format once, in order of first appearance. *)
Definition formats_seen (formats : list string) (streams : list VideoStream.t)
  : list string :=
  fold_left
    (λ fs s, if streamer.contains fs (VideoStream.Format s) then fs
             else (fs ++ [VideoStream.Format s])%list)
    streams formats.

(** The world with another queue of coming failures. *)
Definition with_faults (q : list (option error)) (w : World) : World :=
  mkWorld (db w) (history w) q (clock w) (commands w) (env w).

(** Scenario A after its stages, with a catalog that answers the lookup
    of the video and the query of its renditions and then breaks while the
    renditions are read. *)
Definition world_A_breaks : World :=
  with_faults [None; None; Some "unexpected EOF"] world_A_transcoded.

(** A catalog to list in which no two videos were created at the same
    time. *)
Definition world_D : World :=
  mkWorld
    (sql.mkDB [video_C "a" 1000; video_C "b" 3000; video_C "d" 2000] [])
    [] [] 5000 [] env_A.

(** Scenario A after the analysis, with a tool about to fail once the
    catalog has answered and the output directory has been made. *)
Definition world_A_tool_fails : World :=
  with_faults [None; None; None; Some "exit status 1"] world_A_analyzed.





(** Code that runs no command. *)
Definition quiet {A} (m : M A) : Prop :=
  ∀ w, commands (fst (m w)) = commands w.

(** The commands [m] runs from [w], oldest first. *)
Definition ran {A} (m : M A) (w : World) : list (string * list string) :=
  drop (length (commands w)) (commands (fst (m w))).

(** The file a run of the tool is told to read: what follows [-i]. *)
Definition input_of (cmd : string * list string) : option string :=
  snd cmd !! 1%nat.

(** Code that writes nothing: the catalog, its history and the commands
    run are what they were. *)
Definition read_only {A} (m : M A) : Prop :=
  ∀ w, db (fst (m w)) = db w
       ∧ history (fst (m w)) = history w
       ∧ commands (fst (m w)) = commands w.

(** From [w], the handler [m] writes a response and leaves the catalog,
    its history and the commands run as they were. *)
Definition answers_reading (m : M streamer.Response) (w : World) : Prop :=
  is_ok (snd (m w)) = true
  ∧ db (fst (m w)) = db w
  ∧ history (fst (m w)) = history w
  ∧ commands (fst (m w)) = commands w.




(** The id [generateUniqueID] makes at the time [now] in the surroundings
    [e]. *)
Definition unique_id (now : Z) (e : Env) : string :=
  fmt.d (uploader.Unix now) +:+ "-"
  +:+ uploader.ReplaceAll_spaces
        (filepath.Base (filepath_clean.Clean (TempDir e))).

(** The request is refused before anything is done: the form does not
    parse, holds no file, or holds a file of a type that is not listed. *)
Definition refused (r : uploader.Request) : Prop :=
  uploader.ParseMultipartForm r ≠ None
  ∨ is_ok (uploader.FormFile r) = false
  ∨ ∃ header, uploader.FormFile r = Ok header
              ∧ uploader.ContentType header ∉ uploader.validTypes.

(** An upload of scenario A, and a second one a few ticks later. *)
Definition request_A : uploader.Request :=
  uploader.mkRequest None
    (Ok (uploader.mkFileHeader "movie.mp4" 15728640 "video/mp4")).

Definition request_B : uploader.Request :=
  uploader.mkRequest None
    (Ok (uploader.mkFileHeader "trailer.mov" 4096 "video/quicktime")).

(** Scenario A once its file has been uploaded. *)
Definition world_A_uploaded : World :=
  fst (uploader.UploadVideo "videos" request_A world_A).

(** * Properties *)

(** ** Steps of the monad *)

Lemma external_reachable w : reachable w → external w = (w, Ok tt).
Proof. unfold reachable, external. intros ->. reflexivity. Qed.

Lemma wrap_external_reachable prefix w :
  reachable w → wrap prefix external w = (w, Ok tt).
Proof. intros H. unfold wrap. rewrite external_reachable by done. reflexivity. Qed.

(** ** The read path *)

Lemma redirect_signed_eq objectKey w :
  streamer.redirect_signed objectKey w = (w, Ok (signed_redirect w objectKey)).
Proof.
  unfold streamer.redirect_signed, signed_redirect, storage.GetSignedURL.
  unfold bind, attempt, wrap, lift, ask, ret. simpl.
  change (1 * time.Hour) with (3600 * 1000000000).
  destruct (presign (env w) objectKey _); reflexivity.
Qed.

Lemma ServeHLSFile_eq videoID filename w :
  streamer.ServeHLSFile videoID filename w =
  (w, Ok (cache_aside w
            (redis_get (env w) ("hls:videos/" +:+ videoID +:+ "/hls/" +:+ filename))
            (hls_content_type filename)
            ("videos/" +:+ videoID +:+ "/hls/" +:+ filename))).
Proof.
  unfold streamer.ServeHLSFile, cache_aside, hls_content_type.
  unfold bind at 1. unfold ask. simpl.
  destruct (redis_get (env w) _) as [content [e|]]; simpl.
  - apply redirect_signed_eq.
  - destruct (decide (content = "")) as [->|Hne]; simpl.
    + apply redirect_signed_eq.
    + rewrite bool_decide_eq_false_2 by done. simpl.
      destruct (streamer.isM3U8File filename); reflexivity.
Qed.

Lemma ServeDASHFile_eq videoID filename w :
  streamer.ServeDASHFile videoID filename w =
  (w, Ok (cache_aside w
            (redis_get (env w) ("dash:videos/" +:+ videoID +:+ "/dash/" +:+ filename))
            (dash_content_type filename)
            ("videos/" +:+ videoID +:+ "/dash/" +:+ filename))).
Proof.
  unfold streamer.ServeDASHFile, cache_aside, dash_content_type.
  unfold bind at 1. unfold ask. simpl.
  destruct (redis_get (env w) _) as [content [e|]]; simpl.
  - apply redirect_signed_eq.
  - destruct (decide (content = "")) as [->|Hne]; simpl.
    + apply redirect_signed_eq.
    + rewrite bool_decide_eq_false_2 by done. simpl.
      destruct (decide (filename = "manifest.mpd")) as [->|Hf].
      * reflexivity.
      * rewrite bool_decide_eq_false_2 by done. reflexivity.
Qed.

Lemma substring_app_r (a b : string) (n : nat) :
  String.substring (String.length a) n (a +:+ b) = String.substring 0 n b.
Proof. induction a as [|c a IH]; simpl; [reflexivity | apply IH]. Qed.

Lemma substring_all (s : string) : String.substring 0 (String.length s) s = s.
Proof. induction s as [|c s IH]; simpl; [reflexivity | by rewrite IH]. Qed.

Lemma substring_split (s : string) (k : nat) :
  (k ≤ String.length s)%nat →
  s = String.substring 0 k s +:+ String.substring k (String.length s - k) s.
Proof.
  revert k. induction s as [|c s IH]; intros k Hk; simpl in *.
  - destruct k; reflexivity.
  - destruct k as [|k]; simpl.
    + by rewrite substring_all.
    + change (String c s = String c (String.substring 0 k s
                 +:+ String.substring k (String.length s - k) s)).
      f_equal. apply IH. lia.
Qed.

Lemma length_app_string (a b : string) :
  String.length (a +:+ b) = (String.length a + String.length b)%nat.
Proof. induction a as [|c a IH]; simpl; [reflexivity | by rewrite IH]. Qed.

Lemma isM3U8File_spec filename :
  streamer.isM3U8File filename = true ↔
  ∃ stem, stem ≠ "" ∧ filename = stem +:+ ".m3u8".
Proof.
  unfold streamer.isM3U8File, strings_go.last_n. split.
  - intros [Hlen Hsuf]%andb_prop.
    apply bool_decide_eq_true_1 in Hlen, Hsuf.
    exists (String.substring 0 (String.length filename - 5) filename). split.
    + intros Hempty.
      pose proof (substring_split filename (String.length filename - 5)) as Hs.
      rewrite Hempty in Hs. simpl in Hs.
      replace (String.length filename - (String.length filename - 5))%nat
        with 5%nat in Hs by lia.
      rewrite Hsuf in Hs. rewrite Hs in Hlen by lia. simpl in Hlen. lia.
    + pose proof (substring_split filename (String.length filename - 5)) as Hs.
      replace (String.length filename - (String.length filename - 5))%nat
        with 5%nat in Hs by lia.
      rewrite Hsuf in Hs. apply Hs. lia.
  - intros (stem & Hstem & ->).
    rewrite length_app_string. simpl.
    replace (String.length stem + 5 - 5)%nat with (String.length stem) by lia.
    rewrite substring_app_r. simpl.
    rewrite bool_decide_eq_true_2; [reflexivity|].
    destruct stem; [done | simpl; lia].
Qed.

(** C5 (as amended). Both file handlers look up [{format}:{objectKey}] and
    leave the world as it was. A lookup without error and with a non-empty
    value is served from the cache: the HLS handler says
    [application/x-mpegURL] exactly for a name made of a non-empty stem
    and [.m3u8], and [video/MP2T] for every other name; the DASH handler
    says [application/dash+xml] exactly for [manifest.mpd] and [video/mp4]
    for every other name. Every other lookup (miss, error, empty value) is
    answered without fetching the object: a 307 to the object key signed
    for one hour, or a 500 when signing fails. *)
Theorem cache_aside_read_path (videoID filename : string) (w : World) :
  streamer.ServeHLSFile videoID filename w =
    (w, Ok (cache_aside w
              (redis_get (env w) ("hls:videos/" +:+ videoID +:+ "/hls/" +:+ filename))
              (if streamer.isM3U8File filename
               then "application/x-mpegURL" else "video/MP2T")
              ("videos/" +:+ videoID +:+ "/hls/" +:+ filename)))
  ∧ streamer.ServeDASHFile videoID filename w =
    (w, Ok (cache_aside w
              (redis_get (env w) ("dash:videos/" +:+ videoID +:+ "/dash/" +:+ filename))
              (if decide (filename = "manifest.mpd")
               then "application/dash+xml" else "video/mp4")
              ("videos/" +:+ videoID +:+ "/dash/" +:+ filename)))
  ∧ (streamer.isM3U8File filename = true ↔
     ∃ stem, stem ≠ "" ∧ filename = stem +:+ ".m3u8").
Proof.
  split; [apply ServeHLSFile_eq|].
  split; [apply ServeDASHFile_eq|].
  apply isM3U8File_spec.
Qed.

(** C7. When every cache lookup fails, both file handlers answer what
    they answer when the cache holds nothing: the redirect to the object
    key signed for one hour (the 500 of a failed signature in both cases);
    the failure of the cache is never the answer. *)
Theorem cache_error_falls_through (videoID filename : string) (w w_miss : World) :
  cache_unavailable w →
  cache_empty w_miss →
  presign (env w_miss) = presign (env w) →
  snd (streamer.ServeHLSFile videoID filename w)
    = snd (streamer.ServeHLSFile videoID filename w_miss)
  ∧ snd (streamer.ServeHLSFile videoID filename w)
    = Ok (signed_redirect w ("videos/" +:+ videoID +:+ "/hls/" +:+ filename))
  ∧ snd (streamer.ServeDASHFile videoID filename w)
    = snd (streamer.ServeDASHFile videoID filename w_miss)
  ∧ snd (streamer.ServeDASHFile videoID filename w)
    = Ok (signed_redirect w ("videos/" +:+ videoID +:+ "/dash/" +:+ filename)).
Proof.
  intros Hdown Hmiss Hsign.
  rewrite !ServeHLSFile_eq, !ServeDASHFile_eq. cbn [snd].
  rewrite !Hmiss. unfold cache_aside, signed_redirect. rewrite Hsign.
  repeat match goal with
  | |- context [redis_get (env w) ?key] =>
      let H := fresh "Hkey" in
      pose proof (Hdown key) as H;
      destruct (redis_get (env w) key) as [? [?|]]; [|done]
  end.
  done.
Qed.

(** A witness of C7: a cache that refuses connections against an empty
    one. *)
Lemma cache_error_falls_through_witness :
  snd (streamer.ServeHLSFile "vid" "vid_v0.m3u8"
         (with_redis (λ _, ("", Some "dial tcp: connection refused")) world_A))
    = snd (streamer.ServeHLSFile "vid" "vid_v0.m3u8" world_A)
  ∧ snd (streamer.ServeHLSFile "vid" "vid_v0.m3u8"
         (with_redis (λ _, ("", Some "dial tcp: connection refused")) world_A))
    = Ok (signed_redirect
            (with_redis (λ _, ("", Some "dial tcp: connection refused")) world_A)
            "videos/vid/hls/vid_v0.m3u8")
  ∧ snd (streamer.ServeDASHFile "vid" "vid_v0.m3u8"
         (with_redis (λ _, ("", Some "dial tcp: connection refused")) world_A))
    = snd (streamer.ServeDASHFile "vid" "vid_v0.m3u8" world_A)
  ∧ snd (streamer.ServeDASHFile "vid" "vid_v0.m3u8"
         (with_redis (λ _, ("", Some "dial tcp: connection refused")) world_A))
    = Ok (signed_redirect
            (with_redis (λ _, ("", Some "dial tcp: connection refused")) world_A)
            "videos/vid/dash/vid_v0.m3u8").
Proof.
  apply (cache_error_falls_through "vid" "vid_v0.m3u8"
           (with_redis (λ _, ("", Some "dial tcp: connection refused")) world_A)
           world_A).
  - intros key. simpl. discriminate.
  - intros key. reflexivity.
  - reflexivity.
Defined.

(** C5 as stated fails. With the cache holding the objects: the HLS file
    named [.m3u8] is served as [video/MP2T]; a DASH file named [seg.m3u8]
    is served as [video/mp4]; a cached empty value is not served but
    redirected; and on a miss with an object store that cannot sign the
    answer is a 500, not a redirect. *)
Lemma cache_aside_read_path_counterexample :
  snd (streamer.ServeHLSFile "vid" ".m3u8"
         (with_redis (λ _, ("#EXTM3U", None)) world_A))
    = Ok (streamer.Bytes "video/MP2T" "#EXTM3U")
  ∧ filepath.Ext ".m3u8" = ".m3u8"
  ∧ snd (streamer.ServeDASHFile "vid" "seg.m3u8"
         (with_redis (λ _, ("#EXTM3U", None)) world_A))
    = Ok (streamer.Bytes "video/mp4" "#EXTM3U")
  ∧ snd (streamer.ServeHLSFile "vid" "vid_v0.m3u8"
         (with_redis (λ _, ("", None)) world_A))
    = Ok (streamer.Redirect
            "https://store/videos/vid/hls/vid_v0.m3u8?expires=3600000000000" 307)
  ∧ snd (streamer.ServeHLSFile "vid" "vid_v0.m3u8" (without_signing world_A))
    = Ok (streamer.HttpError
            "Error generating URL: failed to sign request: NoCredentialProviders"
            500).
Proof. repeat split; vm_compute; reflexivity. Qed.

(** ** Video detail *)

Lemma existsb_Permutation {A} (f : A → bool) (l1 l2 : list A) :
  l1 ≡ₚ l2 → existsb f l1 = existsb f l2.
Proof.
  induction 1 as [|x l1 l2 _ IH|x y l|l1 l2 l3 _ IH1 _ IH2]; simpl.
  - reflexivity.
  - by rewrite IH.
  - destruct (f x), (f y); reflexivity.
  - by rewrite IH1.
Qed.

Lemma existsb_filter {A} (P : A → Prop) `{∀ x, Decision (P x)}
    (f : A → bool) (l : list A) :
  existsb f (filter P l) = existsb (λ x, bool_decide (P x) && f x) l.
Proof.
  induction l as [|x l IH]; [reflexivity|].
  rewrite filter_cons. simpl. destruct (decide (P x)) as [Hx|Hx].
  - rewrite bool_decide_eq_true_2 by done. simpl. by rewrite IH.
  - rewrite bool_decide_eq_false_2 by done. simpl. apply IH.
Qed.

Lemma select_streams_reference videoID format d :
  existsb (is_reference format) (sql.select_streams videoID d)
  = has_reference_rendition videoID format d.
Proof.
  unfold sql.select_streams, has_reference_rendition.
  rewrite (existsb_Permutation _ _ _ (merge_sort_Permutation _ _)).
  rewrite existsb_filter. induction (sql.video_streams d) as [|s l IH]; simpl.
  - reflexivity.
  - rewrite IH. unfold is_reference. by rewrite andb_assoc.
Qed.

Lemma GetSignedURL_eq objectKey ttl w :
  storage.GetSignedURL objectKey ttl w =
  (w, match presign (env w) objectKey ttl with
      | Ok url => Ok url
      | Err e => Err ("failed to sign request: " +:+ e)
      end).
Proof.
  unfold storage.GetSignedURL, bind, ask, wrap, lift. simpl.
  destruct (presign (env w) objectKey ttl); reflexivity.
Qed.

Lemma masters_eq videoID streams : ∀ formats hlsMaster dashMaster w,
  ∃ formats',
    streamer.masters videoID streams formats hlsMaster dashMaster w =
    (w, Ok (formats',
            (if existsb (is_reference "hls") streams then
               match presign (env w) (streamer.hlsMasterKey videoID) (24 * time.Hour) with
               | Ok url => url | Err _ => hlsMaster end
             else hlsMaster),
            (if existsb (is_reference "dash") streams then
               match presign (env w) (streamer.dashMasterKey videoID) (24 * time.Hour) with
               | Ok url => url | Err _ => dashMaster end
             else dashMaster))).
Proof.
  induction streams as [|s rest IH]; intros formats h d w.
  - exists formats. reflexivity.
  - cbn [streamer.masters existsb]. unfold is_reference at 1 3.
    destruct (decide (VideoStream.Resolution s = "1920x1080")) as [Hr|Hr];
      [rewrite (bool_decide_eq_true_2 _ Hr) | rewrite (bool_decide_eq_false_2 _ Hr)];
      rewrite ?andb_true_r, ?andb_false_r; cbn [orb]; [|apply IH].
    destruct (decide (VideoStream.Format s = "hls")) as [Hh|Hh].
    + rewrite (bool_decide_eq_true_2 _ Hh).
      assert (VideoStream.Format s ≠ "dash") as Hd by (rewrite Hh; done).
      rewrite (bool_decide_eq_false_2 _ Hd). cbn [orb].
      unfold bind at 1, attempt. rewrite GetSignedURL_eq.
      destruct (presign (env w) (streamer.hlsMasterKey videoID) _) as [url|e] eqn:Hp.
      * destruct (IH (if streamer.contains formats (VideoStream.Format s) then formats
                      else (formats ++ [VideoStream.Format s])%list) url d w)
          as [fs ->].
        exists fs. rewrite Hp. by destruct (existsb (is_reference "hls") rest).
      * destruct (IH (if streamer.contains formats (VideoStream.Format s) then formats
                      else (formats ++ [VideoStream.Format s])%list) h d w)
          as [fs ->].
        exists fs. rewrite Hp. by destruct (existsb (is_reference "hls") rest).
    + rewrite (bool_decide_eq_false_2 _ Hh). cbn [orb].
      destruct (decide (VideoStream.Format s = "dash")) as [Hd|Hd].
      * rewrite (bool_decide_eq_true_2 _ Hd). cbn [orb].
        unfold bind at 1, attempt. rewrite GetSignedURL_eq.
        destruct (presign (env w) (streamer.dashMasterKey videoID) _) as [url|e] eqn:Hp.
        -- destruct (IH (if streamer.contains formats (VideoStream.Format s) then formats
                         else (formats ++ [VideoStream.Format s])%list) h url w)
             as [fs ->].
           exists fs. rewrite Hp. by destruct (existsb (is_reference "dash") rest).
        -- destruct (IH (if streamer.contains formats (VideoStream.Format s) then formats
                         else (formats ++ [VideoStream.Format s])%list) h d w)
             as [fs ->].
           exists fs. rewrite Hp. by destruct (existsb (is_reference "dash") rest).
      * rewrite (bool_decide_eq_false_2 _ Hd). cbn [orb]. apply IH.
Qed.

Lemma GetVideo_reachable videoID w :
  reachable w →
  database.GetVideo videoID w =
  (w, match sql.select_video videoID (db w) with
      | Some video => Ok video
      | None => Err ("video not found: " +:+ videoID)
      end).
Proof.
  intros Hw. unfold database.GetVideo, bind.
  rewrite wrap_external_reachable by done. unfold query.
  destruct (sql.select_video videoID (db w)); reflexivity.
Qed.

Lemma scan_rows_reachable {A} (rows : result (list A)) w :
  reachable w →
  database.scan_rows rows w
  = (w, Ok (match rows with Ok l => l | Err _ => [] end)).
Proof.
  intros Hw. unfold database.scan_rows, bind, attempt.
  rewrite external_reachable by done. unfold ask.
  destruct rows; reflexivity.
Qed.

Lemma GetVideoStreams_reachable videoID w :
  reachable w →
  database.GetVideoStreams videoID w = (w, Ok (sql.select_streams videoID (db w))).
Proof.
  intros Hw. unfold database.GetVideoStreams, bind.
  rewrite wrap_external_reachable by done. unfold query.
  by rewrite scan_rows_reachable.
Qed.

(** C6 (as amended). For a video of the catalog, the detail operation
    answers with the video's renditions and, per format, a master URL: when
    a rendition of that format at 1920x1080 is among the video's
    renditions, the signature over 24 hours of the master key of the video
    ([videos/{id}/hls/master.m3u8], [videos/{id}/dash/manifest.mpd]), not of
    the rendition's own path; empty when there is no such rendition or
    signing fails. 24 hours is longer than the hour of the file handlers. *)
Theorem video_detail_masters (videoID : string) (w : World) (video : Video.t) :
  reachable w →
  sql.select_video videoID (db w) = Some video →
  (∃ formats,
     streamer.GetVideoInfo videoID w =
     (w, Ok (streamer.VideoInfo
               (streamer.mkVideoStreamInfo videoID (Video.Title video)
                  (Video.Duration video) (Video.ProcessingState video) formats
                  (master_url w videoID "hls"
                     ("videos/" +:+ videoID +:+ "/hls/master.m3u8"))
                  (master_url w videoID "dash"
                     ("videos/" +:+ videoID +:+ "/dash/manifest.mpd"))
                  (sql.select_streams videoID (db w))
                  (Video.CreatedAt video)))))
  ∧ 1 * time.Hour < 24 * time.Hour.
Proof.
  intros Hw Hv. split; [|reflexivity].
  unfold streamer.GetVideoInfo, bind at 1, attempt at 1.
  rewrite GetVideo_reachable, Hv by done.
  unfold bind at 1, attempt at 1. rewrite GetVideoStreams_reachable by done.
  destruct (masters_eq videoID (sql.select_streams videoID (db w)) [] "" "" w)
    as [formats Hm].
  exists formats. unfold bind. rewrite Hm.
  rewrite !select_streams_reference. reflexivity.
Qed.

Lemma video_detail_masters_witness :
  (∃ formats,
     streamer.GetVideoInfo "vid" world_A_transcoded =
     (world_A_transcoded,
      Ok (streamer.VideoInfo
            (streamer.mkVideoStreamInfo "vid" "movie" 0%float "transcoding" formats
               "https://store/videos/vid/hls/master.m3u8?expires=86400000000000"
               ""
               (sql.select_streams "vid" (db world_A_transcoded)) 1000))))
  ∧ 1 * time.Hour < 24 * time.Hour.
Proof.
  apply (video_detail_masters "vid" world_A_transcoded
           (Video.mk "vid" "movie" "movie.mp4" "uploads/vid/vid.mp4" "transcoding"
              0%float 15728640 "video/mp4" 1000 1000)).
  - reflexivity.
  - reflexivity.
Defined.

(** C6 as stated fails if the key that is signed is the rendition's: after
    the stages of scenario A the 1920x1080 rendition has the object key
    [videos/vid/hls/vid_v0.m3u8], the master URL of the detail response is
    the signature of [videos/vid/hls/master.m3u8], and the signature of the
    rendition's key is another URL. *)
Lemma video_detail_masters_counterexample :
  ∃ info rendition,
    snd (streamer.GetVideoInfo "vid" world_A_transcoded) = Ok (streamer.VideoInfo info)
    ∧ rendition ∈ streamer.Streams info
    ∧ VideoStream.Format rendition = "hls"
    ∧ VideoStream.Resolution rendition = "1920x1080"
    ∧ VideoStream.Path rendition = "videos/vid/hls/vid_v0.m3u8"
    ∧ streamer.HLSMaster info
      = "https://store/videos/vid/hls/master.m3u8?expires=86400000000000"
    ∧ presign (env world_A_transcoded) (VideoStream.Path rendition) (24 * time.Hour)
      = Ok "https://store/videos/vid/hls/vid_v0.m3u8?expires=86400000000000"
    ∧ presign (env world_A_transcoded) (VideoStream.Path rendition) (24 * time.Hour)
      ≠ Ok (streamer.HLSMaster info).
Proof.
  eexists _, (VideoStream.mk "vid-v0" "vid" "1920x1080" "5000k" "hls"
                "videos/vid/hls/vid_v0.m3u8" 0 10 1000).
  split; [vm_compute; reflexivity|].
  split; [vm_compute; left|].
  repeat split; try (vm_compute; reflexivity).
  vm_compute. discriminate.
Qed.

(** ** Listing *)

(** The rows of [videos] as a listing orders them before it cuts its
    page. *)
Lemma listing_order rank rows :
  merge_sort sql.created_desc (merge_sort (sql.met_by rank) rows) ≡ₚ rows
  ∧ Sorted sql.created_desc
      (merge_sort sql.created_desc (merge_sort (sql.met_by rank) rows)).
Proof.
  split; [by rewrite !merge_sort_Permutation | apply (Sorted_merge_sort _)].
Qed.

Lemma select_videos_page_ok rank limit offset d :
  (0 ≤ limit)%Z → (0 ≤ offset)%Z →
  sql.select_videos_page rank limit offset d
  = Ok (take (Z.to_nat limit)
          (drop (Z.to_nat offset)
             (merge_sort sql.created_desc
                (merge_sort (sql.met_by rank) (sql.videos d))))).
Proof.
  intros Hl Ho. unfold sql.select_videos_page.
  destruct (decide (limit < 0)); [lia|].
  destruct (decide (offset < 0)); [lia|]. reflexivity.
Qed.

Lemma ListVideos_reachable limit offset w :
  reachable w →
  database.ListVideos limit offset w =
  (w, Ok (match sql.select_videos_page (tie_rank (env w) limit offset)
                  limit offset (db w) with
          | Ok videos => videos
          | Err _ => []
          end)).
Proof.
  intros Hw. unfold database.ListVideos, bind.
  rewrite wrap_external_reachable by done. unfold ask, query.
  by rewrite scan_rows_reachable.
Qed.

Lemma query_int_absent e def : streamer.query_int e "" def = def.
Proof. reflexivity. Qed.

Lemma query_int_scanned e q def n :
  q ≠ "" → Sscanf_d e q = Some n → streamer.query_int e q def = n.
Proof.
  intros Hq Hn. unfold streamer.query_int.
  rewrite decide_False by done. by rewrite Hn.
Qed.

Lemma streamer_ListVideos_eq limit_q offset_q w :
  reachable w →
  (0 ≤ streamer.query_int (env w) limit_q 10)%Z →
  (0 ≤ streamer.query_int (env w) offset_q 0)%Z →
  streamer.ListVideos limit_q offset_q w =
  (w, Ok (streamer.VideoList
            (take (Z.to_nat (streamer.query_int (env w) limit_q 10))
               (drop (Z.to_nat (streamer.query_int (env w) offset_q 0))
                  (merge_sort sql.created_desc
                     (merge_sort
                        (sql.met_by
                           (tie_rank (env w)
                              (streamer.query_int (env w) limit_q 10)
                              (streamer.query_int (env w) offset_q 0)))
                        (sql.videos (db w))))))
            (streamer.query_int (env w) limit_q 10)
            (streamer.query_int (env w) offset_q 0))).
Proof.
  intros Hw Hl Ho. unfold streamer.ListVideos, bind at 1, ask.
  unfold bind, attempt. rewrite ListVideos_reachable by done.
  by rewrite select_videos_page_ok.
Qed.

(** C8. With the catalog answering, the listing answers with the videos
    ordered by creation time, newest first (the order among videos created
    at the same time is not fixed), cut to the page: the [offset] first
    are left out and at most [limit] follow, [limit] and [offset] being the
    numbers the caller supplied in the query, whatever their size, and 10
    and 0 when the caller supplied none; the response repeats them. On an
    empty catalog the answer is the empty list, with the pagination, and
    no error. *)
Theorem ListVideos_page (limit_q offset_q : string) (limit offset : Z) (w : World) :
  reachable w →
  limit_q ≠ "" → Sscanf_d (env w) limit_q = Some limit →
  offset_q ≠ "" → Sscanf_d (env w) offset_q = Some offset →
  (0 ≤ limit)%Z → (0 ≤ offset)%Z →
  (∃ sorted,
     sorted ≡ₚ sql.videos (db w)
     ∧ Sorted sql.created_desc sorted
     ∧ streamer.ListVideos limit_q offset_q w =
       (w, Ok (streamer.VideoList
                 (take (Z.to_nat limit) (drop (Z.to_nat offset) sorted))
                 limit offset)))
  ∧ (∃ sorted,
       sorted ≡ₚ sql.videos (db w)
       ∧ Sorted sql.created_desc sorted
       ∧ streamer.ListVideos "" "" w =
         (w, Ok (streamer.VideoList (take 10 sorted) 10 0)))
  ∧ (sql.videos (db w) = [] →
     streamer.ListVideos limit_q offset_q w
     = (w, Ok (streamer.VideoList [] limit offset))
     ∧ streamer.ListVideos "" "" w = (w, Ok (streamer.VideoList [] 10 0))).
Proof.
  intros Hw Hlq Hl Hoq Ho Hl0 Ho0.
  pose proof (query_int_scanned (env w) limit_q 10 limit Hlq Hl) as El.
  pose proof (query_int_scanned (env w) offset_q 0 offset Hoq Ho) as Eo.
  assert (streamer.ListVideos limit_q offset_q w =
          (w, Ok (streamer.VideoList
                    (take (Z.to_nat limit)
                       (drop (Z.to_nat offset)
                          (merge_sort sql.created_desc
                             (merge_sort (sql.met_by (tie_rank (env w) limit offset))
                                (sql.videos (db w))))))
                    limit offset))) as Hpage.
  { rewrite streamer_ListVideos_eq by (done || rewrite ?El, ?Eo; done).
    by rewrite El, Eo. }
  assert (streamer.ListVideos "" "" w =
          (w, Ok (streamer.VideoList
                    (take 10
                       (merge_sort sql.created_desc
                          (merge_sort (sql.met_by (tie_rank (env w) 10 0))
                             (sql.videos (db w)))))
                    10 0))) as Hdef.
  { rewrite streamer_ListVideos_eq by (done || rewrite !query_int_absent; lia).
    by rewrite !query_int_absent. }
  split; [|split].
  - eexists. destruct (listing_order (tie_rank (env w) limit offset)
                         (sql.videos (db w))) as [Hp Hs]. eauto.
  - eexists. destruct (listing_order (tie_rank (env w) 10 0)
                         (sql.videos (db w))) as [Hp Hs]. eauto.
  - intros Hempty. rewrite Hpage, Hdef, Hempty. split; [|reflexivity].
    change (merge_sort sql.created_desc (merge_sort _ [])) with (@nil Video.t).
    by rewrite drop_nil, take_nil.
Qed.

Lemma ListVideos_page_witness :
  (∃ sorted,
     sorted ≡ₚ sql.videos (db world_C)
     ∧ Sorted sql.created_desc sorted
     ∧ streamer.ListVideos "2" "1" world_C =
       (world_C, Ok (streamer.VideoList
                       (take (Z.to_nat 2) (drop (Z.to_nat 1) sorted)) 2 1)))
  ∧ (∃ sorted,
       sorted ≡ₚ sql.videos (db world_C)
       ∧ Sorted sql.created_desc sorted
       ∧ streamer.ListVideos "" "" world_C =
         (world_C, Ok (streamer.VideoList (take 10 sorted) 10 0)))
  ∧ (sql.videos (db world_C) = [] →
     streamer.ListVideos "2" "1" world_C
     = (world_C, Ok (streamer.VideoList [] 2 1))
     ∧ streamer.ListVideos "" "" world_C
       = (world_C, Ok (streamer.VideoList [] 10 0))).
Proof.
  apply (ListVideos_page "2" "1" 2 1 world_C).
  - reflexivity.
  - discriminate.
  - reflexivity.
  - discriminate.
  - reflexivity.
  - lia.
  - lia.
Defined.

(** Among videos created at the same time the order is the execution's:
    in the catalog of scenario C, [b] and [c] come in either order. *)
Example ties_follow_the_execution :
  sql.select_videos_page (λ _, 0) 10 0 (db world_C)
  = Ok [video_C "b" 3000; video_C "c" 3000; video_C "d" 2000; video_C "a" 1000]
  ∧ sql.select_videos_page
      (λ v, if decide (Video.ID v = "c") then 0 else 1) 10 0 (db world_C)
    = Ok [video_C "c" 3000; video_C "b" 3000; video_C "d" 2000;
          video_C "a" 1000].
Proof. split; vm_compute; reflexivity. Qed.

(** ** The catalog writes *)

Lemma UpdateVideoStatus_cases videoID status w :
  (snd (database.UpdateVideoStatus videoID status w) = Ok tt
   ∧ db (fst (database.UpdateVideoStatus videoID status w))
     = sql.update_status status videoID (clock w) (db w)
   ∧ history (fst (database.UpdateVideoStatus videoID status w))
     = db w :: history w)
  ∨ ((∃ e, snd (database.UpdateVideoStatus videoID status w) = Err e)
     ∧ db (fst (database.UpdateVideoStatus videoID status w)) = db w
     ∧ history (fst (database.UpdateVideoStatus videoID status w)) = history w).
Proof.
  unfold database.UpdateVideoStatus, wrap, bind, external, Now, commit.
  destruct (faults w) as [|[e|] q]; simpl; eauto.
Qed.

Lemma UpdateVideoStatus_env videoID status w :
  env (fst (database.UpdateVideoStatus videoID status w)) = env w.
Proof.
  unfold database.UpdateVideoStatus, wrap, bind, external, Now, commit.
  destruct (faults w) as [|[e|] q]; reflexivity.
Qed.

Lemma UpdateVideoStatus_reachable videoID status w :
  reachable w →
  database.UpdateVideoStatus videoID status w =
  (mkWorld (sql.update_status status videoID (clock w) (db w))
     (db w :: history w) [] (clock w + 1) (commands w) (env w), Ok tt).
Proof.
  unfold reachable, database.UpdateVideoStatus, wrap, bind, external, Now, commit.
  destruct w as [d h q c cs e]. simpl. intros ->. reflexivity.
Qed.

Lemma update_status_durations status videoID now d :
  map Video.Duration (sql.videos (sql.update_status status videoID now d))
  = map Video.Duration (sql.videos d).
Proof.
  unfold sql.update_status. simpl. rewrite map_map. apply map_ext.
  intros r. by destruct (decide (Video.ID r = videoID)).
Qed.

Lemma update_status_streams status videoID now d :
  sql.video_streams (sql.update_status status videoID now d) = sql.video_streams d.
Proof. reflexivity. Qed.

Lemma select_update_status status videoID now d id :
  sql.select_video id (sql.update_status status videoID now d)
  = (λ r, if decide (Video.ID r = videoID) then sql.set_status status now r else r)
      <$> sql.select_video id d.
Proof.
  unfold sql.select_video, sql.update_status. simpl.
  induction (sql.videos d) as [|r l IH]; [reflexivity|]. simpl.
  assert (Video.ID (if decide (Video.ID r = videoID)
                    then sql.set_status status now r else r) = Video.ID r) as ->
    by (by destruct (decide (Video.ID r = videoID))).
  destruct (bool_decide (Video.ID r = id)); [reflexivity | apply IH].
Qed.

Lemma select_video_ID id d r : sql.select_video id d = Some r → Video.ID r = id.
Proof.
  unfold sql.select_video. intros H. apply find_some in H as [_ H].
  by apply bool_decide_eq_true_1 in H.
Qed.

(** ** The probe *)

Lemma GetMediaInfo_eq f inputFile w :
  ffmpeg.GetMediaInfo f inputFile w =
  (fst (run_command (ffmpeg.BinaryPath f) ["-i"; inputFile; "-hide_banner"] w), Ok ∅).
Proof.
  unfold ffmpeg.GetMediaInfo, bind, attempt, ask, ret.
  by destruct (run_command _ _ w).
Qed.

Lemma run_command_db name args w :
  db (fst (run_command name args w)) = db w
  ∧ history (fst (run_command name args w)) = history w
  ∧ env (fst (run_command name args w)) = env w
  ∧ clock (fst (run_command name args w)) = clock w.
Proof.
  unfold run_command, external. simpl.
  by destruct (faults w) as [|o q].
Qed.

Lemma ExtractMetadataActivity_eq deps download w :
  transcoder.ExtractMetadataActivity deps download w =
  (ffmpeg.GetMediaInfo (transcoder.FFmpeg deps) (transcoder.LocalPath download) ;;;
   database.UpdateVideoStatus (transcoder.dl_VideoID download) "analyzing" ;;;
   ret (transcoder.mkMetadataResult (transcoder.dl_VideoID download) 0%float)) w.
Proof.
  unfold transcoder.ExtractMetadataActivity, bind.
  rewrite GetMediaInfo_eq. unfold ask. rewrite lookup_empty. reflexivity.
Qed.

(** C10. Whatever the file and whatever the tool prints, [GetMediaInfo]
    returns the empty map and no error; the metadata stage is therefore
    the probe followed by the status write and the report of duration 0,
    and with the catalog answering it succeeds with that report. *)
Theorem GetMediaInfo_reports_nothing (deps : transcoder.ActivityDependencies)
    (download : transcoder.DownloadResult) (f : ffmpeg.FFmpeg)
    (inputFile : string) (w : World) :
  snd (ffmpeg.GetMediaInfo f inputFile w) = Ok ∅
  ∧ transcoder.ExtractMetadataActivity deps download w =
    (ffmpeg.GetMediaInfo (transcoder.FFmpeg deps) (transcoder.LocalPath download) ;;;
     database.UpdateVideoStatus (transcoder.dl_VideoID download) "analyzing" ;;;
     ret (transcoder.mkMetadataResult (transcoder.dl_VideoID download) 0%float)) w
  ∧ (reachable w →
     snd (transcoder.ExtractMetadataActivity deps download w)
     = Ok (transcoder.mkMetadataResult (transcoder.dl_VideoID download) 0%float)).
Proof.
  split; [by rewrite GetMediaInfo_eq|].
  split; [apply ExtractMetadataActivity_eq|].
  intros Hw. rewrite ExtractMetadataActivity_eq. unfold bind.
  rewrite GetMediaInfo_eq.
  unfold run_command. rewrite external_reachable by exact Hw. cbn [fst].
  rewrite UpdateVideoStatus_reachable by exact Hw. reflexivity.
Qed.

Lemma GetMediaInfo_reports_nothing_witness :
  snd (ffmpeg.GetMediaInfo (transcoder.FFmpeg deps_A) "/tmp/transcode-vid4021/vid.mp4"
         world_A_downloaded) = Ok ∅
  ∧ transcoder.ExtractMetadataActivity deps_A download_A world_A_downloaded =
    (ffmpeg.GetMediaInfo (transcoder.FFmpeg deps_A) (transcoder.LocalPath download_A) ;;;
     database.UpdateVideoStatus (transcoder.dl_VideoID download_A) "analyzing" ;;;
     ret (transcoder.mkMetadataResult (transcoder.dl_VideoID download_A) 0%float))
      world_A_downloaded
  ∧ (reachable world_A_downloaded →
     snd (transcoder.ExtractMetadataActivity deps_A download_A world_A_downloaded)
     = Ok (transcoder.mkMetadataResult (transcoder.dl_VideoID download_A) 0%float)).
Proof.
  apply (GetMediaInfo_reports_nothing deps_A download_A (transcoder.FFmpeg deps_A)
           "/tmp/transcode-vid4021/vid.mp4" world_A_downloaded).
Defined.

(** C4 (as amended). A successful Analyze stage reports a duration (it is
    0) and moves the processing state of its video to [analyzing]; it
    writes no duration: the catalog it leaves is the one it found with
    that one status update, the durations of all rows are the ones they
    had, and the renditions are untouched. *)
Theorem probe_leaves_duration (deps : transcoder.ActivityDependencies)
    (download : transcoder.DownloadResult) (w w' : World)
    (r : transcoder.MetadataResult) :
  transcoder.ExtractMetadataActivity deps download w = (w', Ok r) →
  (∃ now, db w' = sql.update_status "analyzing" (transcoder.dl_VideoID download)
                    now (db w))
  ∧ map Video.Duration (sql.videos (db w')) = map Video.Duration (sql.videos (db w))
  ∧ (Video.Duration <$> sql.select_video (transcoder.dl_VideoID download) (db w'))
    = (Video.Duration <$> sql.select_video (transcoder.dl_VideoID download) (db w))
  ∧ (∀ video, sql.select_video (transcoder.dl_VideoID download) (db w) = Some video →
       Video.ProcessingState
         <$> sql.select_video (transcoder.dl_VideoID download) (db w')
       = Some "analyzing")
  ∧ sql.video_streams (db w') = sql.video_streams (db w)
  ∧ transcoder.Duration r = 0%float.
Proof.
  rewrite ExtractMetadataActivity_eq. unfold bind. rewrite GetMediaInfo_eq.
  set (w1 := fst (run_command _ _ w)).
  destruct (run_command_db (ffmpeg.BinaryPath (transcoder.FFmpeg deps))
              ["-i"; transcoder.LocalPath download; "-hide_banner"] w)
    as (Hdb & _ & _ & _). fold w1 in Hdb.
  destruct (UpdateVideoStatus_cases (transcoder.dl_VideoID download) "analyzing" w1)
    as [(Hr & Hd & _)|([e He] & _ & _)];
    destruct (database.UpdateVideoStatus _ _ w1) as [w2 r2]; simpl in *;
    subst r2; [|discriminate].
  unfold ret. intros [= <- <-]. rewrite Hd, Hdb.
  split; [by eexists|].
  split; [apply update_status_durations|].
  split.
  { rewrite select_update_status.
    destruct (sql.select_video _ (db w)) as [v|]; [|reflexivity]. simpl.
    by destruct (decide (Video.ID v = transcoder.dl_VideoID download)). }
  split; [|done].
  intros video Hv. rewrite select_update_status, Hv. simpl.
  rewrite decide_True by (by eapply select_video_ID). reflexivity.
Qed.

Lemma probe_leaves_duration_witness :
  (∃ now, db (fst (transcoder.ExtractMetadataActivity deps_A download_A
                     world_A_downloaded))
          = sql.update_status "analyzing" (transcoder.dl_VideoID download_A)
              now (db world_A_downloaded))
  ∧ map Video.Duration
      (sql.videos (db (fst (transcoder.ExtractMetadataActivity deps_A download_A
                              world_A_downloaded))))
    = map Video.Duration (sql.videos (db world_A_downloaded))
  ∧ (Video.Duration
       <$> sql.select_video (transcoder.dl_VideoID download_A)
             (db (fst (transcoder.ExtractMetadataActivity deps_A download_A
                         world_A_downloaded))))
    = (Video.Duration
         <$> sql.select_video (transcoder.dl_VideoID download_A)
               (db world_A_downloaded))
  ∧ (∀ video,
       sql.select_video (transcoder.dl_VideoID download_A) (db world_A_downloaded)
       = Some video →
       Video.ProcessingState
         <$> sql.select_video (transcoder.dl_VideoID download_A)
               (db (fst (transcoder.ExtractMetadataActivity deps_A download_A
                           world_A_downloaded)))
       = Some "analyzing")
  ∧ sql.video_streams
      (db (fst (transcoder.ExtractMetadataActivity deps_A download_A
                  world_A_downloaded)))
    = sql.video_streams (db world_A_downloaded)
  ∧ transcoder.Duration (transcoder.mkMetadataResult "vid" 0%float) = 0%float.
Proof.
  apply (probe_leaves_duration deps_A download_A world_A_downloaded
           (fst (transcoder.ExtractMetadataActivity deps_A download_A
                   world_A_downloaded))
           (transcoder.mkMetadataResult "vid" 0%float)).
  vm_compute. reflexivity.
Defined.

(** C4 as stated fails. In scenario A the tool prints a duration of two
    minutes; after the Download stage the row holds the default duration 0,
    the Analyze stage succeeds, and the row still holds the default 0. *)
Lemma probe_leaves_duration_counterexample :
  snd (transcoder.DownloadVideoActivity params_A world_A) = Ok download_A
  ∧ tool_stderr (env world_A_downloaded)
    = "  Duration: 00:02:00.50, start: 0.000000, bitrate: 1048 kb/s"
  ∧ snd (transcoder.ExtractMetadataActivity deps_A download_A world_A_downloaded)
    = Ok (transcoder.mkMetadataResult "vid" 0%float)
  ∧ (Video.Duration
       <$> sql.select_video "vid"
             (db (fst (transcoder.ExtractMetadataActivity deps_A download_A
                         world_A_downloaded))))
    = Some 0%float
  ∧ (Video.ProcessingState
       <$> sql.select_video "vid"
             (db (fst (transcoder.ExtractMetadataActivity deps_A download_A
                         world_A_downloaded))))
    = Some "analyzing".
Proof. repeat split; vm_compute; reflexivity. Qed.

(** ** Steps that keep the surroundings *)

Lemma bind_ok_inv {A B} (m : M A) (k : A → M B) w w' b :
  bind m k w = (w', Ok b) → ∃ w1 a, m w = (w1, Ok a) ∧ k a w1 = (w', Ok b).
Proof.
  unfold bind. destruct (m w) as [w1 [a|e]]; [eauto | discriminate].
Qed.

Lemma wrap_ok_inv {A} prefix (m : M A) w w' a :
  wrap prefix m w = (w', Ok a) → m w = (w', Ok a).
Proof.
  unfold wrap. destruct (m w) as [w1 [a1|e]]; [by intros [= -> ->] | discriminate].
Qed.

Lemma keeps_env_ret {A} (a : A) : keeps_env (ret a).
Proof. by intros w. Qed.

Lemma keeps_env_fail {A} e : keeps_env (@fail A e).
Proof. by intros w. Qed.

Lemma keeps_env_lift {A} (r : result A) : keeps_env (lift r).
Proof. by intros w. Qed.

Lemma keeps_env_ask : keeps_env ask.
Proof. by intros w. Qed.

Lemma keeps_env_query {A} (q : sql.DB → A) : keeps_env (query q).
Proof. by intros w. Qed.

Lemma keeps_env_Now : keeps_env Now.
Proof. by intros w. Qed.

Lemma keeps_env_external : keeps_env external.
Proof. intros w. unfold external. by destruct (faults w). Qed.

Lemma keeps_env_commit stmt : keeps_env (commit stmt).
Proof. intros w. unfold commit. by destruct (stmt (db w)). Qed.

Lemma keeps_env_run_command name args : keeps_env (run_command name args).
Proof. intros w. apply run_command_db. Qed.

Lemma keeps_env_bind {A B} (m : M A) (k : A → M B) :
  keeps_env m → (∀ a, keeps_env (k a)) → keeps_env (bind m k).
Proof.
  intros Hm Hk w. unfold bind. specialize (Hm w).
  destruct (m w) as [w1 [a|e]]; simpl in *; [|done].
  by rewrite Hk.
Qed.

Lemma keeps_env_attempt {A} (m : M A) : keeps_env m → keeps_env (attempt m).
Proof. intros Hm w. unfold attempt. specialize (Hm w). by destruct (m w). Qed.

Lemma keeps_env_wrap {A} prefix (m : M A) : keeps_env m → keeps_env (wrap prefix m).
Proof.
  intros Hm w. unfold wrap. specialize (Hm w). by destruct (m w) as [w1 [a|e]].
Qed.

Create HintDb keeps discriminated.
#[local] Hint Resolve keeps_env_ret keeps_env_fail keeps_env_lift keeps_env_ask
  keeps_env_query keeps_env_Now keeps_env_external keeps_env_commit
  keeps_env_run_command keeps_env_attempt keeps_env_wrap : keeps.

Ltac keeps :=
  repeat first
    [ apply keeps_env_bind
    | apply keeps_env_wrap
    | apply keeps_env_attempt
    | solve [auto with keeps]
    | match goal with |- ∀ _, _ => intros ? end
    | match goal with |- keeps_env (match ?x with _ => _ end) => destruct x end ].

Lemma keeps_env_UpdateVideoStatus videoID status :
  keeps_env (database.UpdateVideoStatus videoID status).
Proof. unfold database.UpdateVideoStatus. keeps. Qed.

Lemma keeps_env_GetVideo videoID : keeps_env (database.GetVideo videoID).
Proof. unfold database.GetVideo. keeps. Qed.

Lemma keeps_env_MkdirTemp pattern : keeps_env (transcoder.MkdirTemp pattern).
Proof. unfold transcoder.MkdirTemp. keeps. Qed.

(** ** The manifest text *)

Lemma string_app_assoc (a b c : string) : (a +:+ b) +:+ c = a +:+ b +:+ c.
Proof. induction a as [|x a IH]; simpl; [reflexivity | by rewrite IH]. Qed.

Lemma single_line_app (a b : string) :
  single_line (a +:+ b) = single_line a && single_line b.
Proof.
  induction a as [|x a IH]; simpl; [reflexivity|].
  rewrite IH. by rewrite andb_assoc.
Qed.

Lemma manifest_lines_cons (a rest : string) :
  single_line a = true →
  manifest_lines (a +:+ String line_feed rest) = a :: manifest_lines rest.
Proof.
  induction a as [|x a IH]; simpl.
  - intros _. reflexivity.
  - intros [Hx Ha]%andb_prop. apply negb_true_iff, bool_decide_eq_false_1 in Hx.
    rewrite decide_False by done. by rewrite IH.
Qed.

Lemma manifest_lines_line (a rest : string) :
  single_line a = true →
  manifest_lines (a +:+ ffmpeg.nl +:+ rest) = a :: manifest_lines rest.
Proof. apply manifest_lines_cons. Qed.

Lemma pretty_N_char_line x : pretty_N_char x ≠ line_feed.
Proof. unfold pretty_N_char. by repeat case_match. Qed.

Lemma single_line_pretty_N_go x : ∀ s,
  single_line s = true → single_line (pretty_N_go x s) = true.
Proof.
  induction (N.lt_wf_0 x) as [x _ IH]. intros s Hs.
  destruct (decide (x = 0)%N) as [->|Hx].
  - by rewrite pretty_N_go_0.
  - rewrite pretty_N_go_step by lia. apply IH.
    + apply N.div_lt; lia.
    + simpl. rewrite Hs, andb_true_r. apply negb_true_iff, bool_decide_eq_false_2.
      apply pretty_N_char_line.
Qed.

Lemma single_line_pretty_N (x : N) : single_line (pretty x) = true.
Proof.
  unfold pretty, pretty_N. destruct (decide (x = 0)%N); [reflexivity|].
  by apply single_line_pretty_N_go.
Qed.

Lemma single_line_fmt_d (n : Z) : single_line (fmt.d n) = true.
Proof.
  unfold fmt.d, pretty, pretty_Z. destruct n as [|p|p].
  - reflexivity.
  - apply (single_line_pretty_N (N.pos p)).
  - rewrite single_line_app. simpl. apply (single_line_pretty_N (N.pos p)).
Qed.

Lemma single_line_stream_inf res :
  single_line (Resolution.Bitrate res) = true →
  single_line (ffmpeg.stream_inf res) = true.
Proof.
  intros Hb. unfold ffmpeg.stream_inf, ffmpeg.resolution_label, fmt.d_string.
  rewrite !single_line_app, Hb, !single_line_fmt_d. reflexivity.
Qed.

Lemma single_line_playlistFile seg i :
  single_line seg = true → single_line (ffmpeg.playlistFile seg i) = true.
Proof.
  intros Hs. unfold ffmpeg.playlistFile, ffmpeg.variantName.
  rewrite !single_line_app, Hs, single_line_fmt_d. reflexivity.
Qed.

Lemma variants_content_app f outputDir seg l : ∀ i args content,
  snd (ffmpeg.variants f outputDir seg i l args content)
  = content +:+ snd (ffmpeg.variants f outputDir seg i l [] "").
Proof.
  induction l as [|res rest IH]; intros i args content.
  - simpl. induction content as [|x c IHc]; simpl; [reflexivity | by rewrite <- IHc].
  - cbn [ffmpeg.variants].
    rewrite (IH (i + 1) ([] ++ _)%list ("" +:+ _)).
    rewrite (IH (i + 1) (args ++ _)%list (content +:+ _)).
    rewrite !string_app_assoc. reflexivity.
Qed.

Lemma variants_entries f outputDir seg l : ∀ i,
  single_line seg = true →
  forallb (λ res, single_line (Resolution.Bitrate res)) l = true →
  stream_inf_entries
    (manifest_lines (snd (ffmpeg.variants f outputDir seg i l [] "")))
  = imap (λ k res, (ffmpeg.stream_inf res,
                    ffmpeg.playlistFile seg (i + Z.of_nat k))) l.
Proof.
  induction l as [|res rest IH]; intros i Hseg Hl; [reflexivity|].
  simpl in Hl. apply andb_prop in Hl as [Hres Hrest].
  cbn [ffmpeg.variants]. rewrite variants_content_app.
  rewrite !string_app_assoc.
  change ("" +:+ ?x) with x.
  rewrite manifest_lines_line by (by apply single_line_stream_inf).
  rewrite manifest_lines_line by (by apply single_line_playlistFile).
  cbn [stream_inf_entries].
  assert (strings_go.HasPrefix (ffmpeg.stream_inf res) "#EXT-X-STREAM-INF:" = true)
    as -> by reflexivity.
  rewrite IH by done. rewrite imap_cons. f_equal.
  - by rewrite Z.add_0_r.
  - apply imap_ext. intros k r _. simpl. do 2 f_equal. lia.
Qed.

Lemma master_manifest_entries f outputDir seg l :
  single_line seg = true →
  forallb (λ res, single_line (Resolution.Bitrate res)) l = true →
  stream_inf_entries
    (manifest_lines (ffmpeg.masterPlaylistContent f outputDir seg l))
  = imap (λ k res, (ffmpeg.stream_inf res,
                    ffmpeg.playlistFile seg (Z.of_nat k))) l.
Proof.
  intros Hseg Hl. unfold ffmpeg.masterPlaylistContent.
  rewrite variants_content_app. rewrite !string_app_assoc.
  rewrite (manifest_lines_line "#EXTM3U") by reflexivity.
  rewrite (manifest_lines_line "#EXT-X-VERSION:3") by reflexivity.
  cbn [stream_inf_entries].
  assert (strings_go.HasPrefix "#EXTM3U" "#EXT-X-STREAM-INF:" = false)
    as -> by reflexivity.
  assert (strings_go.HasPrefix "#EXT-X-VERSION:3" "#EXT-X-STREAM-INF:" = false)
    as -> by reflexivity.
  by rewrite variants_entries.
Qed.

(** ** The descriptors of the Transcode stage *)

Lemma record_streams_ok params l : ∀ i acc w w' streams,
  transcoder.record_streams params i l acc w = (w', Ok streams) →
  streams = (acc ++ imap (λ k res,
                      transcoder.mkStreamInfo (ffmpeg.resolution_label res)
                        (Resolution.Bitrate res) "hls"
                        (transcoder.streamPath params (i + Z.of_nat k)) 0 10) l)%list.
Proof.
  induction l as [|res rest IH]; intros i acc w w' streams.
  - cbn [transcoder.record_streams]. unfold ret. intros [= _ <-].
    by rewrite imap_nil, app_nil_r.
  - cbn [transcoder.record_streams].
    intros (w1 & now & _ & H)%bind_ok_inv.
    apply bind_ok_inv in H as (w2 & [] & _ & H).
    apply IH in H as ->. rewrite imap_cons, <- app_assoc. cbn [app].
    rewrite Z.add_0_r. do 2 f_equal.
    apply imap_ext. intros k r _. simpl. do 2 f_equal. lia.
Qed.

Lemma TranscodeVideoActivity_streams deps params w w' r ladder :
  transcoder.TranscodeVideoActivity deps params w = (w', Ok r) →
  ladder_config (env w) = Ok ladder →
  transcoder.Streams r = imap (descriptor params) ladder.
Proof.
  unfold transcoder.TranscodeVideoActivity.
  intros (w1 & video & H1 & H)%bind_ok_inv Hladder.
  apply bind_ok_inv in H as (w2 & [] & H2 & H).
  apply bind_ok_inv in H as (w3 & outputDir & H3 & H).
  apply bind_ok_inv in H as (w4 & e & H4 & H).
  apply bind_ok_inv in H as (w5 & resolutions & H5 & H).
  apply bind_ok_inv in H as (w6 & [] & _ & H).
  apply bind_ok_inv in H as (w7 & streams & H7 & H).
  unfold ret in H. injection H as _ <-. cbn [transcoder.Streams].
  apply record_streams_ok in H7 as ->. cbn [app].
  assert (resolutions = ladder) as ->.
  { unfold ask in H4. injection H4 as <- <-. unfold lift in H5.
    injection H5 as _ H5.
    pose proof (keeps_env_GetVideo (transcoder.VideoID params) w) as E1.
    pose proof (keeps_env_UpdateVideoStatus (transcoder.VideoID params)
                  "transcoding" w1) as E2.
    pose proof (keeps_env_MkdirTemp ("output-" +:+ transcoder.VideoID params) w2)
      as E3.
    rewrite H1 in E1. rewrite H2 in E2. rewrite H3 in E3. simpl in E1, E2, E3.
    rewrite E3, E2, E1, Hladder in H5. by injection H5. }
  apply imap_ext. intros k res _. unfold descriptor. by rewrite Z.add_0_l.
Qed.

(** C3 (as amended). A successful Transcode stage on a ladder of N entries
    reports exactly N descriptors, in ladder order, each with the
    resolution label, bitrate, format [hls] and playlist key of its entry.
    The text the stage builds for the master manifest (a local: the stage
    neither writes nor returns it) lists, for a video id and bitrates
    without line feeds, exactly N [STREAM-INF] entries in ladder order,
    each with the resolution of its variant and the name of that variant's
    playlist. *)
Theorem transcode_stage_outputs (deps : transcoder.ActivityDependencies)
    (params : transcoder.TranscodeParams) (w w' : World)
    (r : transcoder.TranscodeResult) (ladder : list Resolution.t) :
  transcoder.TranscodeVideoActivity deps params w = (w', Ok r) →
  ladder_config (env w) = Ok ladder →
  single_line (transcoder.VideoID params) = true →
  forallb (λ res, single_line (Resolution.Bitrate res)) ladder = true →
  transcoder.Streams r = imap (descriptor params) ladder
  ∧ length (transcoder.Streams r) = length ladder
  ∧ length (stream_inf_entries
              (manifest_lines
                 (ffmpeg.masterPlaylistContent (transcoder.FFmpeg deps)
                    (transcoder.OutputDirectory r) (transcoder.VideoID params)
                    ladder)))
    = length ladder
  ∧ ∀ i res, ladder !! i = Some res →
      ∃ entry,
        stream_inf_entries
          (manifest_lines
             (ffmpeg.masterPlaylistContent (transcoder.FFmpeg deps)
                (transcoder.OutputDirectory r) (transcoder.VideoID params)
                ladder)) !! i = Some entry
        ∧ variant_entry (transcoder.VideoID params) i res entry.
Proof.
  intros Hrun Hladder Hid Hrates.
  pose proof (TranscodeVideoActivity_streams _ _ _ _ _ _ Hrun Hladder) as Hs.
  split; [exact Hs|].
  split; [by rewrite Hs, length_imap|].
  rewrite master_manifest_entries by done.
  split; [by rewrite length_imap|].
  intros i res Hi. eexists. split.
  - rewrite list_lookup_imap, Hi. reflexivity.
  - split; [|reflexivity]. eexists. reflexivity.
Qed.

Lemma transcode_stage_outputs_witness :
  transcoder.Streams result_A = imap (descriptor params_A) ladder_A
  ∧ length (transcoder.Streams result_A) = length ladder_A
  ∧ length (stream_inf_entries
              (manifest_lines
                 (ffmpeg.masterPlaylistContent (transcoder.FFmpeg deps_A)
                    (transcoder.OutputDirectory result_A)
                    (transcoder.VideoID params_A) ladder_A)))
    = length ladder_A
  ∧ ∀ i res, ladder_A !! i = Some res →
      ∃ entry,
        stream_inf_entries
          (manifest_lines
             (ffmpeg.masterPlaylistContent (transcoder.FFmpeg deps_A)
                (transcoder.OutputDirectory result_A)
                (transcoder.VideoID params_A) ladder_A)) !! i = Some entry
        ∧ variant_entry (transcoder.VideoID params_A) i res entry.
Proof.
  apply (transcode_stage_outputs deps_A params_A world_A_analyzed
           (fst (transcoder.TranscodeVideoActivity deps_A params_A world_A_analyzed))
           result_A ladder_A).
  - vm_compute. reflexivity.
  - reflexivity.
  - reflexivity.
  - reflexivity.
Defined.

(** C3 as stated fails. In scenario A the Transcode stage succeeds; the
    manifest text it builds has, where the specification puts the bitrate
    of the variant, the bad-verb form that [%d] prints for a string, so
    its tag lines are not the claimed ones; and the text goes nowhere: the
    stage returns the video id, the output directory and the descriptors,
    and the one command it runs is not given the text. *)
Lemma transcode_stage_outputs_counterexample :
  snd (transcoder.TranscodeVideoActivity deps_A params_A world_A_analyzed)
    = Ok result_A
  ∧ manifest_lines
      (ffmpeg.masterPlaylistContent (transcoder.FFmpeg deps_A)
         "/tmp/output-vid4021" "vid" ladder_A)
    = ["#EXTM3U";
       "#EXT-X-VERSION:3";
       "#EXT-X-STREAM-INF:BANDWIDTH=%!d(string=5000k),RESOLUTION=1920x1080";
       "vid_v0.m3u8";
       "#EXT-X-STREAM-INF:BANDWIDTH=%!d(string=2500k),RESOLUTION=1280x720";
       "vid_v1.m3u8"]
  ∧ map claimed_stream_inf ladder_A
    = ["#EXT-X-STREAM-INF:BANDWIDTH=5000k,RESOLUTION=1920x1080";
       "#EXT-X-STREAM-INF:BANDWIDTH=2500k,RESOLUTION=1280x720"]
  ∧ map fst (stream_inf_entries
               (manifest_lines
                  (ffmpeg.masterPlaylistContent (transcoder.FFmpeg deps_A)
                     "/tmp/output-vid4021" "vid" ladder_A)))
    ≠ map claimed_stream_inf ladder_A
  ∧ (∃ args,
       commands (fst (transcoder.TranscodeVideoActivity deps_A params_A
                        world_A_analyzed))
       = (commands world_A_analyzed ++ [("ffmpeg", args)])%list
       ∧ ffmpeg.masterPlaylistContent (transcoder.FFmpeg deps_A)
           "/tmp/output-vid4021" "vid" ladder_A ∉ args).
Proof.
  split; [vm_compute; reflexivity|].
  split; [vm_compute; reflexivity|].
  split; [vm_compute; reflexivity|].
  split; [vm_compute; discriminate|].
  eexists. split; [vm_compute; reflexivity|].
  apply (bool_decide_eq_false_1 (_ ∈ _)). vm_compute. reflexivity.
Qed.

(** ** Upserts of renditions *)

Lemma updated_key kc r : sql.stream_key (updated kc r) = sql.stream_key r.
Proof. unfold updated. by destruct (decide _). Qed.

Lemma excluded_updated s r :
  sql.stream_key r = sql.stream_key s → sql.excluded s r = updated (upsert_view s) r.
Proof. intros H. unfold updated. by rewrite decide_True. Qed.

Lemma updated_other kc r : sql.stream_key r ≠ fst kc → updated kc r = r.
Proof. intros H. unfold updated. by rewrite decide_False. Qed.

Lemma updated_updated kc kc' r :
  fst kc = sql.stream_key r → updated kc (updated kc' r) = updated kc r.
Proof.
  intros H. unfold updated at 1 3. rewrite updated_key.
  rewrite !decide_True by done. unfold updated.
  by destruct (decide (sql.stream_key r = kc'.1)).
Qed.

Lemma updated_self s : updated (upsert_view s) s = s.
Proof. unfold updated. rewrite decide_True by done. by destruct s. Qed.

Lemma stored_view s : upsert_view (sql.stored s) = upsert_view s.
Proof. reflexivity. Qed.

Lemma stored_key s : sql.stream_key (sql.stored s) = sql.stream_key s.
Proof. reflexivity. Qed.

Lemma existsb_key_elem k (rows : list VideoStream.t) :
  existsb (λ r, bool_decide (sql.stream_key r = k)) rows = true
  ↔ k ∈ map sql.stream_key rows.
Proof.
  rewrite existsb_exists, list_elem_of_fmap. split.
  - intros (r & Hr%list_elem_of_In & Hk%bool_decide_eq_true_1). eauto.
  - intros (r & -> & Hr%list_elem_of_In). exists r.
    by rewrite bool_decide_eq_true_2.
Qed.

Lemma do_update_map s rows :
  NoDup (map sql.stream_key rows) →
  sql.do_update s rows = map (updated (upsert_view s)) rows.
Proof.
  induction rows as [|r rows IH]; [reflexivity|].
  cbn [map]. intros [Hr Hrows]%NoDup_cons. cbn [sql.do_update].
  destruct (decide (sql.stream_key r = sql.stream_key s)) as [Hk|Hk].
  - rewrite excluded_updated by done. f_equal.
    symmetry. rewrite <- (map_id rows) at 2. apply map_ext_in.
    intros r' Hr'. apply updated_other. cbn. intros Heq.
    apply Hr. rewrite Hk, <- Heq. apply list_elem_of_fmap.
    exists r'. split; [done | by apply list_elem_of_In].
  - rewrite (updated_other _ r) by done. by rewrite IH.
Qed.

(** An upsert whose key is in the table updates in place; otherwise it
    appends its row or is refused. *)
Lemma upsert_stream_cases s d d' :
  streams_unique d →
  sql.upsert_stream s d = Ok d' →
  sql.videos d' = sql.videos d
  ∧ ((sql.stream_key s ∈ map sql.stream_key (sql.video_streams d)
      ∧ sql.video_streams d' = map (updated (upsert_view s)) (sql.video_streams d))
     ∨ ((sql.stream_key s ∉ map sql.stream_key (sql.video_streams d))
        ∧ sql.video_streams d' = (sql.video_streams d ++ [sql.stored s])%list)).
Proof.
  intros Hu. unfold sql.upsert_stream.
  destruct (existsb _ (sql.video_streams d)) eqn:Hk.
  - intros [= <-]. split; [done|]. left. split.
    + by apply existsb_key_elem.
    + by apply do_update_map.
  - destruct (existsb (λ r, bool_decide (VideoStream.ID r = VideoStream.ID s)) _);
      [done|].
    destruct (sql.has_video _ d); [|done].
    intros [= <-]. split; [done|]. right. split; [|done].
    intros Hin%existsb_key_elem. congruence.
Qed.

Lemma upsert_stream_present s d :
  streams_unique d →
  sql.stream_key s ∈ map sql.stream_key (sql.video_streams d) →
  sql.upsert_stream s d
  = Ok (sql.mkDB (sql.videos d) (map (updated (upsert_view s)) (sql.video_streams d))).
Proof.
  intros Hu Hin. unfold sql.upsert_stream.
  apply existsb_key_elem in Hin. rewrite Hin. by rewrite do_update_map.
Qed.

Lemma map_updated_keys kc rows :
  map sql.stream_key (map (updated kc) rows) = map sql.stream_key rows.
Proof. rewrite map_map. apply map_ext. intros r. apply updated_key. Qed.

Lemma upsert_stream_unique s d d' :
  streams_unique d → sql.upsert_stream s d = Ok d' →
  streams_unique d'
  ∧ sql.stream_key s ∈ map sql.stream_key (sql.video_streams d')
  ∧ (∀ k, k ∈ map sql.stream_key (sql.video_streams d) →
          k ∈ map sql.stream_key (sql.video_streams d')).
Proof.
  intros Hu Hs. unfold streams_unique in *.
  destruct (upsert_stream_cases s d d' Hu Hs) as [_ [[Hin ->]|[Hnin ->]]].
  - rewrite map_updated_keys. auto.
  - rewrite map_app. cbn [map]. split; [|split].
    + apply NoDup_app. split; [done|]. split; [|apply NoDup_singleton].
      intros k Hk ->%list_elem_of_singleton. done.
    + apply elem_of_app. right. by apply list_elem_of_singleton.
    + intros k Hk. apply elem_of_app. by left.
Qed.

Lemma upsert_all_unique ss : ∀ d d',
  streams_unique d → upsert_all ss d = Ok d' →
  streams_unique d'
  ∧ (∀ s, s ∈ ss → sql.stream_key s ∈ map sql.stream_key (sql.video_streams d'))
  ∧ (∀ k, k ∈ map sql.stream_key (sql.video_streams d) →
          k ∈ map sql.stream_key (sql.video_streams d')).
Proof.
  induction ss as [|s ss IH]; intros d d' Hu; cbn [upsert_all].
  - intros [= <-]. split; [done|]. split; [|done].
    intros s Hs. by apply elem_of_nil in Hs.
  - destruct (sql.upsert_stream s d) as [d1|e] eqn:H1; [|done].
    intros H2. destruct (upsert_stream_unique s d d1 Hu H1) as (Hu1 & Hs1 & Hk1).
    destruct (IH d1 d' Hu1 H2) as (Hu' & Hss & Hk'). split; [done|]. split.
    + intros s' [->|Hs']%elem_of_cons; [by apply Hk' | by apply Hss].
    + intros k Hk. by apply Hk', Hk1.
Qed.

Lemma updated_by_key kcs : ∀ r, sql.stream_key (updated_by kcs r) = sql.stream_key r.
Proof.
  induction kcs as [|kc kcs IH]; intros r; [reflexivity|].
  unfold updated_by in *. cbn [fold_left]. by rewrite IH, updated_key.
Qed.

Lemma updated_by_untouched kcs : ∀ r,
  (∀ kc, kc ∈ kcs → fst kc ≠ sql.stream_key r) → updated_by kcs r = r.
Proof.
  induction kcs as [|kc kcs IH]; intros r Hr; [reflexivity|].
  unfold updated_by in *. cbn [fold_left].
  rewrite updated_other.
  - apply IH. intros kc' Hkc'. apply Hr. by right.
  - intros Heq. eapply Hr; [by left | done].
Qed.

Lemma updated_by_touched kcs : ∀ r kc0,
  (∃ kc, kc ∈ kcs ∧ fst kc = sql.stream_key r) →
  updated_by kcs (updated kc0 r) = updated_by kcs r.
Proof.
  induction kcs as [|kc kcs IH]; intros r kc0 (kc1 & Hin & Hk).
  - by apply elem_of_nil in Hin.
  - unfold updated_by in *. cbn [fold_left].
    destruct (decide (fst kc = sql.stream_key r)) as [Heq|Hne].
    + by rewrite updated_updated.
    + rewrite (updated_other kc (updated kc0 r)) by (by rewrite updated_key).
      rewrite (updated_other kc r) by done.
      apply IH. apply elem_of_cons in Hin as [->|Hin]; [done|]. eauto.
Qed.

Lemma upsert_stream_row s d d' r :
  streams_unique d → sql.upsert_stream s d = Ok d' →
  r ∈ sql.video_streams d' → sql.stream_key r = sql.stream_key s →
  updated (upsert_view s) r = r.
Proof.
  intros Hu Hs Hr Hk.
  destruct (upsert_stream_cases s d d' Hu Hs) as [_ [[Hin Hd]|[Hnin Hd]]];
    rewrite Hd in Hr.
  - apply list_elem_of_fmap in Hr as (r0 & -> & _). rewrite updated_key in Hk.
    apply updated_updated. by cbn.
  - apply elem_of_app in Hr as [Hr|Hr%list_elem_of_singleton].
    + exfalso. apply Hnin. rewrite <- Hk. apply list_elem_of_fmap. eauto.
    + subst r. rewrite <- stored_view. apply updated_self.
Qed.

Lemma upsert_stream_other s d d' r :
  streams_unique d → sql.upsert_stream s d = Ok d' →
  r ∈ sql.video_streams d' → sql.stream_key s ≠ sql.stream_key r →
  r ∈ sql.video_streams d.
Proof.
  intros Hu Hs Hr Hk.
  destruct (upsert_stream_cases s d d' Hu Hs) as [_ [[Hin Hd]|[Hnin Hd]]];
    rewrite Hd in Hr.
  - apply list_elem_of_fmap in Hr as (r0 & -> & Hr0).
    rewrite updated_key in Hk. by rewrite updated_other.
  - apply elem_of_app in Hr as [Hr|Hr%list_elem_of_singleton]; [done|].
    by subst r.
Qed.

Lemma upsert_all_other ss : ∀ d d' r,
  streams_unique d → upsert_all ss d = Ok d' →
  r ∈ sql.video_streams d' →
  (∀ s, s ∈ ss → sql.stream_key s ≠ sql.stream_key r) →
  r ∈ sql.video_streams d.
Proof.
  induction ss as [|s ss IH]; intros d d' r Hu; cbn [upsert_all].
  - by intros [= <-].
  - destruct (sql.upsert_stream s d) as [d1|e] eqn:H1; [|done].
    intros H2 Hr Hss.
    destruct (upsert_stream_unique s d d1 Hu H1) as (Hu1 & _ & _).
    eapply upsert_stream_other; [done | done | | apply Hss; by left].
    eapply IH; [done | done | done |]. intros s' Hs'. apply Hss. by right.
Qed.

(** After a sequence of upserts every row holds what the last upsert of
    its key wrote: replaying the updates changes nothing. *)
Lemma upsert_all_settled ss : ∀ d d' r,
  streams_unique d → upsert_all ss d = Ok d' →
  r ∈ sql.video_streams d' →
  updated_by (map upsert_view ss) r = r.
Proof.
  induction ss as [|s ss IH]; intros d d' r Hu; cbn [upsert_all].
  - by intros [= <-].
  - destruct (sql.upsert_stream s d) as [d1|e] eqn:H1; [|done].
    intros H2 Hr.
    destruct (upsert_stream_unique s d d1 Hu H1) as (Hu1 & _ & _).
    pose proof (IH d1 d' r Hu1 H2 Hr) as Hsettled.
    cbn [map]. unfold updated_by in *. cbn [fold_left]. fold (updated_by (map upsert_view ss)).
    fold (updated_by (map upsert_view ss) r) in Hsettled.
    destruct (decide (sql.stream_key r = sql.stream_key s)) as [Hk|Hk];
      [|by rewrite updated_other].
    destruct (decide (Exists (λ s', sql.stream_key s' = sql.stream_key r) ss))
      as [Ht|Ht].
    + rewrite updated_by_touched; [done|].
      apply Exists_exists in Ht as (s' & Hs' & Hk').
      exists (upsert_view s'). split; [|done].
      apply list_elem_of_fmap. eauto.
    + rewrite (upsert_stream_row s d d1 r); [done | done | done | | done].
      eapply upsert_all_other; [done | done | done |].
      intros s' Hs' Hk'. apply Ht. apply Exists_exists. eauto.
Qed.

(** Upserts whose keys are all in the table update in place. *)
Lemma upsert_all_present ss : ∀ d,
  streams_unique d →
  (∀ s, s ∈ ss → sql.stream_key s ∈ map sql.stream_key (sql.video_streams d)) →
  upsert_all ss d
  = Ok (sql.mkDB (sql.videos d)
          (map (updated_by (map upsert_view ss)) (sql.video_streams d))).
Proof.
  induction ss as [|s ss IH]; intros d Hu Hss; cbn [upsert_all].
  - cbn [map]. unfold updated_by. cbn [fold_left]. rewrite map_id. by destruct d.
  - rewrite upsert_stream_present by (done || apply Hss; by left).
    rewrite IH.
    + cbn [sql.videos sql.video_streams]. by rewrite map_map.
    + unfold streams_unique. cbn [sql.video_streams]. by rewrite map_updated_keys.
    + intros s' Hs'. cbn [sql.video_streams]. rewrite map_updated_keys.
      apply Hss. by right.
Qed.

(** Publishing twice. A second sequence of upserts with the keys and the
    columns of the first leaves the catalog as the first left it. *)
Lemma upsert_all_twice ss ss' d d' :
  streams_unique d → upsert_all ss d = Ok d' →
  map upsert_view ss' = map upsert_view ss →
  upsert_all ss' d' = Ok d'.
Proof.
  intros Hu H1 Hv.
  destruct (upsert_all_unique ss d d' Hu H1) as (Hu' & Hss & _).
  rewrite upsert_all_present; [|done|].
  - rewrite Hv. f_equal.
    assert (map (updated_by (map upsert_view ss)) (sql.video_streams d')
            = sql.video_streams d') as ->; [|by destruct d'].
    rewrite <- (map_id (sql.video_streams d')) at 2. apply map_ext_in.
    intros r Hr. apply list_elem_of_In in Hr.
    exact (upsert_all_settled ss d d' r Hu H1 Hr).
  - intros s' Hs'.
    assert (upsert_view s' ∈ map upsert_view ss) as Hin
      by (rewrite <- Hv; apply list_elem_of_fmap; eauto).
    apply list_elem_of_fmap in Hin as (s & Heq & Hs).
    assert (sql.stream_key s' = sql.stream_key s) as -> by exact (f_equal fst Heq).
    by apply Hss.
Qed.

(** ** The publish loop *)

Lemma AddVideoStream_ok s w w' :
  database.AddVideoStream s w = (w', Ok tt) →
  sql.upsert_stream s (db w) = Ok (db w').
Proof.
  unfold database.AddVideoStream. intros H%wrap_ok_inv.
  apply bind_ok_inv in H as (w1 & [] & H1 & H2).
  unfold external in H1. unfold commit in H2.
  assert (db w1 = db w) as Hdb.
  { destruct (faults w) as [|[e|] q]; by injection H1 as <-. }
  rewrite Hdb in H2.
  destruct (sql.upsert_stream s (db w)) as [d'|e]; [|done].
  by injection H2 as <-.
Qed.

Lemma AddVideoStream_reachable s w d' :
  reachable w → sql.upsert_stream s (db w) = Ok d' →
  database.AddVideoStream s w
  = (mkWorld d' (db w :: history w) [] (clock w) (commands w) (env w), Ok tt).
Proof.
  unfold reachable. destruct w as [d h q c cs e].
  cbn [faults db history clock commands env]. intros -> Hup.
  unfold database.AddVideoStream, wrap, bind, external, commit.
  cbn [faults db history clock commands env]. rewrite Hup. reflexivity.
Qed.

Lemma record_streams_upserts params l : ∀ i acc w w' streams,
  transcoder.record_streams params i l acc w = (w', Ok streams) →
  ∃ ss, map upsert_view ss = ladder_views params i l
        ∧ upsert_all ss (db w) = Ok (db w').
Proof.
  induction l as [|res rest IH]; intros i acc w w' streams.
  - cbn [transcoder.record_streams]. unfold ret. intros [= <- _]. by exists [].
  - cbn [transcoder.record_streams].
    intros (w1 & now & Hnow & H)%bind_ok_inv.
    apply bind_ok_inv in H as (w2 & [] & Hadd & H).
    apply IH in H as (ss & Hviews & Hall).
    apply AddVideoStream_ok in Hadd.
    unfold Now in Hnow. injection Hnow as Hw1 Hn. subst w1 now. cbn [db] in Hadd.
    match type of Hadd with sql.upsert_stream ?s _ = _ => exists (s :: ss) end.
    split.
    + cbn [map ladder_views]. rewrite Hviews. reflexivity.
    + cbn [upsert_all]. by rewrite Hadd.
Qed.

Lemma published_views params l : ∀ i now,
  map upsert_view (published params i l now) = ladder_views params i l.
Proof.
  induction l as [|res rest IH]; intros i now; [reflexivity|].
  cbn [published map ladder_views]. by rewrite IH.
Qed.

Lemma record_streams_reachable params l : ∀ i acc w d',
  reachable w →
  upsert_all (published params i l (clock w)) (db w) = Ok d' →
  ∃ w' streams,
    transcoder.record_streams params i l acc w = (w', Ok streams)
    ∧ db w' = d'.
Proof.
  induction l as [|res rest IH]; intros i acc w d' Hw.
  - intros [= <-]. by exists w, acc.
  - cbn [published upsert_all].
    destruct (sql.upsert_stream _ (db w)) as [d1|e] eqn:Hup; [|done].
    intros Hall.
    cbn [transcoder.record_streams]. unfold bind at 1. unfold Now.
    set (w1 := mkWorld (db w) (history w) (faults w) (clock w + 1) (commands w) (env w)).
    pose proof (AddVideoStream_reachable _ w1 d1 Hw Hup) as Hadd.
    unfold bind. rewrite Hadd.
    apply IH; [reflexivity | exact Hall].
Qed.

Lemma one_row_per_key (rows : list VideoStream.t) k :
  NoDup (map sql.stream_key rows) →
  k ∈ map sql.stream_key rows →
  length (filter (λ r, sql.stream_key r = k) rows) = 1%nat.
Proof.
  induction rows as [|r rows IH]; cbn [map].
  - intros _ Hk. by apply elem_of_nil in Hk.
  - intros [Hr Hrows]%NoDup_cons Hk. rewrite filter_cons.
    destruct (decide (sql.stream_key r = k)) as [<-|Hne].
    + cbn [length]. f_equal. apply length_zero_iff_nil.
      apply elem_of_nil_inv. intros r' [Heq Hr']%list_elem_of_filter. apply Hr.
      rewrite <- Heq. apply list_elem_of_fmap. eauto.
    + apply IH; [done|]. by apply elem_of_cons in Hk as [->|Hk].
Qed.

Lemma ladder_views_keys params l : ∀ i res,
  res ∈ l →
  (transcoder.VideoID params, ffmpeg.resolution_label res, "hls")
    ∈ map fst (ladder_views params i l).
Proof.
  induction l as [|r rest IH]; intros i res Hres.
  - by apply elem_of_nil in Hres.
  - cbn [ladder_views map fst]. apply elem_of_cons in Hres as [->|Hres].
    + by left.
    + right. by apply IH.
Qed.

(** A row whose key is among those of a sequence of updates holds the
    columns of one of them. *)
Lemma updated_by_columns kcs : ∀ r,
  (∃ kc, kc ∈ kcs ∧ fst kc = sql.stream_key r) →
  ∃ kc, kc ∈ kcs ∧ fst kc = sql.stream_key r
        ∧ stream_columns (updated_by kcs r) = snd kc.
Proof.
  induction kcs as [|kc kcs IH]; intros r (kc1 & Hin & Hk).
  - by apply elem_of_nil in Hin.
  - unfold updated_by. cbn [fold_left]. fold (updated_by kcs (updated kc r)).
    destruct (decide (Exists (λ kc', fst kc' = sql.stream_key r) kcs)) as [Hl|Hl].
    + apply Exists_exists in Hl as (kc' & Hin' & Hk').
      destruct (IH (updated kc r)) as (kc2 & Hin2 & Hk2 & Hc2).
      { exists kc'. by rewrite updated_key. }
      exists kc2. rewrite updated_key in Hk2. split; [by right | done].
    + assert (fst kc = sql.stream_key r) as Hkc.
      { apply elem_of_cons in Hin as [->|Hin]; [done|].
        exfalso. apply Hl, Exists_exists. eauto. }
      exists kc. split; [by left|]. split; [done|].
      rewrite updated_by_untouched.
      * unfold updated. rewrite decide_True by done. by destruct kc as [k [[p sz] seg]].
      * intros kc' Hin' Hk'. apply Hl, Exists_exists. exists kc'.
        by rewrite updated_key in Hk'.
Qed.

Lemma ladder_views_lookup params l : ∀ i kc,
  kc ∈ ladder_views params i l →
  ∃ (n : nat) res,
    l !! n = Some res
    ∧ kc = ((transcoder.VideoID params, ffmpeg.resolution_label res, "hls"),
            (transcoder.streamPath params (i + Z.of_nat n), 0, 10)).
Proof.
  induction l as [|res rest IH]; intros i kc; cbn [ladder_views].
  - intros H. by apply elem_of_nil in H.
  - intros [->|Hin]%elem_of_cons.
    + exists 0%nat, res. split; [done|]. by rewrite Z.add_0_r.
    + apply IH in Hin as (n & res' & Hn & ->).
      exists (S n), res'. split; [done|].
      by replace (i + Z.of_nat (S n)) with (i + 1 + Z.of_nat n) by lia.
Qed.

(** C2. Publishing is idempotent. After a publish loop that succeeded on a
    catalog honouring its unique key, a second loop over the same ladder on
    the catalog the first one left, with the catalog answering, succeeds
    with the same descriptors and leaves the table of renditions exactly
    as it was: one row for each (video id, resolution, format) of the
    ladder and no duplicate. Each of these rows, whatever it held before
    the first loop, holds the playlist key of a ladder entry of its
    resolution, the size 0 and the segment size 10. A single write whose
    key is already in the table adds nothing: the row of that key takes
    the path, the size and the segment size of the write and keeps its id,
    its bitrate and its creation time; every other row stays. *)
Theorem publish_twice_idempotent (params : transcoder.TranscodeParams)
    (ladder : list Resolution.t) (w1 w2 w2' : World)
    (streams : list transcoder.StreamInfo) :
  streams_unique (db w1) →
  transcoder.record_streams params 0 ladder [] w1 = (w2, Ok streams) →
  db w2' = db w2 →
  reachable w2' →
  (∃ w3,
     transcoder.record_streams params 0 ladder [] w2' = (w3, Ok streams)
     ∧ db w3 = db w2
     ∧ streams_unique (db w3)
     ∧ ∀ res, res ∈ ladder →
         length (renditions_of (transcoder.VideoID params)
                   (ffmpeg.resolution_label res) "hls" (db w3)) = 1%nat)
  ∧ (∀ r res,
       r ∈ sql.video_streams (db w2) → res ∈ ladder →
       sql.stream_key r
       = (transcoder.VideoID params, ffmpeg.resolution_label res, "hls") →
       ∃ (i : nat) res',
         ladder !! i = Some res'
         ∧ ffmpeg.resolution_label res' = ffmpeg.resolution_label res
         ∧ VideoStream.Path r = transcoder.streamPath params (Z.of_nat i)
         ∧ VideoStream.Size r = 0
         ∧ VideoStream.SegmentSize r = 10)
  ∧ (∀ (s : VideoStream.t) (w : World),
       reachable w → streams_unique (db w) →
       sql.stream_key s ∈ map sql.stream_key (sql.video_streams (db w)) →
       ∃ w', database.AddVideoStream s w = (w', Ok tt)
             ∧ sql.videos (db w') = sql.videos (db w)
             ∧ sql.video_streams (db w')
               = map (λ r, if decide (sql.stream_key r = sql.stream_key s)
                           then VideoStream.mk (VideoStream.ID r)
                                  (VideoStream.VideoID r)
                                  (VideoStream.Resolution r)
                                  (VideoStream.Bitrate r)
                                  (VideoStream.Format r)
                                  (VideoStream.Path s) (VideoStream.Size s)
                                  (VideoStream.SegmentSize s)
                                  (VideoStream.CreatedAt r)
                           else r)
                   (sql.video_streams (db w))).
Proof.
  intros Hu Hrun Hdb Hw.
  destruct (record_streams_upserts _ _ _ _ _ _ _ Hrun) as (ss & Hviews & Hall).
  split; [|split].
  - destruct (upsert_all_unique ss _ _ Hu Hall) as (Hu2 & Hkeys & _).
    assert (upsert_all (published params 0 ladder (clock w2')) (db w2') = Ok (db w2))
      as Hagain.
    { rewrite Hdb. apply (upsert_all_twice ss _ (db w1)); [done | done |].
      by rewrite published_views. }
    destruct (record_streams_reachable params ladder 0 [] w2' (db w2) Hw Hagain)
      as (w3 & streams' & Hrun' & Hdb3).
    exists w3. rewrite Hdb3.
    split; [|split; [done|split; [done|]]].
    + rewrite Hrun'. do 2 f_equal.
      apply record_streams_ok in Hrun, Hrun'. congruence.
    + intros res Hres. apply one_row_per_key; [done|].
      pose proof (ladder_views_keys params ladder 0 res Hres) as Hk.
      rewrite <- Hviews, map_map in Hk.
      apply list_elem_of_fmap in Hk as (s & Hs & Hin).
      rewrite Hs. by apply Hkeys.
  - intros r res Hr Hres Hkey.
    pose proof (upsert_all_settled ss _ _ r Hu Hall Hr) as Hset.
    rewrite Hviews in Hset.
    destruct (updated_by_columns (ladder_views params 0 ladder) r)
      as (kc & Hin & Hk & Hcols).
    { pose proof (ladder_views_keys params ladder 0 res Hres) as Hk.
      apply list_elem_of_fmap in Hk as (kc & Hk & Hin).
      exists kc. split; [done|]. by rewrite <- Hk, Hkey. }
    rewrite Hset in Hcols.
    apply ladder_views_lookup in Hin as (n & res' & Hn & ->).
    cbn [fst snd] in *. exists n, res'. split; [done|].
    rewrite Hkey in Hk. injection Hk as Hlabel.
    unfold stream_columns in Hcols. injection Hcols as -> -> ->.
    by rewrite Z.add_0_l.
  - intros s w Hrw Huw Hin.
    pose proof (upsert_stream_present s (db w) Huw Hin) as Hup.
    eexists. split; [by apply AddVideoStream_reachable|]. done.
Qed.

Lemma publish_twice_idempotent_witness :
  (∃ w3,
     transcoder.record_streams params_A 0 ladder_A []
       (fst (transcoder.record_streams params_A 0 ladder_A [] world_A_stale))
       = (w3, Ok (transcoder.Streams result_A))
     ∧ db w3 = db (fst (transcoder.record_streams params_A 0 ladder_A []
                          world_A_stale))
     ∧ streams_unique (db w3)
     ∧ ∀ res, res ∈ ladder_A →
         length (renditions_of (transcoder.VideoID params_A)
                   (ffmpeg.resolution_label res) "hls" (db w3)) = 1%nat)
  ∧ (∀ r res,
       r ∈ sql.video_streams
             (db (fst (transcoder.record_streams params_A 0 ladder_A []
                         world_A_stale))) →
       res ∈ ladder_A →
       sql.stream_key r
       = (transcoder.VideoID params_A, ffmpeg.resolution_label res, "hls") →
       ∃ (i : nat) res',
         ladder_A !! i = Some res'
         ∧ ffmpeg.resolution_label res' = ffmpeg.resolution_label res
         ∧ VideoStream.Path r = transcoder.streamPath params_A (Z.of_nat i)
         ∧ VideoStream.Size r = 0
         ∧ VideoStream.SegmentSize r = 10)
  ∧ (∀ (s : VideoStream.t) (w : World),
       reachable w → streams_unique (db w) →
       sql.stream_key s ∈ map sql.stream_key (sql.video_streams (db w)) →
       ∃ w', database.AddVideoStream s w = (w', Ok tt)
             ∧ sql.videos (db w') = sql.videos (db w)
             ∧ sql.video_streams (db w')
               = map (λ r, if decide (sql.stream_key r = sql.stream_key s)
                           then VideoStream.mk (VideoStream.ID r)
                                  (VideoStream.VideoID r)
                                  (VideoStream.Resolution r)
                                  (VideoStream.Bitrate r)
                                  (VideoStream.Format r)
                                  (VideoStream.Path s) (VideoStream.Size s)
                                  (VideoStream.SegmentSize s)
                                  (VideoStream.CreatedAt r)
                           else r)
                   (sql.video_streams (db w))).
Proof.
  apply (publish_twice_idempotent params_A ladder_A world_A_stale
           (fst (transcoder.record_streams params_A 0 ladder_A [] world_A_stale))
           (fst (transcoder.record_streams params_A 0 ladder_A [] world_A_stale))
           (transcoder.Streams result_A)).
  - apply NoDup_singleton.
  - vm_compute. reflexivity.
  - reflexivity.
  - reflexivity.
Defined.

(** The publish loop over a rendition left by an earlier publish, in
    scenario A: the row of the first ladder entry keeps its id, its
    bitrate and its creation time and takes the path, the size and the
    segment size of the new publish; the second entry is inserted. *)
Example publish_replaces_stale :
  sql.video_streams (db world_A_stale)
  = [VideoStream.mk "vid-old" "vid" "1920x1080" "4000k" "hls"
       "videos/vid/hls/old.m3u8" 77 6 500000]
  ∧ sql.video_streams
      (db (fst (transcoder.record_streams params_A 0 ladder_A [] world_A_stale)))
    = [VideoStream.mk "vid-old" "vid" "1920x1080" "4000k" "hls"
         "videos/vid/hls/vid_v0.m3u8" 0 10 500000;
       VideoStream.mk "vid-v1" "vid" "1280x720" "2500k" "hls"
         "videos/vid/hls/vid_v1.m3u8" 0 10 1000].
Proof. split; vm_compute; reflexivity. Qed.

(** ** A logic of catalog trajectories *)

Section Trajectories.
Context (step : sql.DB → sql.DB → Prop).

Lemma chain_app (a b : list sql.DB) (x : sql.DB) :
  chain step (a ++ [x]) → chain step (x :: b) → chain step (a ++ x :: b).
Proof.
  induction a as [|y a IH]; intros Ha Hb; [exact Hb|].
  cbn [app] in *. destruct a as [|z a].
  - cbn [app chain] in *. split; [apply Ha | exact Hb].
  - cbn [app chain] in *. split; [apply Ha|]. apply IH; [apply Ha | exact Hb].
Qed.

Lemma continues_refl w : continues step w w.
Proof. split; [done|]. by exists []. Qed.

Lemma continues_trans w1 w2 w3 :
  continues step w1 w2 → continues step w2 w3 → continues step w1 w3.
Proof.
  intros [He1 (n1 & H1 & C1)] [He2 (n2 & H2 & C2)].
  split; [congruence|]. exists (n2 ++ n1)%list. split.
  - rewrite H2. rewrite <- app_assoc.
    destruct n1 as [|x n1]; cbn [app] in *.
    + injection H1 as -> ->. done.
    + injection H1 as -> ->. done.
  - rewrite <- app_assoc. destruct n1 as [|x n1]; cbn [app] in *.
    + injection H1 as Hd _. rewrite Hd in C2. exact C2.
    + injection H1 as Hd _. subst x. apply chain_app; [exact C2 | exact C1].
Qed.

Lemma continues_quiet w w' :
  env w' = env w → db w' = db w → history w' = history w →
  continues step w w'.
Proof.
  intros He Hd Hh. split; [done|]. exists []. split; [|done].
  cbn [app]. congruence.
Qed.

Lemma triple_conseq {A} (P P' : sql.DB → Prop) (m : M A)
    (Q Q' : result A → sql.DB → Prop) :
  triple step P m Q →
  (∀ d, P' d → P d) → (∀ r d, Q r d → Q' r d) →
  triple step P' m Q'.
Proof. intros Hm HP HQ w Hw. destruct (Hm w (HP _ Hw)). eauto. Qed.

Lemma triple_ret {A} (P : sql.DB → Prop) (a : A) (Q : result A → sql.DB → Prop) :
  (∀ d, P d → Q (Ok a) d) → triple step P (ret a) Q.
Proof. intros H w Hw. split; [apply continues_refl | by apply H]. Qed.

Lemma triple_fail {A} (P : sql.DB → Prop) e (Q : result A → sql.DB → Prop) :
  (∀ d, P d → Q (Err e) d) → triple step P (fail e) Q.
Proof. intros H w Hw. split; [apply continues_refl | by apply H]. Qed.

Lemma triple_lift {A} (P : sql.DB → Prop) (r : result A)
    (Q : result A → sql.DB → Prop) :
  (∀ d, P d → Q r d) → triple step P (lift r) Q.
Proof. intros H w Hw. split; [apply continues_refl | by apply H]. Qed.

Lemma triple_ask (P : sql.DB → Prop) (Q : result Env → sql.DB → Prop) :
  (∀ e d, P d → Q (Ok e) d) → triple step P ask Q.
Proof. intros H w Hw. split; [apply continues_refl | by apply H]. Qed.

Lemma triple_query {A} (P : sql.DB → Prop) (q : sql.DB → A)
    (Q : result A → sql.DB → Prop) :
  (∀ d, P d → Q (Ok (q d)) d) → triple step P (query q) Q.
Proof. intros H w Hw. split; [apply continues_refl | by apply H]. Qed.

Lemma triple_Now (P : sql.DB → Prop) (Q : result Z → sql.DB → Prop) :
  (∀ now d, P d → Q (Ok now) d) → triple step P Now Q.
Proof. intros H w Hw. split; [by apply continues_quiet | by apply H]. Qed.

Lemma triple_external (P : sql.DB → Prop) (Q : result unit → sql.DB → Prop) :
  (∀ r d, P d → Q r d) → triple step P external Q.
Proof.
  intros H w Hw. unfold external.
  destruct (faults w) as [|o q]; cbn [fst snd].
  - split; [apply continues_refl | by apply H].
  - split; [by apply continues_quiet | by apply H].
Qed.

Lemma triple_run_command (P : sql.DB → Prop) name args
    (Q : result unit → sql.DB → Prop) :
  (∀ r d, P d → Q r d) → triple step P (run_command name args) Q.
Proof.
  intros H w Hw.
  destruct (run_command_db name args w) as (Hd & Hh & He & _).
  split; [by apply continues_quiet|]. rewrite Hd. by apply H.
Qed.

Lemma triple_commit (P : sql.DB → Prop) stmt (Q : result unit → sql.DB → Prop) :
  (∀ d d', P d → stmt d = Ok d' → step d d' ∧ Q (Ok tt) d') →
  (∀ d e, P d → stmt d = Err e → Q (Err e) d) →
  triple step P (commit stmt) Q.
Proof.
  intros Hok Herr w Hw. unfold commit.
  destruct (stmt (db w)) as [d'|e] eqn:Hs; cbn [fst snd db].
  - destruct (Hok _ _ Hw Hs) as [Hstep HQ]. split; [|done].
    split; [done|]. exists [d']. split; [done|]. cbn. done.
  - split; [apply continues_refl | by eapply Herr].
Qed.

Lemma triple_bind {A B} (P : sql.DB → Prop) (m : M A) (k : A → M B)
    (Q1 : result A → sql.DB → Prop) (Q : result B → sql.DB → Prop) :
  triple step P m Q1 →
  (∀ a, triple step (Q1 (Ok a)) (k a) Q) →
  (∀ e d, Q1 (Err e) d → Q (Err e) d) →
  triple step P (bind m k) Q.
Proof.
  intros Hm Hk He w Hw. unfold bind.
  destruct (Hm w Hw) as [Hc HQ]. destruct (m w) as [w1 [a|e]]; cbn [fst snd] in *.
  - destruct (Hk a w1 HQ) as [Hc' HQ']. split; [|done].
    by eapply continues_trans.
  - split; [done | by apply He].
Qed.

Lemma triple_attempt {A} (P : sql.DB → Prop) (m : M A)
    (Q1 : result A → sql.DB → Prop) (Q : result (result A) → sql.DB → Prop) :
  triple step P m Q1 →
  (∀ r d, Q1 r d → Q (Ok r) d) →
  triple step P (attempt m) Q.
Proof.
  intros Hm HQ w Hw. unfold attempt.
  destruct (Hm w Hw) as [Hc H1]. destruct (m w) as [w1 r]; cbn [fst snd] in *.
  split; [done | by apply HQ].
Qed.

Lemma triple_wrap {A} (P : sql.DB → Prop) prefix (m : M A)
    (Q1 Q : result A → sql.DB → Prop) :
  triple step P m Q1 →
  (∀ a d, Q1 (Ok a) d → Q (Ok a) d) →
  (∀ e d, Q1 (Err e) d → Q (Err (prefix +:+ e)) d) →
  triple step P (wrap prefix m) Q.
Proof.
  intros Hm Hok Herr w Hw. unfold wrap.
  destruct (Hm w Hw) as [Hc H1]. destruct (m w) as [w1 [a|e]]; cbn [fst snd] in *.
  - split; [done | by apply Hok].
  - split; [done | by apply Herr].
Qed.

(** Retrying: a failed attempt must leave the catalog where another
    attempt can start. *)
Lemma triple_run_attempts {A} (P : sql.DB → Prop) (m : M A)
    (Q : result A → sql.DB → Prop) (n : nat) :
  triple step P m Q →
  (∀ e d, Q (Err e) d → P d) →
  triple step P (workflow.run_attempts n m) Q.
Proof.
  intros Hm Hagain. induction n as [|n IH]; [exact Hm|].
  cbn [workflow.run_attempts].
  eapply triple_bind with (Q1 := λ r d, match r with
                                        | Ok r0 => Q r0 d
                                        | Err _ => False
                                        end).
  - eapply triple_attempt; [exact Hm|]. done.
  - intros [a|e].
    + apply triple_ret. done.
    + eapply triple_conseq; [exact IH | | done]. intros d Hd. by eapply Hagain.
  - done.
Qed.

(** An activity under its retry policy; on a worker that has not
    registered it nothing runs. *)
Lemma triple_ExecuteActivity {A} (P : sql.DB → Prop) (m : M A)
    (Q : result A → sql.DB → Prop) (registered : list string) (n : nat)
    (activityType : string) :
  triple step P m Q →
  (∀ e d, Q (Err e) d → P d) →
  (∀ e d, P d → Q (Err e) d) →
  triple step P (workflow.ExecuteActivity registered n activityType m) Q.
Proof.
  intros Hm Hagain Hstart. unfold workflow.ExecuteActivity.
  case_bool_decide.
  - by apply triple_run_attempts.
  - apply triple_fail. intros d Hd. by apply Hstart.
Qed.

End Trajectories.

(** ** The statements on [videos] and the processing state *)

Lemma state_of_update_status_same status videoID now d :
  state_of videoID (sql.update_status status videoID now d)
  = (λ _, status) <$> state_of videoID d.
Proof.
  unfold state_of. rewrite select_update_status.
  destruct (sql.select_video videoID d) as [r|] eqn:Hr; [|reflexivity].
  cbn. rewrite decide_True by (by eapply select_video_ID). reflexivity.
Qed.

Lemma state_of_update_status_other status videoID now d other :
  other ≠ videoID →
  state_of other (sql.update_status status videoID now d) = state_of other d.
Proof.
  intros Hne. unfold state_of. rewrite select_update_status.
  destruct (sql.select_video other d) as [r|] eqn:Hr; [|reflexivity].
  cbn. apply select_video_ID in Hr. rewrite decide_False by congruence.
  reflexivity.
Qed.

Lemma select_video_app id rows row vs :
  sql.select_video id (sql.mkDB (rows ++ [row]) vs)
  = match sql.select_video id (sql.mkDB rows vs) with
    | Some r => Some r
    | None => if bool_decide (Video.ID row = id) then Some row else None
    end.
Proof.
  unfold sql.select_video. cbn [sql.videos].
  induction rows as [|r rows IH]; cbn [app find]; [reflexivity|].
  by destruct (bool_decide (Video.ID r = id)).
Qed.

Lemma has_video_select id d :
  sql.has_video id d = false → sql.select_video id d = None.
Proof.
  unfold sql.has_video, sql.select_video.
  induction (sql.videos d) as [|r rows IH]; cbn [existsb find]; [done|].
  destruct (bool_decide (Video.ID r = id)); [done | exact IH].
Qed.

Lemma insert_video_states v d d' :
  sql.insert_video v d = Ok d' →
  state_of (Video.ID v) d = None
  ∧ state_of (Video.ID v) d' = Some (Video.ProcessingState v)
  ∧ ∀ other, other ≠ Video.ID v → state_of other d' = state_of other d.
Proof.
  unfold sql.insert_video.
  destruct (sql.has_video (Video.ID v) d) eqn:Hhas; [done|].
  intros [= <-]. apply has_video_select in Hhas.
  unfold state_of. destruct d as [rows vs]. cbn [sql.videos sql.video_streams].
  split; [by rewrite Hhas|]. split.
  - rewrite select_video_app, Hhas. cbn [Video.ID].
    by rewrite bool_decide_eq_true_2.
  - intros other Hne. rewrite select_video_app. cbn [Video.ID].
    rewrite bool_decide_eq_false_2 by congruence.
    by destruct (sql.select_video other _).
Qed.

Lemma upsert_stream_videos s d d' :
  sql.upsert_stream s d = Ok d' → sql.videos d' = sql.videos d.
Proof.
  unfold sql.upsert_stream.
  repeat match goal with |- context [if ?c then _ else _] => destruct c end;
    (done || by intros [= <-]).
Qed.

Lemma state_of_videos id d d' :
  sql.videos d' = sql.videos d → state_of id d' = state_of id d.
Proof. unfold state_of, sql.select_video. by intros ->. Qed.

Lemma forward_refl o : forward o o.
Proof. by left. Qed.

Lemma run_step_videos id d d' : sql.videos d' = sql.videos d → run_step id d d'.
Proof.
  intros H. split.
  - rewrite (state_of_videos id d d' H). apply forward_refl.
  - intros other _. by apply state_of_videos.
Qed.

(** ** The stages along the trajectory *)

Ltac in_states := solve [repeat constructor].

Ltac case_states H :=
  unfold among in H;
  repeat (apply elem_of_cons in H as [H|H]); [..|by apply elem_of_nil in H].

Section Run.
Context (videoID : string).

#[local] Abbreviation run := (triple (run_step videoID)).

(** Steps that commit nothing keep any condition on the catalog. *)
Lemma run_MkdirTemp P pattern :
  run P (transcoder.MkdirTemp pattern) (λ _, P).
Proof.
  unfold transcoder.MkdirTemp.
  eapply triple_bind with (Q1 := λ _, P); [by apply triple_external | | done].
  intros _. eapply triple_bind with (Q1 := λ _, P); [by apply triple_ask | | done].
  intros e. by apply triple_ret.
Qed.

Lemma run_DownloadFile P objectKey localFilePath :
  run P (storage.DownloadFile objectKey localFilePath) (λ _, P).
Proof. by apply triple_external. Qed.

Lemma run_getFileSize P path : run P (transcoder.getFileSize path) (λ _, P).
Proof.
  unfold transcoder.getFileSize.
  eapply triple_bind with (Q1 := λ _, P); [by apply triple_ask | | done].
  intros e. by apply triple_ret.
Qed.

Lemma run_CleanupActivity P localPath :
  run P (transcoder.CleanupActivity localPath) (λ _, P).
Proof. by apply triple_external. Qed.

Lemma run_GetMediaInfo P f inputFile :
  run P (ffmpeg.GetMediaInfo f inputFile) (λ _, P).
Proof.
  unfold ffmpeg.GetMediaInfo.
  eapply triple_bind with (Q1 := λ _, P); [|intros r|done].
  - eapply triple_attempt with (Q1 := λ _, P); [by apply triple_run_command | done].
  - eapply triple_bind with (Q1 := λ _, P); [by apply triple_ask | | done].
    intros e. by apply triple_ret.
Qed.

Lemma run_TranscodeToHLS P f inputFile outputDir segmentFilename resolutions :
  run P (ffmpeg.TranscodeToHLS f inputFile outputDir segmentFilename resolutions)
    (λ _, P).
Proof.
  unfold ffmpeg.TranscodeToHLS.
  eapply triple_bind with (Q1 := λ _, P); [by apply triple_ask | | done].
  intros e. eapply triple_bind with (Q1 := λ _, P); [|intros r|done].
  - eapply triple_attempt with (Q1 := λ _, P); [by apply triple_run_command | done].
  - destruct r; [by apply triple_ret | by apply triple_fail].
Qed.

Lemma run_GetVideo P id : run P (database.GetVideo id) (λ _, P).
Proof.
  unfold database.GetVideo.
  eapply triple_bind with (Q1 := λ _, P); [|intros _|done].
  - eapply triple_wrap with (Q1 := λ _, P); [by apply triple_external | done | done].
  - eapply triple_bind with (Q1 := λ _, P); [by apply triple_query | | done].
    intros [video|]; [by apply triple_ret | by apply triple_fail].
Qed.

(** The writes of renditions leave [videos] alone. *)
Lemma run_AddVideoStream X stream :
  run (among videoID X) (database.AddVideoStream stream) (λ _, among videoID X).
Proof.
  unfold database.AddVideoStream.
  eapply triple_wrap with (Q1 := λ _, among videoID X); [|done|done].
  eapply triple_bind with (Q1 := λ _, among videoID X);
    [by apply triple_external | | done].
  intros _. apply triple_commit; [|done].
  intros d d' Hd Hup. apply upsert_stream_videos in Hup. split.
  - by apply run_step_videos.
  - unfold among in *. by rewrite (state_of_videos videoID d d' Hup).
Qed.

Lemma run_record_streams X params l : ∀ i acc,
  run (among videoID X) (transcoder.record_streams params i l acc)
    (λ _, among videoID X).
Proof.
  induction l as [|res rest IH]; intros i acc; cbn [transcoder.record_streams].
  - by apply triple_ret.
  - eapply triple_bind with (Q1 := λ _, among videoID X);
      [by apply triple_Now | | done].
    intros now. eapply triple_bind with (Q1 := λ _, among videoID X);
      [apply run_AddVideoStream | | done].
    intros _. apply IH.
Qed.

(** A status write on the video of the run: from a state of [X] to the
    written state, provided that is a forward move; a failed write
    leaves the state. *)
Lemma run_UpdateVideoStatus X Y status :
  (∀ o, o ∈ X → forward o ((λ _, status) <$> o) ∧ ((λ _, status) <$> o) ∈ Y) →
  run (among videoID X) (database.UpdateVideoStatus videoID status)
    (ends (among videoID Y) (among videoID X)).
Proof.
  intros HXY. unfold database.UpdateVideoStatus.
  eapply triple_wrap with (Q1 := ends (among videoID Y) (among videoID X));
    [|done|done].
  eapply triple_bind with (Q1 := λ _, among videoID X);
    [by apply triple_external | | done].
  intros _. eapply triple_bind with (Q1 := λ _, among videoID X);
    [by apply triple_Now | | done].
  intros now. apply triple_commit; [|done].
  intros d d' Hd [= <-]. destruct (HXY _ Hd) as [Hf Hy]. split.
  - split.
    + by rewrite state_of_update_status_same.
    + intros other Hne. by apply state_of_update_status_other.
  - cbn. unfold among. by rewrite state_of_update_status_same.
Qed.

(** The insertion of the row of the run. *)
Lemma run_CreateVideo video :
  Video.ID video = videoID →
  Video.ProcessingState video = "downloading" →
  run (among videoID [None]) (database.CreateVideo video)
    (ends (among videoID [Some "downloading"]) (among videoID [None])).
Proof.
  intros Hid Hstate. unfold database.CreateVideo.
  eapply triple_wrap
    with (Q1 := ends (among videoID [Some "downloading"]) (among videoID [None]));
    [|done|done].
  eapply triple_bind with (Q1 := λ _, among videoID [None]);
    [by apply triple_external | | done].
  intros _. apply triple_commit; [|done].
  intros d d' Hd Hins.
  destruct (insert_video_states _ _ _ Hins) as (Hnone & Hsome & Hother).
  rewrite Hid in *. rewrite Hstate in Hsome. split.
  - split; [|exact Hother]. rewrite Hnone, Hsome. right. by left.
  - cbn. unfold among. rewrite Hsome. in_states.
Qed.

Ltac widen :=
  let H := fresh "H" in
  intros; cbn in *;
  match goal with H : among _ _ _ |- _ =>
    case_states H; unfold among; rewrite H; in_states
  end.

Ltac subset :=
  let o := fresh "o" in
  let H := fresh "H" in
  intros o H;
  repeat (apply elem_of_cons in H as [->|H]); [..|by apply elem_of_nil in H];
  in_states.

Ltac moves :=
  let o := fresh "o" in
  let H := fresh "H" in
  intros o H;
  repeat (apply elem_of_cons in H as [->|H]); [..|by apply elem_of_nil in H];
  (split; [unfold forward; cbn; intuition congruence | cbn; in_states]).

Lemma run_DownloadVideoActivity params :
  transcoder.VideoID params = videoID →
  run (among videoID [None]) (transcoder.DownloadVideoActivity params)
    (λ r d, match r with
            | Ok download =>
                transcoder.dl_VideoID download = videoID
                ∧ among videoID [Some "downloading"] d
            | Err _ => among videoID [None] d
            end).
Proof.
  intros Hid. unfold transcoder.DownloadVideoActivity.
  eapply triple_bind with (Q1 := λ _, among videoID [None]);
    [apply run_MkdirTemp | | done].
  intros tempDir. eapply triple_bind with (Q1 := λ _, among videoID [None]);
    [apply run_DownloadFile | | done].
  intros _. eapply triple_bind with (Q1 := λ _, among videoID [None]);
    [by apply triple_Now | | done].
  intros now. eapply triple_bind with (Q1 := λ _, among videoID [None]);
    [apply run_getFileSize | | done].
  intros size.
  eapply triple_bind
    with (Q1 := ends (among videoID [Some "downloading"]) (among videoID [None]));
    [by apply run_CreateVideo | | done].
  intros []. apply triple_ret. intros d Hd. by split.
Qed.

Lemma run_ExtractMetadataActivity deps download :
  transcoder.dl_VideoID download = videoID →
  run (among videoID [Some "downloading"])
    (transcoder.ExtractMetadataActivity deps download)
    (ends (among videoID [Some "analyzing"]) (among videoID [Some "downloading"])).
Proof.
  intros Hid. unfold transcoder.ExtractMetadataActivity. rewrite Hid.
  eapply triple_bind with (Q1 := λ _, among videoID [Some "downloading"]);
    [apply run_GetMediaInfo | | done].
  intros info. eapply triple_bind with (Q1 := λ _, among videoID [Some "downloading"]);
    [by apply triple_ask | | done].
  intros e.
  eapply triple_bind
    with (Q1 := ends (among videoID [Some "analyzing"])
                  (among videoID [Some "downloading"]));
    [apply run_UpdateVideoStatus; moves | | done].
  intros []. by apply triple_ret.
Qed.

Lemma run_TranscodeVideoActivity deps params :
  transcoder.VideoID params = videoID →
  run (among videoID [Some "analyzing"; Some "transcoding"])
    (transcoder.TranscodeVideoActivity deps params)
    (ends (among videoID [Some "transcoding"])
       (among videoID [Some "analyzing"; Some "transcoding"])).
Proof.
  intros Hid. unfold transcoder.TranscodeVideoActivity. rewrite Hid.
  eapply triple_bind
    with (Q1 := λ _, among videoID [Some "analyzing"; Some "transcoding"]);
    [apply run_GetVideo | | done].
  intros video.
  eapply triple_bind
    with (Q1 := ends (among videoID [Some "transcoding"])
                  (among videoID [Some "analyzing"; Some "transcoding"]));
    [apply run_UpdateVideoStatus; moves | | done].
  intros []. eapply triple_bind with (Q1 := λ _, among videoID [Some "transcoding"]);
    [apply run_MkdirTemp | | widen].
  intros outputDir.
  eapply triple_bind with (Q1 := λ _, among videoID [Some "transcoding"]);
    [by apply triple_ask | | widen].
  intros e.
  eapply triple_bind with (Q1 := λ _, among videoID [Some "transcoding"]);
    [by apply triple_lift | | widen].
  intros resolutions.
  eapply triple_bind with (Q1 := λ _, among videoID [Some "transcoding"]);
    [apply run_TranscodeToHLS | | widen].
  intros _.
  eapply triple_bind with (Q1 := λ _, among videoID [Some "transcoding"]);
    [apply run_record_streams | | widen].
  intros streams. by apply triple_ret.
Qed.

(** The stages as the workflow schedules them: three attempts each. *)
Lemma run_Download_attempts params :
  transcoder.VideoID params = videoID →
  run (among videoID [None])
    (workflow.ExecuteActivity transcoder.registered 3 "DownloadVideoActivity"
       (transcoder.DownloadVideoActivity params))
    (λ r d, match r with
            | Ok download =>
                transcoder.dl_VideoID download = videoID
                ∧ among videoID [Some "downloading"] d
            | Err _ => among videoID [None] d
            end).
Proof.
  intros Hid. apply triple_ExecuteActivity;
    [by apply run_DownloadVideoActivity | done | done].
Qed.

Lemma run_Extract_attempts deps download :
  transcoder.dl_VideoID download = videoID →
  run (among videoID [Some "downloading"])
    (workflow.ExecuteActivity transcoder.registered 3 "ExtractMetadataActivity"
       (transcoder.ExtractMetadataActivity deps download))
    (ends (among videoID [Some "analyzing"]) (among videoID [Some "downloading"])).
Proof.
  intros Hid. apply triple_ExecuteActivity;
    [by apply run_ExtractMetadataActivity | done | done].
Qed.

Lemma run_Transcode_attempts deps params :
  transcoder.VideoID params = videoID →
  run (among videoID [Some "analyzing"; Some "transcoding"])
    (workflow.ExecuteActivity transcoder.registered 3 "TranscodeVideoActivity"
       (transcoder.TranscodeVideoActivity deps params))
    (ends (among videoID [Some "transcoding"])
       (among videoID [Some "analyzing"; Some "transcoding"])).
Proof.
  intros Hid. apply triple_ExecuteActivity;
    [by apply run_TranscodeVideoActivity | done | done].
Qed.

End Run.

(** ** The run of the workflow *)

Lemma chain_impl (step step' : sql.DB → sql.DB → Prop) l :
  (∀ old new, step old new → step' old new) → chain step l → chain step' l.
Proof.
  intros Himpl. induction l as [|new [|old rest] IH]; cbn [chain]; [done|done|].
  intros [Hs Hc]. split; [by apply Himpl | by apply IH].
Qed.

Lemma chain_unchanged new d0 :
  chain unchanged (new ++ [d0]) → Forall (λ d, d = d0) (new ++ [d0]).
Proof.
  induction new as [|d new IH]; cbn [app]; intros Hc.
  - by apply Forall_singleton.
  - assert (chain unchanged (new ++ [d0])) as Hc'.
    { destruct new; cbn [app chain] in *; [done | apply Hc]. }
    pose proof (IH Hc') as Hall. apply Forall_cons. split; [|done].
    destruct new as [|d1 new]; cbn [app chain] in *.
    + by destruct Hc as [-> _].
    + destruct Hc as [-> _]. by apply Forall_cons in Hall as [H1 _].
Qed.

Lemma continues_unchanged w w' : continues unchanged w w' → db w' = db w.
Proof.
  intros [_ (new & Hh & Hc)]. apply chain_unchanged in Hc.
  destruct new as [|d new]; cbn [app] in *.
  - by injection Hh as ->.
  - injection Hh as -> _. by apply Forall_cons in Hc as [-> _].
Qed.

Lemma update_status_absent status videoID now d :
  sql.select_video videoID d = None → sql.update_status status videoID now d = d.
Proof.
  unfold sql.select_video, sql.update_status. intros Hnone.
  destruct d as [rows vs]. cbn [sql.videos sql.video_streams] in *. f_equal.
  rewrite <- (map_id rows) at 2. apply map_ext_in. intros r Hr.
  apply (find_none _ _ Hnone) in Hr. apply bool_decide_eq_false_1 in Hr.
  by rewrite decide_False.
Qed.

Lemma absent_UpdateVideoStatus videoID status :
  triple unchanged (λ d, sql.select_video videoID d = None)
    (database.UpdateVideoStatus videoID status)
    (λ _ d, sql.select_video videoID d = None).
Proof.
  unfold database.UpdateVideoStatus.
  eapply triple_wrap with (Q1 := λ _ d, sql.select_video videoID d = None);
    [|done|done].
  eapply triple_bind with (Q1 := λ _ d, sql.select_video videoID d = None);
    [by apply triple_external | | done].
  intros _. eapply triple_bind with (Q1 := λ _ d, sql.select_video videoID d = None);
    [by apply triple_Now | | done].
  intros now. apply triple_commit; [|done].
  intros d d' Hd [= <-]. rewrite update_status_absent by done. by split.
Qed.

Lemma state_of_None videoID d :
  state_of videoID d = None ↔ sql.select_video videoID d = None.
Proof. unfold state_of. by destruct (sql.select_video videoID d). Qed.

Lemma absent_ExtractMetadataActivity deps download w :
  sql.select_video (transcoder.dl_VideoID download) (db w) = None →
  db (fst (transcoder.ExtractMetadataActivity deps download w)) = db w.
Proof.
  intros Hnone. rewrite ExtractMetadataActivity_eq. unfold bind.
  rewrite GetMediaInfo_eq.
  set (w1 := fst (run_command _ _ w)).
  assert (db w1 = db w) as Hdb by apply run_command_db.
  destruct (absent_UpdateVideoStatus (transcoder.dl_VideoID download) "analyzing" w1)
    as [Hc _]; [by rewrite Hdb|].
  apply continues_unchanged in Hc.
  destruct (database.UpdateVideoStatus _ _ w1) as [w2 [[]|e]]; cbn in *; congruence.
Qed.

Lemma absent_TranscodeVideoActivity deps params w :
  sql.select_video (transcoder.VideoID params) (db w) = None →
  db (fst (transcoder.TranscodeVideoActivity deps params w)) = db w.
Proof.
  intros Hnone.
  unfold transcoder.TranscodeVideoActivity, bind at 1, database.GetVideo.
  unfold bind, wrap, external, query.
  destruct (faults w) as [|[e|] q]; cbn [fst snd db]; rewrite ?Hnone; reflexivity.
Qed.

(** ** The status write of the workflow *)

(** The function literal of [updateVideoStatus] is no activity of the
    worker: the write fails, whatever the world, and touches nothing. *)
Lemma updateVideoStatus_eq videoID status w :
  transcoder.updateVideoStatus videoID status w
  = (w, Err (workflow.not_registered "func1" transcoder.registered)).
Proof. reflexivity. Qed.

Lemma TranscodeWorkflow_eq deps params w :
  transcoder.TranscodeWorkflow deps params w
  = (w, Err (workflow.not_registered "func1" transcoder.registered)).
Proof.
  unfold transcoder.TranscodeWorkflow, bind. by rewrite updateVideoStatus_eq.
Qed.

Lemma triple_weaken {A} step (P : sql.DB → Prop) (m : M A)
    (Q : result A → sql.DB → Prop) (ok : sql.DB → Prop) :
  triple step P m Q → (∀ a d, Q (Ok a) d → ok d) →
  triple step P m (ends ok (λ _, True)).
Proof.
  intros Hm Hok. eapply triple_conseq; [exact Hm | done |].
  intros [a|e] d HQ; cbn; [by eapply Hok | done].
Qed.

(** C1. Whatever the catalog holds and whatever fails, a run of the
    workflow moves no processing state off the forward path: each catalog
    it commits moves the state of every video forward or leaves it. In
    fact the run commits nothing. Its first step is the status write, a
    function literal scheduled as an activity that the worker has not
    registered: the write fails, as every status write of the workflow
    does, and the run returns that error with the world as it found it.
    The three stages the worker has registered, each under its retry
    policy and started from the state its predecessor leaves, commit only
    forward moves of their video, leave the state of every other video,
    and leave on success the next state of the path: no row to
    [downloading], [downloading] to [analyzing], [analyzing] to
    [transcoding]. *)
Theorem workflow_moves_forward (deps : transcoder.ActivityDependencies)
    (params : transcoder.TranscodeParams) (w : World) :
  (∃ new,
     (db (fst (transcoder.TranscodeWorkflow deps params w))
        :: history (fst (transcoder.TranscodeWorkflow deps params w))
      = new ++ db w :: history w)%list
     ∧ (∀ videoID, chain (moves_forward videoID) (new ++ [db w]))
     ∧ new = [])
  ∧ transcoder.TranscodeWorkflow deps params w
    = (w, Err (workflow.not_registered "func1" transcoder.registered))
  ∧ (∀ status,
       transcoder.updateVideoStatus (transcoder.VideoID params) status w
       = (w, Err (workflow.not_registered "func1" transcoder.registered)))
  ∧ triple (run_step (transcoder.VideoID params))
      (among (transcoder.VideoID params) [None])
      (workflow.ExecuteActivity transcoder.registered 3 "DownloadVideoActivity"
         (transcoder.DownloadVideoActivity params))
      (ends (among (transcoder.VideoID params) [Some "downloading"]) (λ _, True))
  ∧ (∀ localPath originalPath,
       triple (run_step (transcoder.VideoID params))
         (among (transcoder.VideoID params) [Some "downloading"])
         (workflow.ExecuteActivity transcoder.registered 3
            "ExtractMetadataActivity"
            (transcoder.ExtractMetadataActivity deps
               (transcoder.mkDownloadResult (transcoder.VideoID params)
                  localPath originalPath)))
         (ends (among (transcoder.VideoID params) [Some "analyzing"])
            (λ _, True)))
  ∧ triple (run_step (transcoder.VideoID params))
      (among (transcoder.VideoID params) [Some "analyzing"])
      (workflow.ExecuteActivity transcoder.registered 3 "TranscodeVideoActivity"
         (transcoder.TranscodeVideoActivity deps
            (transcoder.mkTranscodeParams (transcoder.VideoID params)
               (transcoder.ObjectKey params) (transcoder.Filename params)
               (transcoder.ContentType params))))
      (ends (among (transcoder.VideoID params) [Some "transcoding"]) (λ _, True)).
Proof.
  split; [|split; [apply TranscodeWorkflow_eq|split; [|split; [|split]]]].
  - exists []. rewrite TranscodeWorkflow_eq. by repeat split.
  - intros status. apply updateVideoStatus_eq.
  - eapply triple_weaken; [by apply run_Download_attempts|].
    by intros a d [_ Hd].
  - intros localPath originalPath.
    eapply triple_weaken; [by apply run_Extract_attempts | done].
  - eapply triple_weaken.
    + eapply triple_conseq;
        [by apply (run_Transcode_attempts (transcoder.VideoID params)) | | done].
      intros d Hd. unfold among in *.
      apply list_elem_of_singleton in Hd. rewrite Hd. by left.
    + done.
Qed.

Lemma workflow_moves_forward_witness :
  (∃ new,
     (db (fst (transcoder.TranscodeWorkflow deps_A params_A world_A))
        :: history (fst (transcoder.TranscodeWorkflow deps_A params_A world_A))
      = new ++ db world_A :: history world_A)%list
     ∧ (∀ videoID, chain (moves_forward videoID) (new ++ [db world_A]))
     ∧ new = [])
  ∧ transcoder.TranscodeWorkflow deps_A params_A world_A
    = (world_A, Err (workflow.not_registered "func1" transcoder.registered))
  ∧ (∀ status,
       transcoder.updateVideoStatus (transcoder.VideoID params_A) status world_A
       = (world_A, Err (workflow.not_registered "func1" transcoder.registered)))
  ∧ triple (run_step (transcoder.VideoID params_A))
      (among (transcoder.VideoID params_A) [None])
      (workflow.ExecuteActivity transcoder.registered 3 "DownloadVideoActivity"
         (transcoder.DownloadVideoActivity params_A))
      (ends (among (transcoder.VideoID params_A) [Some "downloading"]) (λ _, True))
  ∧ (∀ localPath originalPath,
       triple (run_step (transcoder.VideoID params_A))
         (among (transcoder.VideoID params_A) [Some "downloading"])
         (workflow.ExecuteActivity transcoder.registered 3
            "ExtractMetadataActivity"
            (transcoder.ExtractMetadataActivity deps_A
               (transcoder.mkDownloadResult (transcoder.VideoID params_A)
                  localPath originalPath)))
         (ends (among (transcoder.VideoID params_A) [Some "analyzing"])
            (λ _, True)))
  ∧ triple (run_step (transcoder.VideoID params_A))
      (among (transcoder.VideoID params_A) [Some "analyzing"])
      (workflow.ExecuteActivity transcoder.registered 3 "TranscodeVideoActivity"
         (transcoder.TranscodeVideoActivity deps_A
            (transcoder.mkTranscodeParams (transcoder.VideoID params_A)
               (transcoder.ObjectKey params_A) (transcoder.Filename params_A)
               (transcoder.ContentType params_A))))
      (ends (among (transcoder.VideoID params_A) [Some "transcoding"])
         (λ _, True)).
Proof.
  apply (workflow_moves_forward deps_A params_A world_A).
Defined.

(** Scenario A. The run ends on its first status write and records
    nothing; the three stages, run one after the other, record
    [downloading], [analyzing] and [transcoding]. *)
Example scenario_A_trajectory :
  transcoder.TranscodeWorkflow deps_A params_A world_A
  = (world_A,
     Err ("unable to find activityType=func1. Supported types: "
          +:+ "[DownloadVideoActivity, ExtractMetadataActivity, "
          +:+ "TranscodeVideoActivity, CleanupActivity]"))
  ∧ trajectory "vid" (fst (transcoder.TranscodeWorkflow deps_A params_A world_A))
    = [None]
  ∧ trajectory "vid" world_A_transcoded
    = [Some "transcoding"; Some "transcoding"; Some "transcoding";
       Some "analyzing"; Some "downloading"; None].
Proof. repeat split; vm_compute; reflexivity. Qed.

(** C9. A status write of the catalog for a video id that has no row
    changes no row and, with the catalog answering, reports no error. The
    first status write of the workflow is no such write: it never reaches
    the catalog, fails, and ends the run with the world as it was. The
    row of a video is made by the Download stage alone: in every commit
    of that stage in which the row appears it appears as [downloading],
    which is its state when the stage succeeds, and the two other stages
    leave a catalog without the row as it is. *)
Theorem status_write_without_row (deps : transcoder.ActivityDependencies)
    (params : transcoder.TranscodeParams) (status : string) (w : World) :
  sql.select_video (transcoder.VideoID params) (db w) = None →
  db (fst (database.UpdateVideoStatus (transcoder.VideoID params) status w)) = db w
  ∧ (reachable w →
     snd (database.UpdateVideoStatus (transcoder.VideoID params) status w) = Ok tt)
  ∧ transcoder.updateVideoStatus (transcoder.VideoID params) "processing" w
    = (w, Err (workflow.not_registered "func1" transcoder.registered))
  ∧ transcoder.TranscodeWorkflow deps params w
    = (w, Err (workflow.not_registered "func1" transcoder.registered))
  ∧ (∃ new,
       (db (fst (transcoder.DownloadVideoActivity params w))
          :: history (fst (transcoder.DownloadVideoActivity params w))
        = new ++ db w :: history w)%list
       ∧ chain (appears (transcoder.VideoID params)) (new ++ [db w]))
  ∧ (is_ok (snd (transcoder.DownloadVideoActivity params w)) = true →
     state_of (transcoder.VideoID params)
       (db (fst (transcoder.DownloadVideoActivity params w)))
     = Some "downloading")
  ∧ (∀ localPath originalPath,
       db (fst (transcoder.ExtractMetadataActivity deps
                  (transcoder.mkDownloadResult (transcoder.VideoID params)
                     localPath originalPath) w)) = db w)
  ∧ db (fst (transcoder.TranscodeVideoActivity deps params w)) = db w.
Proof.
  intros Hnone.
  assert (among (transcoder.VideoID params) [None] (db w)) as Hw.
  { unfold among. apply state_of_None in Hnone. rewrite Hnone. by left. }
  split.
  { apply continues_unchanged. by apply absent_UpdateVideoStatus. }
  split.
  { intros Hr. by rewrite UpdateVideoStatus_reachable. }
  split; [apply updateVideoStatus_eq|].
  split; [apply TranscodeWorkflow_eq|].
  destruct (run_DownloadVideoActivity (transcoder.VideoID params) params eq_refl w Hw)
    as [[_ (new & Hh & Hc)] Hend].
  split.
  { exists new. split; [done|].
    eapply chain_impl; [|exact Hc].
    intros old nw [Hf _] Hold. rewrite Hold in Hf. unfold forward in Hf.
    intuition congruence. }
  split.
  { destruct (snd (transcoder.DownloadVideoActivity params w)); [|done].
    intros _. destruct Hend as [_ Hend]. unfold among in Hend.
    by apply list_elem_of_singleton in Hend. }
  split.
  { intros localPath originalPath. by apply absent_ExtractMetadataActivity. }
  by apply absent_TranscodeVideoActivity.
Qed.

Lemma status_write_without_row_witness :
  db (fst (database.UpdateVideoStatus (transcoder.VideoID params_A) "processing"
             world_A)) = db world_A
  ∧ (reachable world_A →
     snd (database.UpdateVideoStatus (transcoder.VideoID params_A) "processing"
            world_A) = Ok tt)
  ∧ transcoder.updateVideoStatus (transcoder.VideoID params_A) "processing" world_A
    = (world_A, Err (workflow.not_registered "func1" transcoder.registered))
  ∧ transcoder.TranscodeWorkflow deps_A params_A world_A
    = (world_A, Err (workflow.not_registered "func1" transcoder.registered))
  ∧ (∃ new,
       (db (fst (transcoder.DownloadVideoActivity params_A world_A))
          :: history (fst (transcoder.DownloadVideoActivity params_A world_A))
        = new ++ db world_A :: history world_A)%list
       ∧ chain (appears (transcoder.VideoID params_A)) (new ++ [db world_A]))
  ∧ (is_ok (snd (transcoder.DownloadVideoActivity params_A world_A)) = true →
     state_of (transcoder.VideoID params_A)
       (db (fst (transcoder.DownloadVideoActivity params_A world_A)))
     = Some "downloading")
  ∧ (∀ localPath originalPath,
       db (fst (transcoder.ExtractMetadataActivity deps_A
                  (transcoder.mkDownloadResult (transcoder.VideoID params_A)
                     localPath originalPath) world_A)) = db world_A)
  ∧ db (fst (transcoder.TranscodeVideoActivity deps_A params_A world_A))
    = db world_A.
Proof.
  apply (status_write_without_row deps_A params_A "processing" world_A).
  reflexivity.
Defined.

(** * Further properties *)

(** ** The catalog methods *)

Lemma has_video_select_true id d :
  sql.has_video id d = true → ∃ r, sql.select_video id d = Some r.
Proof.
  unfold sql.has_video, sql.select_video.
  induction (sql.videos d) as [|r rows IH]; cbn [existsb find]; [done|].
  destruct (bool_decide (Video.ID r = id)); [eauto | exact IH].
Qed.

Lemma CreateVideo_db_cases video w :
  (is_ok (snd (database.CreateVideo video w)) = true
   ∧ sql.insert_video video (db w) = Ok (db (fst (database.CreateVideo video w))))
  ∨ (is_ok (snd (database.CreateVideo video w)) = false
     ∧ db (fst (database.CreateVideo video w)) = db w
     ∧ history (fst (database.CreateVideo video w)) = history w).
Proof.
  unfold database.CreateVideo, wrap, bind, external, commit.
  destruct (faults w) as [|[e|] q]; cbn [fst snd db history];
    destruct (sql.insert_video video _) as [d'|e'] eqn:Hins; cbn; auto.
Qed.

(** X1. Insert then look up. On a catalog that answers and has no row
    for the id, [CreateVideo] succeeds and [GetVideo] then returns the video
    as given except for its duration, which is the default 0 whatever the
    caller put in the struct, and for its creation and update times, which
    have lost what they had below the microsecond; the rows of the other
    ids are as before. *)
Theorem CreateVideo_then_GetVideo (video : Video.t) (w : World) :
  reachable w →
  sql.select_video (Video.ID video) (db w) = None →
  ∃ w',
    database.CreateVideo video w = (w', Ok tt)
    ∧ snd (database.GetVideo (Video.ID video) w') = Ok (stored_video video)
    ∧ Video.Duration (stored_video video) = 0%float
    ∧ Video.CreatedAt (stored_video video) = (Video.CreatedAt video / 1000 * 1000)%Z
    ∧ Video.UpdatedAt (stored_video video) = (Video.UpdatedAt video / 1000 * 1000)%Z
    ∧ ∀ id, id ≠ Video.ID video →
        sql.select_video id (db w') = sql.select_video id (db w).
Proof.
  intros Hw Hnone.
  assert (sql.has_video (Video.ID video) (db w) = false) as Hhas.
  { destruct (sql.has_video (Video.ID video) (db w)) eqn:Hh; [|done].
    apply has_video_select_true in Hh as [r Hr]. congruence. }
  unfold database.CreateVideo, wrap, bind.
  rewrite external_reachable by done. unfold commit, sql.insert_video.
  rewrite Hhas. eexists. split; [reflexivity|].
  destruct (db w) as [rows vs] eqn:Hdb. cbn [sql.videos sql.video_streams].
  split.
  - rewrite GetVideo_reachable by exact Hw. cbn [db snd].
    rewrite select_video_app, Hnone. cbn [Video.ID].
    by rewrite bool_decide_eq_true_2.
  - do 3 (split; [reflexivity|]). intros id Hne. cbn [db].
    rewrite select_video_app. cbn [Video.ID].
    rewrite bool_decide_eq_false_2 by congruence.
    by destruct (sql.select_video id _).
Qed.

Lemma CreateVideo_then_GetVideo_witness :
  ∃ w',
    database.CreateVideo
      (Video.mk "sample-video-1" "Sample Video" "sample.mp4"
         "uploads/sample-video-1/sample.mp4" "completed" 120.5%float 15728640
         "video/mp4" 1234567 1234999) world_A = (w', Ok tt)
    ∧ snd (database.GetVideo "sample-video-1" w')
      = Ok (stored_video
              (Video.mk "sample-video-1" "Sample Video" "sample.mp4"
                 "uploads/sample-video-1/sample.mp4" "completed" 120.5%float
                 15728640 "video/mp4" 1234567 1234999))
    ∧ Video.Duration
        (stored_video
           (Video.mk "sample-video-1" "Sample Video" "sample.mp4"
              "uploads/sample-video-1/sample.mp4" "completed" 120.5%float
              15728640 "video/mp4" 1234567 1234999)) = 0%float
    ∧ Video.CreatedAt
        (stored_video
           (Video.mk "sample-video-1" "Sample Video" "sample.mp4"
              "uploads/sample-video-1/sample.mp4" "completed" 120.5%float
              15728640 "video/mp4" 1234567 1234999))
      = (1234567 / 1000 * 1000)%Z
    ∧ Video.UpdatedAt
        (stored_video
           (Video.mk "sample-video-1" "Sample Video" "sample.mp4"
              "uploads/sample-video-1/sample.mp4" "completed" 120.5%float
              15728640 "video/mp4" 1234567 1234999))
      = (1234999 / 1000 * 1000)%Z
    ∧ ∀ id, id ≠ "sample-video-1" →
        sql.select_video id (db w') = sql.select_video id (db world_A).
Proof.
  apply (CreateVideo_then_GetVideo
           (Video.mk "sample-video-1" "Sample Video" "sample.mp4"
              "uploads/sample-video-1/sample.mp4" "completed" 120.5%float
              15728640 "video/mp4" 1234567 1234999) world_A).
  - reflexivity.
  - reflexivity.
Defined.

(** A creation time of 1234567 nanoseconds comes back as 1234000. *)
Example CreateVideo_cuts_times :
  snd (database.GetVideo "sample-video-1"
         (fst (database.CreateVideo
                 (Video.mk "sample-video-1" "Sample Video" "sample.mp4"
                    "uploads/sample-video-1/sample.mp4" "completed" 120.5%float
                    15728640 "video/mp4" 1234567 1234999) world_A)))
  = Ok (Video.mk "sample-video-1" "Sample Video" "sample.mp4"
          "uploads/sample-video-1/sample.mp4" "completed" 0%float 15728640
          "video/mp4" 1234000 1234000).
Proof. vm_compute. reflexivity. Qed.

(** X2. One row per id. [CreateVideo] for an id that already has a row
    fails, whatever the catalog's availability, and leaves the tables and
    their history as they were. *)
Theorem CreateVideo_duplicate_refused (video : Video.t) (w : World) (row : Video.t) :
  sql.select_video (Video.ID video) (db w) = Some row →
  is_ok (snd (database.CreateVideo video w)) = false
  ∧ db (fst (database.CreateVideo video w)) = db w
  ∧ history (fst (database.CreateVideo video w)) = history w.
Proof.
  intros Hrow.
  destruct (CreateVideo_db_cases video w) as [[_ Hins]|H]; [|exact H].
  apply insert_video_states in Hins as (Hnone & _).
  apply state_of_None in Hnone. congruence.
Qed.

Lemma CreateVideo_duplicate_refused_witness :
  is_ok (snd (database.CreateVideo
                (Video.mk "vid" "other" "other.mp4" "uploads/vid/other.mp4"
                   "downloading" 0%float 1 "video/mp4" 2000 2000)
                world_A_transcoded)) = false
  ∧ db (fst (database.CreateVideo
               (Video.mk "vid" "other" "other.mp4" "uploads/vid/other.mp4"
                  "downloading" 0%float 1 "video/mp4" 2000 2000)
               world_A_transcoded)) = db world_A_transcoded
  ∧ history (fst (database.CreateVideo
                    (Video.mk "vid" "other" "other.mp4" "uploads/vid/other.mp4"
                       "downloading" 0%float 1 "video/mp4" 2000 2000)
                    world_A_transcoded)) = history world_A_transcoded.
Proof.
  apply (CreateVideo_duplicate_refused
           (Video.mk "vid" "other" "other.mp4" "uploads/vid/other.mp4"
              "downloading" 0%float 1 "video/mp4" 2000 2000)
           world_A_transcoded
           (Video.mk "vid" "movie" "movie.mp4" "uploads/vid/vid.mp4" "transcoding"
              0%float 15728640 "video/mp4" 1000 1000)).
  reflexivity.
Defined.

(** X3. The renditions of a video. With the catalog answering,
    [GetVideoStreams] returns the rows of [video_streams] of that video
    and no other, each once, ordered by resolution text, descending. *)
Theorem GetVideoStreams_of_video (videoID : string) (w : World) :
  reachable w →
  ∃ streams,
    database.GetVideoStreams videoID w = (w, Ok streams)
    ∧ streams ≡ₚ streams_of videoID (db w)
    ∧ Sorted sql.resolution_desc streams
    ∧ ∀ s, s ∈ streams ↔
           s ∈ sql.video_streams (db w) ∧ VideoStream.VideoID s = videoID.
Proof.
  intros Hw. exists (sql.select_streams videoID (db w)).
  split; [by apply GetVideoStreams_reachable|].
  unfold sql.select_streams, streams_of.
  split; [apply merge_sort_Permutation|].
  split; [apply (Sorted_merge_sort _)|].
  intros s. rewrite merge_sort_Permutation, list_elem_of_filter. tauto.
Qed.

Lemma GetVideoStreams_of_video_witness :
  ∃ streams,
    database.GetVideoStreams "vid" world_A_transcoded = (world_A_transcoded, Ok streams)
    ∧ streams ≡ₚ streams_of "vid" (db world_A_transcoded)
    ∧ Sorted sql.resolution_desc streams
    ∧ ∀ s, s ∈ streams ↔
           s ∈ sql.video_streams (db world_A_transcoded) ∧ VideoStream.VideoID s = "vid".
Proof.
  apply (GetVideoStreams_of_video "vid" world_A_transcoded).
  reflexivity.
Defined.

(** X4. A rendition needs its video and a free id. When no row has the
    key (video id, resolution, format) of the stream, [AddVideoStream] is
    refused if another row has the stream's id or if the video has no row;
    the tables stay as they were. *)
Theorem AddVideoStream_refused (stream : VideoStream.t) (w : World) :
  (sql.stream_key stream ∉ map sql.stream_key (sql.video_streams (db w))) →
  VideoStream.ID stream ∈ map VideoStream.ID (sql.video_streams (db w))
  ∨ sql.select_video (VideoStream.VideoID stream) (db w) = None →
  is_ok (snd (database.AddVideoStream stream w)) = false
  ∧ db (fst (database.AddVideoStream stream w)) = db w.
Proof.
  intros Hkey Hwhy.
  assert (∃ e, sql.upsert_stream stream (db w) = Err e) as [e He].
  { unfold sql.upsert_stream.
    destruct (existsb _ (sql.video_streams (db w))) eqn:Hk.
    { apply existsb_key_elem in Hk. done. }
    clear Hk.
    destruct (existsb (λ r, bool_decide (VideoStream.ID r = VideoStream.ID stream)) _)
      eqn:Hid; [eauto|].
    destruct Hwhy as [Hin|Hnone].
    - apply list_elem_of_fmap in Hin as (r & Hr & Hin).
      assert (existsb (λ r, bool_decide (VideoStream.ID r = VideoStream.ID stream))
                (sql.video_streams (db w)) = true) as Ht.
      { apply existsb_exists. exists r. split; [by apply list_elem_of_In|].
        by apply bool_decide_eq_true_2. }
      congruence.
    - destruct (sql.has_video _ (db w)) eqn:Hv; [|eauto].
      apply has_video_select_true in Hv as [r Hr]. congruence. }
  unfold database.AddVideoStream, wrap, bind, external, commit.
  destruct (faults w) as [|[e'|] q]; cbn [fst snd db]; rewrite ?He; done.
Qed.

Lemma AddVideoStream_refused_witness :
  is_ok (snd (database.AddVideoStream
                (VideoStream.mk "ghost-v0" "ghost" "1920x1080" "5000k" "hls"
                   "videos/ghost/hls/ghost_v0.m3u8" 0 10 2000)
                world_A_transcoded)) = false
  ∧ db (fst (database.AddVideoStream
               (VideoStream.mk "ghost-v0" "ghost" "1920x1080" "5000k" "hls"
                  "videos/ghost/hls/ghost_v0.m3u8" 0 10 2000)
               world_A_transcoded)) = db world_A_transcoded.
Proof.
  apply (AddVideoStream_refused
           (VideoStream.mk "ghost-v0" "ghost" "1920x1080" "5000k" "hls"
              "videos/ghost/hls/ghost_v0.m3u8" 0 10 2000)
           world_A_transcoded).
  - apply (bool_decide_eq_false_1 (_ ∈ _)). vm_compute. reflexivity.
  - right. reflexivity.
Defined.

(** ** Publishing again with other bitrates *)

Lemma ladder_views_labels params l l' : ∀ i,
  map ffmpeg.resolution_label l' = map ffmpeg.resolution_label l →
  ladder_views params i l' = ladder_views params i l.
Proof.
  revert l'. induction l as [|res rest IH]; intros [|res' rest'] i Hl;
    cbn [map] in Hl; try done.
  injection Hl as Hres Hrest. cbn [ladder_views]. rewrite Hres. f_equal.
  by apply IH.
Qed.

Lemma descriptors_bitrates params l : ∀ i,
  map transcoder.Bitrate
    (imap (λ k res,
             transcoder.mkStreamInfo (ffmpeg.resolution_label res)
               (Resolution.Bitrate res) "hls"
               (transcoder.streamPath params (i + Z.of_nat k)) 0 10) l)
  = map Resolution.Bitrate l.
Proof.
  induction l as [|res rest IH]; intros i; [reflexivity|].
  rewrite imap_cons. cbn [map transcoder.Bitrate]. f_equal.
  rewrite <- (IH (i + 1)). f_equal. apply imap_ext. intros k r _. simpl.
  do 2 f_equal. lia.
Qed.

(** X5. The bitrate of a rendition is written once. After a publish loop
    that succeeded, a loop over a ladder with the same resolutions in the
    same order but any other bitrates succeeds, reports the new bitrates in
    its descriptors, and leaves the catalog exactly as it was: the rows keep
    the bitrates of the first publish. *)
Theorem republish_keeps_bitrates (params : transcoder.TranscodeParams)
    (ladder ladder' : list Resolution.t) (w1 w2 w2' : World)
    (streams : list transcoder.StreamInfo) :
  streams_unique (db w1) →
  transcoder.record_streams params 0 ladder [] w1 = (w2, Ok streams) →
  map ffmpeg.resolution_label ladder' = map ffmpeg.resolution_label ladder →
  db w2' = db w2 →
  reachable w2' →
  ∃ w3 streams',
    transcoder.record_streams params 0 ladder' [] w2' = (w3, Ok streams')
    ∧ db w3 = db w2
    ∧ map transcoder.Bitrate streams' = map Resolution.Bitrate ladder'.
Proof.
  intros Hu Hrun Hlabels Hdb Hw.
  destruct (record_streams_upserts _ _ _ _ _ _ _ Hrun) as (ss & Hviews & Hall).
  assert (upsert_all (published params 0 ladder' (clock w2')) (db w2') = Ok (db w2))
    as Hagain.
  { rewrite Hdb. apply (upsert_all_twice ss _ (db w1)); [done | done |].
    rewrite published_views, Hviews. by apply ladder_views_labels. }
  destruct (record_streams_reachable params ladder' 0 [] w2' (db w2) Hw Hagain)
    as (w3 & streams' & Hrun' & Hdb3).
  exists w3, streams'. split; [done|]. split; [done|].
  apply record_streams_ok in Hrun' as ->. cbn [app].
  apply descriptors_bitrates.
Qed.

Lemma republish_keeps_bitrates_witness :
  ∃ w3 streams',
    transcoder.record_streams params_A 0
      [Resolution.mk 1920 1080 "8000k"; Resolution.mk 1280 720 "4000k"] []
      world_A_published = (w3, Ok streams')
    ∧ db w3 = db world_A_published
    ∧ map transcoder.Bitrate streams'
      = map Resolution.Bitrate
          [Resolution.mk 1920 1080 "8000k"; Resolution.mk 1280 720 "4000k"].
Proof.
  apply (republish_keeps_bitrates params_A ladder_A
           [Resolution.mk 1920 1080 "8000k"; Resolution.mk 1280 720 "4000k"]
           world_A_analyzed world_A_published world_A_published
           (transcoder.Streams result_A)).
  - apply NoDup_nil_2.
  - vm_compute. reflexivity.
  - reflexivity.
  - reflexivity.
  - reflexivity.
Defined.

(** ** The formats of the detail response *)

Lemma contains_spec slice value :
  streamer.contains slice value = true ↔ value ∈ slice.
Proof.
  induction slice as [|item rest IH]; cbn [streamer.contains].
  - split; [done | by intros ?%elem_of_nil].
  - destruct (decide (item = value)) as [->|Hne].
    + split; [intros _; by left | done].
    + rewrite IH. split; [by right|].
      by intros [?|?]%elem_of_cons.
Qed.

Lemma formats_seen_spec streams : ∀ formats,
  NoDup formats →
  NoDup (formats_seen formats streams)
  ∧ ∀ f, f ∈ formats_seen formats streams ↔
         f ∈ formats ∨ ∃ s, s ∈ streams ∧ VideoStream.Format s = f.
Proof.
  induction streams as [|s rest IH]; intros formats Hnd.
  - cbn. split; [done|]. intros f. split; [by left|].
    intros [?|(s & Hs & _)]; [done | by apply elem_of_nil in Hs].
  - unfold formats_seen. cbn [fold_left]. fold (formats_seen).
    destruct (streamer.contains formats (VideoStream.Format s)) eqn:Hc.
    + apply contains_spec in Hc.
      destruct (IH formats Hnd) as [Hnd' Hin]. split; [done|].
      intros f. rewrite Hin. split.
      * intros [?|(s' & Hs' & Hf)]; [by left|]. right. exists s'. split; [by right|done].
      * intros [? | (s' & [-> | Hs']%elem_of_cons & Hf)]; [by left| |by eauto].
        left. by rewrite <- Hf.
    + assert (VideoStream.Format s ∉ formats) as Hnin.
      { intros Hin%contains_spec. congruence. }
      assert (NoDup (formats ++ [VideoStream.Format s])) as Hnd2.
      { apply NoDup_app. split; [done|]. split; [|apply NoDup_singleton].
        intros f Hf ->%list_elem_of_singleton. done. }
      destruct (IH _ Hnd2) as [Hnd' Hin]. split; [done|].
      intros f. rewrite Hin, elem_of_app, list_elem_of_singleton. split.
      * intros [[? | ->] | (s' & Hs' & Hf)]; [by left | |].
        -- right. exists s. split; [by left | done].
        -- right. exists s'. split; [by right | done].
      * intros [? | (s' & [-> | Hs']%elem_of_cons & Hf)]; [by left; left | |by eauto].
        left. by right.
Qed.

Lemma masters_formats videoID streams : ∀ formats hlsMaster dashMaster w,
  ∃ h d,
    streamer.masters videoID streams formats hlsMaster dashMaster w
    = (w, Ok (formats_seen formats streams, h, d)).
Proof.
  induction streams as [|s rest IH]; intros formats h d w.
  - by exists h, d.
  - cbn [streamer.masters]. unfold formats_seen. cbn [fold_left].
    fold (formats_seen).
    destruct (bool_decide (VideoStream.Format s = "hls")
              && bool_decide (VideoStream.Resolution s = "1920x1080")).
    + unfold bind at 1, attempt. rewrite GetSignedURL_eq. apply IH.
    + destruct (bool_decide (VideoStream.Format s = "dash")
                && bool_decide (VideoStream.Resolution s = "1920x1080")).
      * unfold bind at 1, attempt. rewrite GetSignedURL_eq. apply IH.
      * apply IH.
Qed.

(** X6. The formats of a video. With the catalog answering, the detail of
    a video of the catalog lists each format of its renditions exactly once
    and no other format; a video without renditions has no format. *)
Theorem GetVideoInfo_formats (videoID : string) (w : World) (video : Video.t) :
  reachable w →
  sql.select_video videoID (db w) = Some video →
  ∃ info,
    snd (streamer.GetVideoInfo videoID w) = Ok (streamer.VideoInfo info)
    ∧ NoDup (streamer.Formats info)
    ∧ (∀ f, f ∈ streamer.Formats info ↔
            ∃ s, s ∈ sql.video_streams (db w)
                 ∧ VideoStream.VideoID s = videoID ∧ VideoStream.Format s = f)
    ∧ (streams_of videoID (db w) = [] → streamer.Formats info = []).
Proof.
  intros Hw Hv.
  unfold streamer.GetVideoInfo, bind at 1, attempt at 1.
  rewrite GetVideo_reachable, Hv by done.
  unfold bind at 1, attempt at 1. rewrite GetVideoStreams_reachable by done.
  destruct (masters_formats videoID (sql.select_streams videoID (db w)) [] "" "" w)
    as (h & d & Hm).
  unfold bind. rewrite Hm. eexists. split; [reflexivity|].
  cbn [streamer.Formats].
  destruct (formats_seen_spec (sql.select_streams videoID (db w)) [] (NoDup_nil_2))
    as [Hnd Hin].
  split; [done|]. split.
  - intros f. rewrite Hin. unfold sql.select_streams. split.
    + intros [?%elem_of_nil|(s & Hs & Hf)]; [done|].
      rewrite merge_sort_Permutation in Hs.
      apply list_elem_of_filter in Hs as [Hid Hs]. eauto.
    + intros (s & Hs & Hid & Hf). right. exists s. split; [|done].
      rewrite merge_sort_Permutation. by apply list_elem_of_filter.
  - intros Hempty. unfold sql.select_streams. fold (streams_of videoID (db w)).
    rewrite Hempty. reflexivity.
Qed.

Lemma GetVideoInfo_formats_witness :
  ∃ info,
    snd (streamer.GetVideoInfo "vid" world_A_transcoded) = Ok (streamer.VideoInfo info)
    ∧ NoDup (streamer.Formats info)
    ∧ (∀ f, f ∈ streamer.Formats info ↔
            ∃ s, s ∈ sql.video_streams (db world_A_transcoded)
                 ∧ VideoStream.VideoID s = "vid" ∧ VideoStream.Format s = f)
    ∧ (streams_of "vid" (db world_A_transcoded) = [] → streamer.Formats info = []).
Proof.
  apply (GetVideoInfo_formats "vid" world_A_transcoded
           (Video.mk "vid" "movie" "movie.mp4" "uploads/vid/vid.mp4" "transcoding"
              0%float 15728640 "video/mp4" 1000 1000)).
  - reflexivity.
  - reflexivity.
Defined.
(** ** The errors of the detail operation *)

Lemma GetVideo_outcome videoID o q w :
  faults w = o :: q →
  database.GetVideo videoID w
  = (with_faults q w,
     match o, sql.select_video videoID (db w) with
     | Some e, _ => Err ("failed to get video: " +:+ e)
     | None, Some video => Ok video
     | None, None => Err ("video not found: " +:+ videoID)
     end).
Proof.
  intros Hq. unfold database.GetVideo, bind, wrap, external, query, with_faults.
  rewrite Hq. destruct o as [e|]; [reflexivity|]. cbn [db].
  by destruct (sql.select_video videoID (db w)).
Qed.

Lemma GetVideoStreams_outcome videoID o1 o2 q w :
  faults w = o1 :: o2 :: q →
  snd (database.GetVideoStreams videoID w)
  = match o1, o2 with
    | Some e, _ => Err ("failed to query video streams: " +:+ e)
    | None, Some _ =>
        Ok (take (rows_read (env w)) (sql.select_streams videoID (db w)))
    | None, None => Ok (sql.select_streams videoID (db w))
    end.
Proof.
  intros Hq. unfold database.GetVideoStreams, bind at 1, wrap, external.
  rewrite Hq. destruct o1 as [e|]; [reflexivity|].
  unfold bind at 1, query. cbn [db].
  unfold database.scan_rows, bind, attempt, external, ask. cbn [faults].
  by destruct o2.
Qed.

(** X7. The statuses of the detail operation, by the outcomes of the
    three calls to the catalog. When the lookup of the video fails the
    answer is 404, row or no row, and so it is when the video has no row;
    when the query of the renditions fails the answer is 500; when the
    catalog breaks while the renditions are read, the error is not
    reported: the answer is the detail of the video with the renditions
    read until then. *)
Theorem GetVideoInfo_errors (videoID : string) (w : World)
    (o0 o1 o2 : option error) (q : list (option error)) :
  faults w = o0 :: o1 :: o2 :: q →
  match o0, sql.select_video videoID (db w), o1, o2 with
  | Some e, _, _, _ =>
      snd (streamer.GetVideoInfo videoID w)
      = Ok (streamer.HttpError
              ("Error retrieving video: failed to get video: " +:+ e) 404)
  | None, None, _, _ =>
      snd (streamer.GetVideoInfo videoID w)
      = Ok (streamer.HttpError
              ("Error retrieving video: video not found: " +:+ videoID) 404)
  | None, Some _, Some e, _ =>
      snd (streamer.GetVideoInfo videoID w)
      = Ok (streamer.HttpError
              ("Error retrieving video streams: failed to query video streams: "
               +:+ e) 500)
  | None, Some video, None, Some _ =>
      ∃ info,
        snd (streamer.GetVideoInfo videoID w) = Ok (streamer.VideoInfo info)
        ∧ streamer.Status info = Video.ProcessingState video
        ∧ streamer.Streams info
          = take (rows_read (env w)) (sql.select_streams videoID (db w))
  | None, Some video, None, None =>
      ∃ info,
        snd (streamer.GetVideoInfo videoID w) = Ok (streamer.VideoInfo info)
        ∧ streamer.Status info = Video.ProcessingState video
        ∧ streamer.Streams info = sql.select_streams videoID (db w)
  end.
Proof.
  intros Hq.
  pose proof (GetVideo_outcome videoID o0 (o1 :: o2 :: q) w Hq) as Hg.
  pose proof (GetVideoStreams_outcome videoID o1 o2 q
                (with_faults (o1 :: o2 :: q) w) eq_refl) as Hs.
  cbn [with_faults db env] in Hs.
  destruct o0 as [e|].
  { unfold streamer.GetVideoInfo, bind, attempt. by rewrite Hg. }
  destruct (sql.select_video videoID (db w)) as [video|].
  2: { unfold streamer.GetVideoInfo, bind, attempt. by rewrite Hg. }
  destruct o1 as [e|].
  { unfold streamer.GetVideoInfo, bind at 1, attempt at 1. rewrite Hg.
    unfold bind at 1, attempt at 1.
    destruct (database.GetVideoStreams videoID _) as [w1 r]. cbn [snd] in Hs.
    by subst r. }
  destruct o2 as [e|].
  - unfold streamer.GetVideoInfo, bind at 1, attempt at 1. rewrite Hg.
    unfold bind at 1, attempt at 1.
    destruct (database.GetVideoStreams videoID _) as [w1 r]. cbn [snd] in Hs.
    subst r.
    destruct (masters_formats videoID
                (take (rows_read (env w)) (sql.select_streams videoID (db w)))
                [] "" "" w1) as (hls & dash & Hm).
    unfold bind. rewrite Hm. eexists. split; [reflexivity|]. by split.
  - unfold streamer.GetVideoInfo, bind at 1, attempt at 1. rewrite Hg.
    unfold bind at 1, attempt at 1.
    destruct (database.GetVideoStreams videoID _) as [w1 r]. cbn [snd] in Hs.
    subst r.
    destruct (masters_formats videoID (sql.select_streams videoID (db w))
                [] "" "" w1) as (hls & dash & Hm).
    unfold bind. rewrite Hm. eexists. split; [reflexivity|]. by split.
Qed.

Lemma GetVideoInfo_errors_witness :
  ∃ info,
    snd (streamer.GetVideoInfo "vid" world_A_breaks) = Ok (streamer.VideoInfo info)
    ∧ streamer.Status info = "transcoding"
    ∧ streamer.Streams info
      = take (rows_read (env world_A_breaks))
          (sql.select_streams "vid" (db world_A_breaks)).
Proof.
  exact (GetVideoInfo_errors "vid" world_A_breaks None None
           (Some "unexpected EOF") [] eq_refl).
Defined.

(** In scenario A the catalog holds two renditions of the video; when it
    breaks after the first, the detail lists one, with the status 200 of
    a detail. *)
Example GetVideoInfo_hides_break :
  length (sql.select_streams "vid" (db world_A_breaks)) = 2%nat
  ∧ ∃ info,
      snd (streamer.GetVideoInfo "vid" world_A_breaks)
      = Ok (streamer.VideoInfo info)
      ∧ length (streamer.Streams info) = 1%nat.
Proof. split; [vm_compute; reflexivity|]. eexists. split; vm_compute; reflexivity. Qed.

(** ** Pages of the listing *)

Lemma take_app_drop {A} (l : list A) (n m : nat) :
  (take n l ++ take m (drop n l))%list = take (n + m) l.
Proof.
  revert l. induction n as [|n IH]; intros l; [reflexivity|].
  destruct l as [|x l]; [by rewrite drop_nil, !take_nil|].
  cbn [take drop app Nat.add]. by rewrite IH.
Qed.

Lemma ListVideos_page_eq limit offset w :
  reachable w → (0 ≤ limit)%Z → (0 ≤ offset)%Z →
  database.ListVideos limit offset w
  = (w, Ok (take (Z.to_nat limit)
              (drop (Z.to_nat offset)
                 (merge_sort sql.created_desc
                    (merge_sort (sql.met_by (tie_rank (env w) limit offset))
                       (sql.videos (db w))))))).
Proof.
  intros Hw Hl Ho. rewrite ListVideos_reachable by done.
  by rewrite select_videos_page_ok.
Qed.

Lemma NoDup_fmap_elem {A B} (f : A → B) (l : list A) x y :
  NoDup (map f l) → x ∈ l → y ∈ l → f x = f y → x = y.
Proof.
  induction l as [|a l IH]; cbn [map]; intros Hnd Hx Hy Hf.
  - by apply elem_of_nil in Hx.
  - apply NoDup_cons in Hnd as [Ha Hnd].
    apply elem_of_cons in Hx as [->|Hx]; apply elem_of_cons in Hy as [->|Hy].
    + done.
    + exfalso. apply Ha. rewrite Hf. apply list_elem_of_fmap. eauto.
    + exfalso. apply Ha. rewrite <- Hf. apply list_elem_of_fmap. eauto.
    + by apply IH.
Qed.

(** When no two videos were created at the same time, the order of a
    listing is the same for every execution. *)
Lemma listing_determined rank rows :
  NoDup (map Video.CreatedAt rows) →
  merge_sort sql.created_desc (merge_sort (sql.met_by rank) rows)
  = merge_sort sql.created_desc rows.
Proof.
  intros Hnd. apply (Sorted_unique_strong sql.created_desc).
  - intros x1 x2 H1 H2 H12 H21.
    rewrite !merge_sort_Permutation in H1. rewrite merge_sort_Permutation in H2.
    apply (NoDup_fmap_elem Video.CreatedAt rows); [done..|].
    unfold sql.created_desc in *. lia.
  - apply (Sorted_merge_sort _).
  - apply (Sorted_merge_sort _).
  - by rewrite !merge_sort_Permutation.
Qed.

(** X8. Pages fit together when the creation times tell the videos
    apart. With the catalog answering and unchanged, and no two videos
    created at the same time, the page of [a] videos at an offset followed
    by the page of [b] videos at that offset plus [a] is the page of
    [a + b] videos at the offset: nothing is skipped and nothing is repeated
    between consecutive pages. *)
Theorem ListVideos_pages_compose (a b offset : Z) (w : World) :
  reachable w → (0 ≤ a)%Z → (0 ≤ b)%Z → (0 ≤ offset)%Z →
  NoDup (map Video.CreatedAt (sql.videos (db w))) →
  ∃ first second,
    database.ListVideos a offset w = (w, Ok first)
    ∧ database.ListVideos b (offset + a) w = (w, Ok second)
    ∧ database.ListVideos (a + b) offset w = (w, Ok (first ++ second)%list).
Proof.
  intros Hw Ha Hb Ho Hnd. eexists _, _.
  split; [by apply ListVideos_page_eq|].
  split; [apply ListVideos_page_eq; [done | done | lia]|].
  rewrite ListVideos_page_eq by (done || lia). do 2 f_equal.
  rewrite !listing_determined by done.
  rewrite !Z2Nat.inj_add by done.
  rewrite <- drop_drop. apply eq_sym, take_app_drop.
Qed.

Lemma ListVideos_pages_compose_witness :
  ∃ first second,
    database.ListVideos 1 1 world_D = (world_D, Ok first)
    ∧ database.ListVideos 2 (1 + 1) world_D = (world_D, Ok second)
    ∧ database.ListVideos (1 + 2) 1 world_D
      = (world_D, Ok (first ++ second)%list).
Proof.
  apply (ListVideos_pages_compose 1 2 1 world_D).
  - reflexivity.
  - lia.
  - lia.
  - lia.
  - apply (bool_decide_eq_true_1 (NoDup _)). vm_compute. reflexivity.
Defined.

(** X9. The size of a page. With the catalog answering, a page holds
    videos of the catalog only, as many as the limit allows and the
    catalog has left after the offset; an offset past the last video gives
    the empty page and no error. *)
Theorem ListVideos_page_size (limit offset : Z) (w : World) :
  reachable w → (0 ≤ limit)%Z → (0 ≤ offset)%Z →
  ∃ page,
    database.ListVideos limit offset w = (w, Ok page)
    ∧ length page
      = (Z.to_nat limit `min` (length (sql.videos (db w)) - Z.to_nat offset))%nat
    ∧ (∀ v, v ∈ page → v ∈ sql.videos (db w))
    ∧ ((length (sql.videos (db w)) ≤ Z.to_nat offset)%nat → page = []).
Proof.
  intros Hw Hl Ho. eexists. split; [by apply ListVideos_page_eq|].
  destruct (listing_order (tie_rank (env w) limit offset) (sql.videos (db w)))
    as [Hperm _].
  set (sorted := merge_sort sql.created_desc _) in *.
  assert (length sorted = length (sql.videos (db w))) as Hlen by (by rewrite Hperm).
  split; [by rewrite length_take, length_drop, Hlen|]. split.
  - intros v Hv. apply subseteq_take, subseteq_drop in Hv.
    by rewrite Hperm in Hv.
  - intros Hpast. rewrite drop_ge by lia. apply take_nil.
Qed.

Lemma ListVideos_page_size_witness :
  ∃ page,
    database.ListVideos 10 5 world_A_transcoded = (world_A_transcoded, Ok page)
    ∧ length page
      = (Z.to_nat 10
         `min` (length (sql.videos (db world_A_transcoded)) - Z.to_nat 5))%nat
    ∧ (∀ v, v ∈ page → v ∈ sql.videos (db world_A_transcoded))
    ∧ ((length (sql.videos (db world_A_transcoded)) ≤ Z.to_nat 5)%nat → page = []).
Proof.
  apply (ListVideos_page_size 10 5 world_A_transcoded).
  - reflexivity.
  - lia.
  - lia.
Defined.

(** X10. A negative limit or offset. PostgreSQL refuses the statement
    when it executes it; the refusal arrives while the rows are read and
    is not looked at. With the catalog answering, the listing of a caller
    who supplied a negative limit or offset is answered as a page: no
    video, whatever the catalog holds, and the pagination as supplied; the
    world is as it was. *)
Theorem ListVideos_negative (limit_q offset_q : string) (limit offset : Z)
    (w : World) :
  reachable w →
  limit_q ≠ "" → Sscanf_d (env w) limit_q = Some limit →
  offset_q ≠ "" → Sscanf_d (env w) offset_q = Some offset →
  (limit < 0 ∨ offset < 0)%Z →
  streamer.ListVideos limit_q offset_q w
  = (w, Ok (streamer.VideoList [] limit offset)).
Proof.
  intros Hw Hlq Hl Hoq Ho Hneg.
  unfold streamer.ListVideos, bind at 1, ask.
  rewrite (query_int_scanned (env w) limit_q 10 limit Hlq Hl).
  rewrite (query_int_scanned (env w) offset_q 0 offset Hoq Ho).
  unfold bind, attempt. rewrite ListVideos_reachable by done.
  assert (∃ e, sql.select_videos_page (tie_rank (env w) limit offset)
                 limit offset (db w) = Err e) as [e ->]; [|reflexivity].
  unfold sql.select_videos_page.
  destruct (decide (limit < 0)); [eauto|].
  destruct (decide (offset < 0)); [eauto|]. lia.
Qed.

Lemma ListVideos_negative_witness :
  streamer.ListVideos "-1" "0" world_C
  = (world_C, Ok (streamer.VideoList [] (-1) 0)).
Proof.
  apply (ListVideos_negative "-1" "0" (-1) 0 world_C).
  - reflexivity.
  - discriminate.
  - reflexivity.
  - discriminate.
  - reflexivity.
  - left. lia.
Defined.

(** ** The encode command *)

Lemma variants_args_length f outputDir seg l : ∀ i args content,
  length (fst (ffmpeg.variants f outputDir seg i l args content))
  = (length args + 23 * length l)%nat.
Proof.
  induction l as [|res rest IH]; intros i args content; cbn [ffmpeg.variants].
  - cbn [fst length]. lia.
  - rewrite IH, length_app. cbn [length]. lia.
Qed.

(** X12. One run of the tool for the whole ladder. [TranscodeToHLS] runs
    exactly one command, whatever the length of the ladder: the binary,
    with the input and the thread count followed by 23 arguments per ladder
    entry; it leaves the catalog alone, succeeds when the command does and
    otherwise fails with the command's error followed by what the tool
    printed. *)
Theorem TranscodeToHLS_one_command (f : ffmpeg.FFmpeg)
    (inputFile outputDir segmentFilename : string)
    (resolutions : list Resolution.t) (w : World) :
  commands (fst (ffmpeg.TranscodeToHLS f inputFile outputDir segmentFilename
                   resolutions w))
  = (commands w
     ++ [(ffmpeg.BinaryPath f,
          ffmpeg.hls_args f inputFile outputDir segmentFilename resolutions)])%list
  ∧ length (ffmpeg.hls_args f inputFile outputDir segmentFilename resolutions)
    = (4 + 23 * length resolutions)%nat
  ∧ take 4 (ffmpeg.hls_args f inputFile outputDir segmentFilename resolutions)
    = ["-i"; inputFile; "-threads"; fmt.d (ffmpeg.ThreadCount f)]
  ∧ db (fst (ffmpeg.TranscodeToHLS f inputFile outputDir segmentFilename
               resolutions w)) = db w
  ∧ snd (ffmpeg.TranscodeToHLS f inputFile outputDir segmentFilename
           resolutions w)
    = match faults w with
      | Some err :: _ =>
          Err ("failed to transcode: " +:+ err +:+ " - " +:+ tool_stderr (env w))
      | _ => Ok tt
      end.
Proof.
  split; [|split; [|split; [|split]]].
  - unfold ffmpeg.TranscodeToHLS, bind, ask, attempt, run_command, external.
    cbn [faults env commands].
    by destruct (faults w) as [|[e|] q].
  - unfold ffmpeg.hls_args. rewrite length_app, variants_args_length. cbn. lia.
  - reflexivity.
  - unfold ffmpeg.TranscodeToHLS, bind, ask, attempt, run_command, external.
    cbn [faults env commands].
    by destruct (faults w) as [|[e|] q].
  - unfold ffmpeg.TranscodeToHLS, bind, ask, attempt, run_command, external.
    cbn [faults env commands].
    by destruct (faults w) as [|[e|] q].
Qed.

(** ** The Transcode stage when it fails *)

(** X13. No row, no transcode. For a video without row the Transcode
    stage fails, whatever the catalog's availability, before it writes
    anything or runs the tool. *)
Theorem TranscodeVideoActivity_without_row (deps : transcoder.ActivityDependencies)
    (params : transcoder.TranscodeParams) (w : World) :
  sql.select_video (transcoder.VideoID params) (db w) = None →
  is_ok (snd (transcoder.TranscodeVideoActivity deps params w)) = false
  ∧ db (fst (transcoder.TranscodeVideoActivity deps params w)) = db w
  ∧ history (fst (transcoder.TranscodeVideoActivity deps params w)) = history w
  ∧ commands (fst (transcoder.TranscodeVideoActivity deps params w)) = commands w.
Proof.
  intros Hnone.
  unfold transcoder.TranscodeVideoActivity, bind at 1, database.GetVideo.
  unfold bind, wrap, external, query.
  destruct (faults w) as [|[e|] q]; cbn [fst snd db history commands];
    rewrite ?Hnone; done.
Qed.

Lemma TranscodeVideoActivity_without_row_witness :
  is_ok (snd (transcoder.TranscodeVideoActivity deps_A params_A world_A)) = false
  ∧ db (fst (transcoder.TranscodeVideoActivity deps_A params_A world_A))
    = db world_A
  ∧ history (fst (transcoder.TranscodeVideoActivity deps_A params_A world_A))
    = history world_A
  ∧ commands (fst (transcoder.TranscodeVideoActivity deps_A params_A world_A))
    = commands world_A.
Proof.
  apply (TranscodeVideoActivity_without_row deps_A params_A world_A).
  reflexivity.
Defined.

(** X14. A tool failure. For a video of the catalog and a configured
    ladder, when the catalog answers and the tool fails, the Transcode stage
    fails with the tool's error and what the tool printed; the video is by
    then recorded as [transcoding] and no rendition has been written. *)
Theorem TranscodeVideoActivity_tool_failure (deps : transcoder.ActivityDependencies)
    (params : transcoder.TranscodeParams) (w : World) (video : Video.t)
    (ladder : list Resolution.t) (e : error) (q : list (option error)) :
  faults w = None :: None :: None :: Some e :: q →
  sql.select_video (transcoder.VideoID params) (db w) = Some video →
  ladder_config (env w) = Ok ladder →
  snd (transcoder.TranscodeVideoActivity deps params w)
    = Err ("failed to transcode: " +:+ e +:+ " - " +:+ tool_stderr (env w))
  ∧ db (fst (transcoder.TranscodeVideoActivity deps params w))
    = sql.update_status "transcoding" (transcoder.VideoID params) (clock w) (db w)
  ∧ state_of (transcoder.VideoID params)
      (db (fst (transcoder.TranscodeVideoActivity deps params w)))
    = Some "transcoding"
  ∧ sql.video_streams (db (fst (transcoder.TranscodeVideoActivity deps params w)))
    = sql.video_streams (db w)
  ∧ faults (fst (transcoder.TranscodeVideoActivity deps params w)) = q.
Proof.
  intros Hq Hv Hl.
  assert (transcoder.TranscodeVideoActivity deps params w
          = (mkWorld
               (sql.update_status "transcoding" (transcoder.VideoID params)
                  (clock w) (db w))
               (db w :: history w) q (clock w + 1)
               (commands w
                ++ [(ffmpeg.BinaryPath (transcoder.FFmpeg deps),
                     ffmpeg.hls_args (transcoder.FFmpeg deps)
                       (filepath.Join
                          (filepath.Dir
                             (filepath.Join (TempDir (env w))
                                ("transcode-" +:+ transcoder.VideoID params)))
                          (filepath.Base (transcoder.ObjectKey params)))
                       (filepath.Join (TempDir (env w))
                          (("output-" +:+ transcoder.VideoID params)
                           +:+ temp_suffix (env w)))
                       (transcoder.VideoID params) ladder)])%list
               (env w),
             Err ("failed to transcode: " +:+ e +:+ " - " +:+ tool_stderr (env w))))
    as ->.
  { destruct w as [d h fs c cs en]. cbn [faults db env clock history commands] in *.
    subst fs.
    unfold transcoder.TranscodeVideoActivity, database.GetVideo,
      database.UpdateVideoStatus, transcoder.MkdirTemp, ffmpeg.TranscodeToHLS,
      run_command.
    unfold bind, wrap, external, query, ret, fail, ask, lift, attempt, Now, commit.
    cbn [faults db env clock history commands fst snd].
    rewrite Hv. cbn [faults db env clock history commands fst snd].
    rewrite Hl. reflexivity. }
  cbn [fst snd db faults]. split; [done|]. split; [done|]. split; [|done].
  rewrite state_of_update_status_same. unfold state_of. by rewrite Hv.
Qed.

Lemma TranscodeVideoActivity_tool_failure_witness :
  snd (transcoder.TranscodeVideoActivity deps_A params_A world_A_tool_fails)
    = Err ("failed to transcode: " +:+ "exit status 1" +:+ " - "
           +:+ tool_stderr (env world_A_tool_fails))
  ∧ db (fst (transcoder.TranscodeVideoActivity deps_A params_A world_A_tool_fails))
    = sql.update_status "transcoding" (transcoder.VideoID params_A)
        (clock world_A_tool_fails) (db world_A_tool_fails)
  ∧ state_of (transcoder.VideoID params_A)
      (db (fst (transcoder.TranscodeVideoActivity deps_A params_A
                  world_A_tool_fails)))
    = Some "transcoding"
  ∧ sql.video_streams
      (db (fst (transcoder.TranscodeVideoActivity deps_A params_A
                  world_A_tool_fails)))
    = sql.video_streams (db world_A_tool_fails)
  ∧ faults (fst (transcoder.TranscodeVideoActivity deps_A params_A
                   world_A_tool_fails)) = [].
Proof.
  apply (TranscodeVideoActivity_tool_failure deps_A params_A world_A_tool_fails
           (Video.mk "vid" "movie" "movie.mp4" "uploads/vid/vid.mp4" "analyzing"
              0%float 15728640 "video/mp4" 1000 1000)
           ladder_A "exit status 1" []).
  - reflexivity.
  - vm_compute. reflexivity.
  - reflexivity.
Defined.

(** ** A publish loop that is interrupted *)

Lemma AddVideoStream_pop s w o q :
  faults w = o :: q →
  database.AddVideoStream s w
  = match o with
    | Some e =>
        (with_faults q w, Err ("failed to insert video stream: " +:+ e))
    | None =>
        match sql.upsert_stream s (db w) with
        | Ok d' =>
            (mkWorld d' (db w :: history w) q (clock w) (commands w) (env w),
             Ok tt)
        | Err e =>
            (with_faults q w, Err ("failed to insert video stream: " +:+ e))
        end
    end.
Proof.
  destruct w as [d h fs c cs en]. cbn [faults db history clock commands env].
  intros ->.
  unfold database.AddVideoStream, wrap, bind, external, commit, with_faults.
  cbn [faults db history clock commands env].
  destruct o as [e|]; [reflexivity|].
  cbn [faults db history clock commands env].
  by destruct (sql.upsert_stream s d).
Qed.

Lemma record_streams_interrupted params l : ∀ n e q i acc w d',
  faults w = (replicate n None ++ Some e :: q)%list →
  (n < length l)%nat →
  upsert_all (published params i (take n l) (clock w)) (db w) = Ok d' →
  ∃ w', transcoder.record_streams params i l acc w
        = (w', Err ("failed to insert video stream: " +:+ e))
        ∧ db w' = d' ∧ faults w' = q.
Proof.
  induction l as [|res rest IH]; intros n e q i acc w d' Hq Hn Hall;
    [cbn in Hn; lia|].
  cbn [transcoder.record_streams]. unfold bind at 1. unfold Now.
  set (w1 := mkWorld (db w) (history w) (faults w) (clock w + 1) (commands w)
               (env w)).
  unfold bind at 1.
  destruct n as [|n].
  - cbn [replicate app] in Hq. cbn [take published upsert_all] in Hall.
    injection Hall as <-.
    rewrite (AddVideoStream_pop _ w1 (Some e) q Hq). by eexists.
  - cbn [replicate app] in Hq. cbn [take published upsert_all] in Hall.
    rewrite (AddVideoStream_pop _ w1 None _ Hq). cbn [db w1].
    destruct (sql.upsert_stream _ (db w)) as [d1|e1]; [|done].
    apply IH with (n := n); [reflexivity | cbn in Hn; lia | exact Hall].
Qed.

(** X15. No rollback in the publish loop. When the catalog answers [n]
    upserts of the loop and then fails, with [n] less than the length of the
    ladder, the loop fails with that error and the catalog keeps the
    renditions of the first [n] ladder entries. *)
Theorem record_streams_no_rollback (params : transcoder.TranscodeParams)
    (l : list Resolution.t) (n : nat) (e : error) (q : list (option error))
    (i : Z) (acc : list transcoder.StreamInfo) (w : World) (d' : sql.DB) :
  faults w = (replicate n None ++ Some e :: q)%list →
  (n < length l)%nat →
  upsert_all (published params i (take n l) (clock w)) (db w) = Ok d' →
  snd (transcoder.record_streams params i l acc w)
    = Err ("failed to insert video stream: " +:+ e)
  ∧ db (fst (transcoder.record_streams params i l acc w)) = d'
  ∧ faults (fst (transcoder.record_streams params i l acc w)) = q.
Proof.
  intros Hq Hn Hall.
  destruct (record_streams_interrupted params l n e q i acc w d' Hq Hn Hall)
    as (w' & -> & Hdb & Hfaults).
  done.
Qed.

(** Scenario A after the analysis, with a catalog that answers one upsert
    of the publish loop and then drops the connection. *)
Lemma record_streams_no_rollback_witness :
  snd (transcoder.record_streams params_A 0 ladder_A []
         (with_faults [None; Some "connection reset"] world_A_analyzed))
    = Err ("failed to insert video stream: " +:+ "connection reset")
  ∧ db (fst (transcoder.record_streams params_A 0 ladder_A []
               (with_faults [None; Some "connection reset"] world_A_analyzed)))
    = sql.mkDB (sql.videos (db world_A_analyzed))
        [VideoStream.mk "vid-v0" "vid" "1920x1080" "5000k" "hls"
           "videos/vid/hls/vid_v0.m3u8" 0 10 1000]
  ∧ faults (fst (transcoder.record_streams params_A 0 ladder_A []
                   (with_faults [None; Some "connection reset"]
                      world_A_analyzed))) = [].
Proof.
  apply (record_streams_no_rollback params_A ladder_A 1 "connection reset" [] 0 []
           (with_faults [None; Some "connection reset"] world_A_analyzed)).
  - reflexivity.
  - vm_compute. lia.
  - vm_compute. reflexivity.
Defined.

(** ** The names of the renditions *)

Lemma string_app_inv_tail (a b c : string) : a +:+ c = b +:+ c → a = b.
Proof.
  revert b. induction a as [|x a IH]; intros [|y b] H.
  - reflexivity.
  - apply (f_equal String.length) in H.
    rewrite (length_app_string (String y b)) in H. cbn in H. lia.
  - apply (f_equal String.length) in H.
    rewrite (length_app_string (String x a)) in H. cbn in H. lia.
  - cbn in H. injection H as -> H. f_equal. by apply IH.
Qed.

Lemma playlistFile_inj seg i j :
  ffmpeg.playlistFile seg i = ffmpeg.playlistFile seg j → i = j.
Proof.
  unfold ffmpeg.playlistFile, ffmpeg.variantName, fmt.d.
  intros H%String.app_inj. cbn in H. injection H as H.
  apply string_app_inv_tail in H. by apply (inj pretty) in H.
Qed.

Lemma streamPath_inj params i j :
  transcoder.streamPath params i = transcoder.streamPath params j → i = j.
Proof.
  unfold transcoder.streamPath.
  intros H%String.app_inj%String.app_inj%String.app_inj.
  by apply playlistFile_inj in H.
Qed.

Lemma TranscodeVideoActivity_ladder deps params w w' r :
  transcoder.TranscodeVideoActivity deps params w = (w', Ok r) →
  ∃ ladder, ladder_config (env w) = Ok ladder
            ∧ transcoder.Streams r = imap (descriptor params) ladder.
Proof.
  intros Hrun.
  destruct (ladder_config (env w)) as [ladder|err] eqn:Hladder.
  { exists ladder. split; [done|].
    by apply (TranscodeVideoActivity_streams deps params w w'). }
  exfalso. revert Hrun. unfold transcoder.TranscodeVideoActivity.
  intros (w1 & video & H1 & H)%bind_ok_inv.
  apply bind_ok_inv in H as (w2 & [] & H2 & H).
  apply bind_ok_inv in H as (w3 & outputDir & H3 & H).
  apply bind_ok_inv in H as (w4 & e & H4 & H).
  apply bind_ok_inv in H as (w5 & resolutions & H5 & H).
  unfold ask in H4. injection H4 as <- <-. unfold lift in H5.
  injection H5 as _ H5.
  pose proof (keeps_env_GetVideo (transcoder.VideoID params) w) as E1.
  pose proof (keeps_env_UpdateVideoStatus (transcoder.VideoID params)
                "transcoding" w1) as E2.
  pose proof (keeps_env_MkdirTemp ("output-" +:+ transcoder.VideoID params) w2)
    as E3.
  rewrite H1 in E1. rewrite H2 in E2. rewrite H3 in E3. simpl in E1, E2, E3.
  rewrite E3, E2, E1, Hladder in H5. done.
Qed.

(** X16. One playlist per ladder entry. The descriptors a successful
    Transcode stage reports have pairwise distinct playlist keys, whatever
    the ladder: also when the ladder lists a resolution twice. *)
Theorem TranscodeVideoActivity_distinct_paths
    (deps : transcoder.ActivityDependencies)
    (params : transcoder.TranscodeParams) (w w' : World)
    (r : transcoder.TranscodeResult) :
  transcoder.TranscodeVideoActivity deps params w = (w', Ok r) →
  NoDup (map transcoder.Path (transcoder.Streams r)).
Proof.
  intros (ladder & _ & ->)%TranscodeVideoActivity_ladder.
  apply NoDup_alt. intros i j path Hi Hj.
  rewrite list_lookup_fmap, list_lookup_imap in Hi, Hj.
  destruct (ladder !! i) as [ri|]; [|done].
  destruct (ladder !! j) as [rj|]; [|done].
  cbn in Hi, Hj. injection Hi as Hi. injection Hj as Hj.
  rewrite <- Hj in Hi. apply streamPath_inj in Hi. lia.
Qed.

Lemma TranscodeVideoActivity_distinct_paths_witness :
  NoDup (map transcoder.Path (transcoder.Streams result_A)).
Proof.
  apply (TranscodeVideoActivity_distinct_paths deps_A params_A world_A_analyzed
           (fst (transcoder.TranscodeVideoActivity deps_A params_A world_A_analyzed))
           result_A).
  vm_compute. reflexivity.
Defined.

(** X17. The gateway serves what the transcoder recorded. For the
    playlist of ladder entry [i] of a video, the HLS handler looks up and
    signs exactly the key the publish loop stored as the path of that
    rendition, and serves a cached copy as a playlist. *)
Theorem recorded_path_is_served (params : transcoder.TranscodeParams) (i : Z)
    (w : World) :
  streamer.ServeHLSFile (transcoder.VideoID params)
    (ffmpeg.playlistFile (transcoder.VideoID params) i) w
  = (w, Ok (cache_aside w
              (redis_get (env w) ("hls:" +:+ transcoder.streamPath params i))
              "application/x-mpegURL"
              (transcoder.streamPath params i))).
Proof.
  rewrite ServeHLSFile_eq. unfold hls_content_type.
  assert (streamer.isM3U8File
            (ffmpeg.playlistFile (transcoder.VideoID params) i) = true) as ->.
  { apply isM3U8File_spec.
    exists (transcoder.VideoID params +:+ "_" +:+ ffmpeg.variantName i). split.
    - intros H%(f_equal String.length). rewrite length_app_string in H.
      cbn in H. lia.
    - unfold ffmpeg.playlistFile. by rewrite !string_app_assoc. }
  reflexivity.
Qed.

(** ** A run and the other videos *)

Section Others.

Variable videoID : string.

































End Others.







(** ** An id that is submitted again *)

Lemma has_video_update_status id status videoID now d :
  sql.has_video id (sql.update_status status videoID now d) = sql.has_video id d.
Proof.
  unfold sql.has_video, sql.update_status. cbn [sql.videos].
  induction (sql.videos d) as [|r rows IH]; cbn [map existsb]; [done|].
  rewrite IH. by destruct (decide (Video.ID r = videoID)).
Qed.

Lemma DownloadVideoActivity_existing params w :
  sql.has_video (transcoder.VideoID params) (db w) = true →
  ∃ e w', transcoder.DownloadVideoActivity params w = (w', Err e)
          ∧ db w' = db w ∧ history w' = history w.
Proof.
  intros Hrow.
  unfold transcoder.DownloadVideoActivity, transcoder.MkdirTemp,
    storage.DownloadFile, transcoder.getFileSize, database.CreateVideo.
  unfold bind, wrap, external, ask, Now, commit, ret.
  destruct w as [d h fs c cs en]. cbn [faults db history clock commands env] in *.
  destruct fs as [|[e1|] [|[e2|] [|[e3|] q]]];
    cbn [faults db history clock commands env];
    unfold sql.insert_video; cbn [Video.ID]; rewrite ?Hrow; eauto.
Qed.

Lemma retried_Download_existing params n : ∀ w,
  sql.has_video (transcoder.VideoID params) (db w) = true →
  ∃ e w', workflow.run_attempts n (transcoder.DownloadVideoActivity params) w
          = (w', Err e)
          ∧ db w' = db w ∧ history w' = history w.
Proof.
  induction n as [|n IH]; intros w Hrow; cbn [workflow.run_attempts].
  - by apply DownloadVideoActivity_existing.
  - unfold bind, attempt.
    destruct (DownloadVideoActivity_existing params w Hrow)
      as (e & w1 & -> & Hdb & Hh).
    destruct (IH w1) as (e' & w' & -> & Hdb' & Hh'); [by rewrite Hdb|].
    exists e', w'. split; [done|]. split; congruence.
Qed.




(** X20. The Download stage of an id that has a row. Under its retry
    policy of three attempts the stage fails for a video id that already
    has a row, whatever the availability of the services, and leaves the
    tables and their history as they were: the row keeps the state it
    had. *)
Theorem resubmitted_download_refused (params : transcoder.TranscodeParams)
    (w : World) :
  sql.has_video (transcoder.VideoID params) (db w) = true →
  is_ok (snd (workflow.ExecuteActivity transcoder.registered 3
                "DownloadVideoActivity"
                (transcoder.DownloadVideoActivity params) w)) = false
  ∧ db (fst (workflow.ExecuteActivity transcoder.registered 3
               "DownloadVideoActivity"
               (transcoder.DownloadVideoActivity params) w)) = db w
  ∧ history (fst (workflow.ExecuteActivity transcoder.registered 3
                    "DownloadVideoActivity"
                    (transcoder.DownloadVideoActivity params) w)) = history w.
Proof.
  intros Hrow.
  change (workflow.ExecuteActivity transcoder.registered 3
            "DownloadVideoActivity" (transcoder.DownloadVideoActivity params))
    with (workflow.run_attempts 2 (transcoder.DownloadVideoActivity params)).
  by destruct (retried_Download_existing params 2 w Hrow) as (e & w' & -> & ? & ?).
Qed.

Lemma resubmitted_download_refused_witness :
  is_ok (snd (workflow.ExecuteActivity transcoder.registered 3
                "DownloadVideoActivity"
                (transcoder.DownloadVideoActivity params_A)
                world_A_transcoded)) = false
  ∧ db (fst (workflow.ExecuteActivity transcoder.registered 3
               "DownloadVideoActivity"
               (transcoder.DownloadVideoActivity params_A)
               world_A_transcoded)) = db world_A_transcoded
  ∧ history (fst (workflow.ExecuteActivity transcoder.registered 3
                    "DownloadVideoActivity"
                    (transcoder.DownloadVideoActivity params_A)
                    world_A_transcoded)) = history world_A_transcoded.
Proof.
  apply (resubmitted_download_refused params_A world_A_transcoded).
  vm_compute. reflexivity.
Defined.

(** ** The file the encoder reads *)

Lemma quiet_ret {A} (a : A) : quiet (ret a).
Proof. by intros w. Qed.

Lemma quiet_fail {A} e : quiet (@fail A e).
Proof. by intros w. Qed.

Lemma quiet_lift {A} (r : result A) : quiet (lift r).
Proof. by intros w. Qed.

Lemma quiet_ask : quiet ask.
Proof. by intros w. Qed.

Lemma quiet_query {A} (q : sql.DB → A) : quiet (query q).
Proof. by intros w. Qed.

Lemma quiet_Now : quiet Now.
Proof. by intros w. Qed.

Lemma quiet_external : quiet external.
Proof. intros w. unfold external. by destruct (faults w). Qed.

Lemma quiet_commit stmt : quiet (commit stmt).
Proof. intros w. unfold commit. by destruct (stmt (db w)). Qed.

Lemma quiet_bind {A B} (m : M A) (k : A → M B) :
  quiet m → (∀ a, quiet (k a)) → quiet (bind m k).
Proof.
  intros Hm Hk w. unfold bind. specialize (Hm w).
  destruct (m w) as [w1 [a|e]]; cbn [fst] in *; [|done].
  by rewrite Hk.
Qed.

Lemma quiet_wrap {A} prefix (m : M A) : quiet m → quiet (wrap prefix m).
Proof.
  intros Hm w. unfold wrap. specialize (Hm w). by destruct (m w) as [w1 [a|e]].
Qed.

Ltac quiet :=
  repeat first
    [ apply quiet_bind
    | apply quiet_wrap
    | apply quiet_ret
    | apply quiet_fail
    | apply quiet_lift
    | apply quiet_ask
    | apply quiet_query
    | apply quiet_Now
    | apply quiet_external
    | apply quiet_commit
    | match goal with |- ∀ _, _ => intros ? end
    | match goal with |- quiet (match ?x with _ => _ end) => destruct x end ].

Lemma quiet_GetVideo videoID : quiet (database.GetVideo videoID).
Proof. unfold database.GetVideo. quiet. Qed.

Lemma quiet_UpdateVideoStatus videoID status :
  quiet (database.UpdateVideoStatus videoID status).
Proof. unfold database.UpdateVideoStatus. quiet. Qed.

Lemma quiet_MkdirTemp pattern : quiet (transcoder.MkdirTemp pattern).
Proof. unfold transcoder.MkdirTemp. quiet. Qed.

Lemma quiet_record_streams params l : ∀ i acc,
  quiet (transcoder.record_streams params i l acc).
Proof.
  induction l as [|res rest IH]; intros i acc; cbn [transcoder.record_streams].
  - apply quiet_ret.
  - apply quiet_bind; [apply quiet_Now|]. intros now.
    apply quiet_bind; [unfold database.AddVideoStream; quiet|].
    intros _. apply IH.
Qed.

Lemma TranscodeToHLS_commands f inputFile outputDir segmentFilename resolutions w :
  commands (fst (ffmpeg.TranscodeToHLS f inputFile outputDir segmentFilename
                   resolutions w))
  = (commands w
     ++ [(ffmpeg.BinaryPath f,
          ffmpeg.hls_args f inputFile outputDir segmentFilename resolutions)])%list.
Proof.
  unfold ffmpeg.TranscodeToHLS, bind, ask, attempt, run_command, external.
  cbn [faults env commands].
  by destruct (faults w) as [|[e|] q].
Qed.

Lemma keeps_env_TranscodeToHLS f inputFile outputDir segmentFilename resolutions :
  keeps_env (ffmpeg.TranscodeToHLS f inputFile outputDir segmentFilename
               resolutions).
Proof.
  intros w.
  unfold ffmpeg.TranscodeToHLS, bind, ask, attempt, run_command, external.
  cbn [faults env commands].
  by destruct (faults w) as [|[e|] q].
Qed.

(** The Transcode stage runs the tool at most once, on the file named
    after the object in the parent of [transcode-<id>]. *)
Lemma TranscodeVideoActivity_commands deps params w :
  ∃ cs,
    commands (fst (transcoder.TranscodeVideoActivity deps params w))
    = (commands w ++ cs)%list
    ∧ (cs = []
       ∨ ∃ outputDir ladder,
           cs = [(ffmpeg.BinaryPath (transcoder.FFmpeg deps),
                  ffmpeg.hls_args (transcoder.FFmpeg deps)
                    (filepath.Join
                       (filepath.Dir
                          (filepath.Join (TempDir (env w))
                             ("transcode-" +:+ transcoder.VideoID params)))
                       (filepath.Base (transcoder.ObjectKey params)))
                    outputDir (transcoder.VideoID params) ladder)]).
Proof.
  unfold transcoder.TranscodeVideoActivity. unfold bind at 1.
  pose proof (quiet_GetVideo (transcoder.VideoID params) w) as C1.
  pose proof (keeps_env_GetVideo (transcoder.VideoID params) w) as E1.
  destruct (database.GetVideo _ w) as [w1 [video|e]]; cbn [fst] in *;
    [|exists []; rewrite app_nil_r; auto].
  unfold bind at 1.
  pose proof (quiet_UpdateVideoStatus (transcoder.VideoID params) "transcoding" w1)
    as C2.
  pose proof (keeps_env_UpdateVideoStatus (transcoder.VideoID params)
                "transcoding" w1) as E2.
  destruct (database.UpdateVideoStatus _ _ w1) as [w2 [[]|e]]; cbn [fst] in *;
    [|exists []; rewrite app_nil_r; split; [congruence | auto]].
  unfold bind at 1.
  pose proof (quiet_MkdirTemp ("output-" +:+ transcoder.VideoID params) w2) as C3.
  pose proof (keeps_env_MkdirTemp ("output-" +:+ transcoder.VideoID params) w2)
    as E3.
  destruct (transcoder.MkdirTemp _ w2) as [w3 [outputDir|e]]; cbn [fst] in *;
    [|exists []; rewrite app_nil_r; split; [congruence | auto]].
  unfold bind at 1. unfold ask at 1. unfold bind at 1. unfold lift at 1.
  destruct (ladder_config (env w3)) as [ladder|e];
    [|exists []; rewrite app_nil_r; split; [cbn [fst]; congruence | auto]].
  unfold bind at 1.
  match goal with
  | |- context [ffmpeg.TranscodeToHLS ?f ?i ?o ?s ?l w3] =>
      pose proof (TranscodeToHLS_commands f i o s l w3) as C4;
      destruct (ffmpeg.TranscodeToHLS f i o s l w3) as [w4 [[]|e]]
  end; cbn [fst] in *.
  - unfold bind at 1.
    pose proof (quiet_record_streams params ladder 0 [] w4) as C5.
    destruct (transcoder.record_streams params 0 ladder [] w4)
      as [w5 [streams|e]]; cbn [fst] in *;
      (eexists; split; [|right; by exists outputDir, ladder]);
      unfold ret; cbn [fst];
      rewrite C5, C4, C3, C2, C1, E3, E2, E1; reflexivity.
  - eexists; split; [|right; by exists outputDir, ladder].
    rewrite C4, C3, C2, C1, E3, E2, E1; reflexivity.
Qed.

Lemma length_string_of_list_ascii l :
  String.length (string_of_list_ascii l) = length l.
Proof. induction l as [|c l IH]; cbn; [done | by rewrite IH]. Qed.

Lemma length_list_ascii_of_string s :
  length (list_ascii_of_string s) = String.length s.
Proof. induction s as [|c s IH]; cbn; [done | by rewrite IH]. Qed.

Lemma drop_slashes_length l :
  (length (filepath.drop_slashes l) ≤ length l)%nat.
Proof.
  induction l as [|c l IH]; cbn [filepath.drop_slashes]; [done|].
  destruct (decide (c = filepath.slash)); cbn [length]; lia.
Qed.

Lemma after_slash_length l :
  (length (filepath.after_slash l) ≤ Nat.pred (length l))%nat.
Proof.
  induction l as [|c l IH]; cbn [filepath.after_slash]; [done|].
  destruct (decide (c = filepath.slash)); cbn [length Nat.pred]; lia.
Qed.

Lemma Dir_shorter path :
  (2 ≤ String.length path)%nat →
  (String.length (filepath.Dir path) < String.length path)%nat.
Proof.
  intros Hlen. unfold filepath.Dir.
  set (l := reverse (list_ascii_of_string path)).
  assert (length l = String.length path) as Hl
    by (unfold l; by rewrite length_reverse, length_list_ascii_of_string).
  destruct (bool_decide (filepath.slash ∈ l)); [|cbn; lia].
  pose proof (drop_slashes_length (filepath.after_slash l)) as H1.
  pose proof (after_slash_length l) as H2.
  destruct (filepath.drop_slashes (filepath.after_slash l)) as [|c d];
    [cbn; lia|].
  rewrite length_string_of_list_ascii, length_reverse. lia.
Qed.

Lemma Base_nonempty path : filepath.Base path ≠ "".
Proof.
  unfold filepath.Base. destruct (decide (path = "")); [done|].
  destruct (filepath.until_slash _) as [|c b]; [done|].
  intros H%(f_equal String.length).
  rewrite length_string_of_list_ascii, length_reverse in H. cbn in H. lia.
Qed.

Lemma Join_length dir name :
  name ≠ "" →
  String.length (filepath.Join dir name)
  = if decide (dir = "") then String.length name
    else (String.length dir + 1 + String.length name)%nat.
Proof.
  intros Hname. unfold filepath.Join.
  destruct (decide (dir = "")); [done|].
  destruct (decide (name = "")); [done|].
  rewrite !length_app_string. cbn. lia.
Qed.

Lemma length_nonempty (s : string) : s ≠ "" → (1 ≤ String.length s)%nat.
Proof. destruct s; [done | cbn; lia]. Qed.

Lemma input_path_differs tmp videoID suffix base :
  base ≠ "" →
  filepath.Join (filepath.Dir (filepath.Join tmp ("transcode-" +:+ videoID))) base
  ≠ filepath.Join
      (filepath.Join tmp (("transcode-" +:+ videoID) +:+ suffix)) base.
Proof.
  intros Hbase H%(f_equal String.length).
  rewrite !(Join_length _ base) in H by done.
  assert ("transcode-" +:+ videoID ≠ "") as Hpat by done.
  assert (("transcode-" +:+ videoID) +:+ suffix ≠ "") as Hpat' by done.
  pose proof (Join_length tmp _ Hpat) as L1.
  pose proof (Join_length tmp _ Hpat') as L2.
  assert (String.length ("transcode-" +:+ videoID)
          = (10 + String.length videoID)%nat) as Lp
    by (by rewrite length_app_string).
  rewrite length_app_string in L2.
  pose proof (Dir_shorter (filepath.Join tmp ("transcode-" +:+ videoID))) as L3.
  pose proof (length_nonempty base Hbase) as L4.
  repeat case_decide;
    repeat match goal with
           | E : _ = "" |- _ =>
               apply (f_equal String.length) in E; cbn [String.length] in E
           end;
    lia.
Qed.

Lemma MkdirTemp_ok pattern w w' dir :
  transcoder.MkdirTemp pattern w = (w', Ok dir) →
  dir = filepath.Join (TempDir (env w)) (pattern +:+ temp_suffix (env w)).
Proof.
  unfold transcoder.MkdirTemp, bind, external, ask, ret.
  destruct (faults w) as [|[e|] q]; cbn [env]; by intros [= _ <-].
Qed.

Lemma DownloadVideoActivity_LocalPath params w w' download :
  transcoder.DownloadVideoActivity params w = (w', Ok download) →
  transcoder.LocalPath download
  = filepath.Join
      (filepath.Join (TempDir (env w))
         (("transcode-" +:+ transcoder.VideoID params) +:+ temp_suffix (env w)))
      (filepath.Base (transcoder.ObjectKey params)).
Proof.
  unfold transcoder.DownloadVideoActivity.
  intros (w1 & tempDir & Hdir%MkdirTemp_ok & H)%bind_ok_inv.
  apply bind_ok_inv in H as (w2 & [] & _ & H).
  apply bind_ok_inv in H as (w3 & now & _ & H).
  apply bind_ok_inv in H as (w4 & size & _ & H).
  apply bind_ok_inv in H as (w5 & [] & _ & H).
  unfold ret in H. injection H as _ <-. cbn [transcoder.LocalPath].
  by rewrite Hdir.
Qed.

(** X21. The encoder is not given the downloaded file. In the same
    surroundings, the file a run of the tool by the Transcode stage is told
    to read is never the file the Download stage of that video wrote: the
    stage looks for it beside the download directory, not inside it. *)
Theorem encoder_input_not_downloaded (deps : transcoder.ActivityDependencies)
    (params : transcoder.TranscodeParams) (w w' w2 : World)
    (download : transcoder.DownloadResult) :
  transcoder.DownloadVideoActivity params w = (w', Ok download) →
  env w2 = env w →
  Forall (λ cmd, input_of cmd ≠ Some (transcoder.LocalPath download))
    (ran (transcoder.TranscodeVideoActivity deps params) w2).
Proof.
  intros Hpath%DownloadVideoActivity_LocalPath Henv.
  destruct (TranscodeVideoActivity_commands deps params w2)
    as (cs & Hcs & Hcmd).
  unfold ran. rewrite Hcs, drop_app_length.
  destruct Hcmd as [->|(outputDir & ladder & ->)]; [constructor|].
  constructor; [|constructor].
  unfold input_of, ffmpeg.hls_args. cbn [snd app lookup list_lookup].
  rewrite Hpath, Henv. intros [= H]. revert H.
  apply input_path_differs, Base_nonempty.
Qed.

Lemma encoder_input_not_downloaded_witness :
  Forall (λ cmd, input_of cmd ≠ Some (transcoder.LocalPath download_A))
    (ran (transcoder.TranscodeVideoActivity deps_A params_A) world_A_analyzed).
Proof.
  apply (encoder_input_not_downloaded deps_A params_A world_A world_A_downloaded
           world_A_analyzed download_A).
  - vm_compute. reflexivity.
  - reflexivity.
Defined.
(** ** From the Transcode stage to the gateway *)

Lemma rendition_selected videoID resolution format d :
  (videoID, resolution, format) ∈ map sql.stream_key (sql.video_streams d) →
  ∃ s, s ∈ sql.select_streams videoID d
       ∧ VideoStream.Resolution s = resolution
       ∧ VideoStream.Format s = format.
Proof.
  intros (s & Hkey & Hs)%list_elem_of_fmap. unfold sql.stream_key in Hkey.
  injection Hkey as Hid Hres Hfmt. exists s. split; [|done].
  unfold sql.select_streams. rewrite merge_sort_Permutation.
  by apply list_elem_of_filter.
Qed.

Lemma GetVideo_ok videoID w w1 video :
  database.GetVideo videoID w = (w1, Ok video) →
  db w1 = db w ∧ sql.select_video videoID (db w) = Some video.
Proof.
  unfold database.GetVideo, bind, wrap, external, query.
  destruct (faults w) as [|[e|] q]; cbn [fst snd db]; [|done|];
    destruct (sql.select_video videoID (db w)); (done || by intros [= <- <-]).
Qed.

Lemma UpdateVideoStatus_ok videoID status w w1 :
  database.UpdateVideoStatus videoID status w = (w1, Ok tt) →
  ∃ now, db w1 = sql.update_status status videoID now (db w).
Proof.
  intros H.
  destruct (UpdateVideoStatus_cases videoID status w)
    as [(_ & Hd & _)|([e He] & _)]; rewrite H in *; cbn [fst snd] in *;
    [eauto | done].
Qed.

Lemma MkdirTemp_db pattern w : db (fst (transcoder.MkdirTemp pattern w)) = db w.
Proof.
  unfold transcoder.MkdirTemp, bind, external, ask, ret.
  by destruct (faults w) as [|[e|] q].
Qed.

Lemma TranscodeToHLS_db f inputFile outputDir segmentFilename resolutions w :
  db (fst (ffmpeg.TranscodeToHLS f inputFile outputDir segmentFilename
             resolutions w)) = db w.
Proof.
  unfold ffmpeg.TranscodeToHLS, bind, ask, attempt.
  destruct (run_command_db (ffmpeg.BinaryPath f)
              (ffmpeg.hls_args f inputFile outputDir segmentFilename resolutions) w)
    as (Hd & _).
  destruct (run_command _ _ w) as [w1 [[]|e]]; cbn [fst snd] in *; done.
Qed.

Lemma upsert_all_videos ss : ∀ d d',
  upsert_all ss d = Ok d' → sql.videos d' = sql.videos d.
Proof.
  induction ss as [|s ss IH]; intros d d'; cbn [upsert_all]; [by intros [= <-]|].
  destruct (sql.upsert_stream s d) as [d1|e] eqn:H1; [|done].
  intros H2%IH. by rewrite H2, (upsert_stream_videos s d d1).
Qed.

(** What a successful Transcode stage leaves in the catalog. *)
Lemma TranscodeVideoActivity_catalog deps params w w' r ladder :
  streams_unique (db w) →
  transcoder.TranscodeVideoActivity deps params w = (w', Ok r) →
  ladder_config (env w) = Ok ladder →
  state_of (transcoder.VideoID params) (db w') = Some "transcoding"
  ∧ ∀ res, res ∈ ladder →
      (transcoder.VideoID params, ffmpeg.resolution_label res, "hls")
        ∈ map sql.stream_key (sql.video_streams (db w')).
Proof.
  intros Hu Hrun Hladder. unfold transcoder.TranscodeVideoActivity in Hrun.
  apply bind_ok_inv in Hrun as (w1 & video & H1 & H).
  apply bind_ok_inv in H as (w2 & [] & H2 & H).
  apply bind_ok_inv in H as (w3 & outputDir & H3 & H).
  apply bind_ok_inv in H as (w4 & e & H4 & H).
  apply bind_ok_inv in H as (w5 & resolutions & H5 & H).
  apply bind_ok_inv in H as (w6 & [] & H6 & H).
  apply bind_ok_inv in H as (w7 & streams & H7 & H).
  unfold ret in H. injection H as <- _.
  assert (resolutions = ladder) as ->.
  { unfold ask in H4. injection H4 as <- <-. unfold lift in H5.
    injection H5 as _ H5.
    pose proof (keeps_env_GetVideo (transcoder.VideoID params) w) as E1.
    pose proof (keeps_env_UpdateVideoStatus (transcoder.VideoID params)
                  "transcoding" w1) as E2.
    pose proof (keeps_env_MkdirTemp ("output-" +:+ transcoder.VideoID params) w2)
      as E3.
    rewrite H1 in E1. rewrite H2 in E2. rewrite H3 in E3. simpl in E1, E2, E3.
    rewrite E3, E2, E1, Hladder in H5. by injection H5. }
  apply GetVideo_ok in H1 as [Hd1 Hv].
  apply UpdateVideoStatus_ok in H2 as [now Hd2].
  pose proof (MkdirTemp_db ("output-" +:+ transcoder.VideoID params) w2) as Hd3.
  rewrite H3 in Hd3. cbn [fst] in Hd3.
  unfold ask in H4. injection H4 as <- _. unfold lift in H5. injection H5 as <- _.
  assert (db w6 = db w3) as Hd6.
  { match type of H6 with
    | ffmpeg.TranscodeToHLS ?f ?i ?o ?s ?l _ = _ =>
        pose proof (TranscodeToHLS_db f i o s l w3) as Hd
    end.
    by rewrite H6 in Hd. }
  destruct (record_streams_upserts _ _ _ _ _ _ _ H7) as (ss & Hviews & Hall).
  assert (db w6 = sql.update_status "transcoding" (transcoder.VideoID params)
                    now (db w)) as Hdb6 by congruence.
  assert (streams_unique (db w6)) as Hu6 by (by rewrite Hdb6).
  destruct (upsert_all_unique ss _ _ Hu6 Hall) as (_ & Hkeys & _).
  split.
  - unfold state_of.
    assert (sql.select_video (transcoder.VideoID params) (db w7)
            = sql.select_video (transcoder.VideoID params) (db w6)) as ->.
    { unfold sql.select_video. by rewrite (upsert_all_videos ss _ _ Hall). }
    rewrite Hdb6, select_update_status, Hv. cbn.
    rewrite decide_True by (by eapply select_video_ID). reflexivity.
  - intros res Hres.
    pose proof (ladder_views_keys params ladder 0 res Hres) as Hk.
    rewrite <- Hviews, map_map in Hk.
    apply list_elem_of_fmap in Hk as (s & Hs & Hin).
    rewrite Hs. by apply Hkeys.
Qed.

(** X22. What the gateway shows after the Transcode stage. After a
    Transcode stage that succeeded on a catalog honouring the unique key of
    its renditions, and with the catalog answering, the detail of the video
    reports the state [transcoding] and lists, among its renditions, an HLS
    rendition for every resolution of the ladder; with a ladder that is not
    empty, [hls] is among its formats. *)
Theorem transcoded_video_detail (deps : transcoder.ActivityDependencies)
    (params : transcoder.TranscodeParams) (w w' w2 : World)
    (r : transcoder.TranscodeResult) (ladder : list Resolution.t) :
  streams_unique (db w) →
  transcoder.TranscodeVideoActivity deps params w = (w', Ok r) →
  ladder_config (env w) = Ok ladder →
  reachable w2 →
  db w2 = db w' →
  ∃ info,
    snd (streamer.GetVideoInfo (transcoder.VideoID params) w2)
    = Ok (streamer.VideoInfo info)
    ∧ streamer.Status info = "transcoding"
    ∧ (∀ res, res ∈ ladder →
         ∃ s, s ∈ streamer.Streams info
              ∧ VideoStream.Resolution s = ffmpeg.resolution_label res
              ∧ VideoStream.Format s = "hls")
    ∧ (ladder ≠ [] → "hls" ∈ streamer.Formats info).
Proof.
  intros Hu Hrun Hladder Hw Hdb.
  destruct (TranscodeVideoActivity_catalog deps params w w' r ladder Hu Hrun Hladder)
    as [Hstate Hrenditions].
  rewrite <- Hdb in Hstate, Hrenditions.
  unfold state_of in Hstate.
  destruct (sql.select_video (transcoder.VideoID params) (db w2))
    as [video|] eqn:Hvideo; [|done].
  injection Hstate as Hstate.
  unfold streamer.GetVideoInfo, bind at 1, attempt at 1.
  rewrite GetVideo_reachable, Hvideo by done.
  unfold bind at 1, attempt at 1. rewrite GetVideoStreams_reachable by done.
  destruct (masters_formats (transcoder.VideoID params)
              (sql.select_streams (transcoder.VideoID params) (db w2)) [] "" "" w2)
    as (h & d & Hm).
  unfold bind. rewrite Hm. eexists. split; [reflexivity|].
  cbn [streamer.Status streamer.Streams streamer.Formats].
  split; [done|].
  assert (∀ res, res ∈ ladder →
            ∃ s, s ∈ sql.select_streams (transcoder.VideoID params) (db w2)
                 ∧ VideoStream.Resolution s = ffmpeg.resolution_label res
                 ∧ VideoStream.Format s = "hls") as Hlisted.
  { intros res Hres. by apply rendition_selected, Hrenditions. }
  split; [exact Hlisted|].
  intros Hne. destruct ladder as [|res rest]; [done|].
  destruct (Hlisted res) as (s & Hs & _ & Hfmt); [by left|].
  apply (formats_seen_spec _ [] (NoDup_nil_2)). right. eauto.
Qed.

Lemma transcoded_video_detail_witness :
  ∃ info,
    snd (streamer.GetVideoInfo (transcoder.VideoID params_A) world_A_transcoded)
    = Ok (streamer.VideoInfo info)
    ∧ streamer.Status info = "transcoding"
    ∧ (∀ res, res ∈ ladder_A →
         ∃ s, s ∈ streamer.Streams info
              ∧ VideoStream.Resolution s = ffmpeg.resolution_label res
              ∧ VideoStream.Format s = "hls")
    ∧ (ladder_A ≠ [] → "hls" ∈ streamer.Formats info).
Proof.
  apply (transcoded_video_detail deps_A params_A world_A_analyzed
           world_A_transcoded world_A_transcoded result_A ladder_A).
  - apply NoDup_nil_2.
  - vm_compute. reflexivity.
  - reflexivity.
  - reflexivity.
  - reflexivity.
Defined.

(** ** The gateway only reads *)

Lemma read_only_ret {A} (a : A) : read_only (ret a).
Proof. by intros w. Qed.

Lemma read_only_lift {A} (r : result A) : read_only (lift r).
Proof. by intros w. Qed.

Lemma read_only_ask : read_only ask.
Proof. by intros w. Qed.

Lemma read_only_query {A} (q : sql.DB → A) : read_only (query q).
Proof. by intros w. Qed.

Lemma read_only_external : read_only external.
Proof. intros w. unfold external. by destruct (faults w). Qed.

Lemma read_only_bind {A B} (m : M A) (k : A → M B) :
  read_only m → (∀ a, read_only (k a)) → read_only (bind m k).
Proof.
  intros Hm Hk w. unfold bind. specialize (Hm w).
  destruct (m w) as [w1 [a|e]]; cbn [fst] in *; [|done].
  destruct (Hk a w1) as (-> & -> & ->). done.
Qed.

Lemma read_only_attempt {A} (m : M A) : read_only m → read_only (attempt m).
Proof. intros Hm w. unfold attempt. specialize (Hm w). by destruct (m w). Qed.

Lemma read_only_wrap {A} prefix (m : M A) : read_only m → read_only (wrap prefix m).
Proof.
  intros Hm w. unfold wrap. specialize (Hm w). by destruct (m w) as [w1 [a|e]].
Qed.

Ltac read_only :=
  repeat first
    [ apply read_only_bind
    | apply read_only_wrap
    | apply read_only_attempt
    | apply read_only_ret
    | apply read_only_lift
    | apply read_only_ask
    | apply read_only_query
    | apply read_only_external
    | match goal with |- ∀ _, _ => intros ? end
    | match goal with
      | |- read_only (match ?x with _ => _ end) => destruct x
      | |- read_only (let '(_, _) := ?x in _) => destruct x
      end ].

Lemma read_only_GetSignedURL objectKey expiration :
  read_only (storage.GetSignedURL objectKey expiration).
Proof. unfold storage.GetSignedURL. read_only. Qed.

Lemma read_only_masters videoID streams : ∀ formats hlsMaster dashMaster,
  read_only (streamer.masters videoID streams formats hlsMaster dashMaster).
Proof.
  induction streams as [|s rest IH]; intros formats h d;
    cbn [streamer.masters]; [apply read_only_ret|].
  destruct (bool_decide (VideoStream.Format s = "hls")
            && bool_decide (VideoStream.Resolution s = "1920x1080")).
  { apply read_only_bind;
      [apply read_only_attempt, read_only_GetSignedURL | intros r; apply IH]. }
  destruct (bool_decide (VideoStream.Format s = "dash")
            && bool_decide (VideoStream.Resolution s = "1920x1080")).
  { apply read_only_bind;
      [apply read_only_attempt, read_only_GetSignedURL | intros r; apply IH]. }
  apply IH.
Qed.

Lemma read_only_GetVideoInfo videoID : read_only (streamer.GetVideoInfo videoID).
Proof.
  unfold streamer.GetVideoInfo, database.GetVideo, database.GetVideoStreams.
  apply read_only_bind; [read_only|]. intros [video|err]; [|read_only].
  apply read_only_bind; [read_only|]. intros [streams|err]; [|read_only].
  apply read_only_bind; [apply read_only_masters|].
  intros [[formats h] d]. apply read_only_ret.
Qed.

Lemma read_only_ListVideos limit_q offset_q :
  read_only (streamer.ListVideos limit_q offset_q).
Proof. unfold streamer.ListVideos, database.ListVideos. read_only. Qed.

Lemma GetVideoInfo_answers videoID w :
  is_ok (snd (streamer.GetVideoInfo videoID w)) = true.
Proof.
  unfold streamer.GetVideoInfo, bind at 1, attempt at 1.
  destruct (database.GetVideo videoID w) as [w1 [video|err]]; [|done].
  unfold bind at 1, attempt at 1.
  destruct (database.GetVideoStreams videoID w1) as [w2 [streams|err]]; [|done].
  destruct (masters_formats videoID streams [] "" "" w2) as (h & d & Hm).
  unfold bind. by rewrite Hm.
Qed.

Lemma ListVideos_answers limit_q offset_q w :
  is_ok (snd (streamer.ListVideos limit_q offset_q w)) = true.
Proof.
  unfold streamer.ListVideos, bind, ask, attempt.
  destruct (database.ListVideos _ _ w) as [w1 [videos|err]]; done.
Qed.

(** X24. The gateway reads and answers. Whatever the availability of the
    catalog, the cache and the object store, each of the four handlers of
    the streaming service writes a response, and none of them changes the
    catalog or runs a command. *)
Theorem gateway_reads_and_answers (videoID filename limit_q offset_q : string)
    (w : World) :
  answers_reading (streamer.GetVideoInfo videoID) w
  ∧ answers_reading (streamer.ServeHLSFile videoID filename) w
  ∧ answers_reading (streamer.ServeDASHFile videoID filename) w
  ∧ answers_reading (streamer.ListVideos limit_q offset_q) w.
Proof.
  unfold answers_reading. split; [|split; [|split]].
  - split; [apply GetVideoInfo_answers | apply read_only_GetVideoInfo].
  - by rewrite ServeHLSFile_eq.
  - by rewrite ServeDASHFile_eq.
  - split; [apply ListVideos_answers | apply read_only_ListVideos].
Qed.

(** ** What a run never rewrites *)

Section Preserved.

Variable R : sql.DB → sql.DB → Prop.
Hypothesis R_refl : ∀ d, R d d.
Hypothesis R_trans : ∀ d1 d2 d3, R d1 d2 → R d2 d3 → R d1 d3.
Hypothesis R_insert : ∀ v d d', sql.insert_video v d = Ok d' → R d d'.
Hypothesis R_update : ∀ status id now d, R d (sql.update_status status id now d).
Hypothesis R_upsert : ∀ s d d', sql.upsert_stream s d = Ok d' → R d d'.
























End Preserved.








(** ** The upload handler *)

Lemma isValidVideoType_spec contentType :
  uploader.isValidVideoType contentType = true
  ↔ contentType ∈ uploader.validTypes.
Proof.
  unfold uploader.isValidVideoType.
  induction uploader.validTypes as [|valid rest IH];
    cbn [uploader.isValidVideoType_loop].
  - split; [done | by intros ?%elem_of_nil].
  - destruct (decide (contentType = valid)) as [->|Hne].
    + split; [intros _; by left | done].
    + rewrite IH. split; [by right|]. by intros [?|?]%elem_of_cons.
Qed.

Lemma generateUniqueID_eq w :
  uploader.generateUniqueID w
  = (mkWorld (db w) (history w) (faults w) (clock w + 1) (commands w) (env w),
     Ok (unique_id (clock w) (env w))).
Proof. reflexivity. Qed.

(** X26. What the upload handler refuses. A request whose form does not
    parse, that holds no video file, or whose file has a content type
    outside the five listed ones is answered with 400; the handler has then
    made no id, read no clock, stored nothing and started no workflow: the
    world is the one it found. *)
Theorem UploadVideo_refuses (bucket : string) (r : uploader.Request) (w : World) :
  refused r →
  ∃ message details,
    uploader.UploadVideo bucket r w
    = (w, Ok (uploader.Error message details 400, None)).
Proof.
  unfold refused, uploader.UploadVideo.
  destruct (uploader.ParseMultipartForm r) as [err|].
  { intros _. by eexists _, _. }
  destruct (uploader.FormFile r) as [header|err].
  2: { intros _. by eexists _, _. }
  intros [?|[?|(h & [= <-] & Hnot)]]; [done | done |].
  destruct (uploader.isValidVideoType (uploader.ContentType header)) eqn:Hvalid.
  { by apply isValidVideoType_spec in Hvalid. }
  by eexists _, _.
Qed.

Lemma UploadVideo_refuses_witness :
  ∃ message details,
    uploader.UploadVideo "videos"
      (uploader.mkRequest None
         (Ok (uploader.mkFileHeader "notes.txt" 12 "text/plain"))) world_A
    = (world_A, Ok (uploader.Error message details 400, None)).
Proof.
  apply (UploadVideo_refuses "videos"
           (uploader.mkRequest None
              (Ok (uploader.mkFileHeader "notes.txt" 12 "text/plain"))) world_A).
  right. right. eexists. split; [reflexivity|].
  apply (bool_decide_eq_false_1 (_ ∈ _)). vm_compute. reflexivity.
Defined.

(** What the handler answers once the request is accepted: the outcomes of
    the four calls decide. *)
Lemma UploadVideo_accepted bucket r header w w' resp started :
  uploader.UploadVideo bucket r w = (w', Ok (resp, started)) →
  uploader.ParseMultipartForm r = None →
  uploader.FormFile r = Ok header →
  uploader.isValidVideoType (uploader.ContentType header) = true →
  let videoID := unique_id (clock w) (env w) in
  let objectKey :=
    "uploads/" +:+ videoID +:+ "/" +:+ videoID
    +:+ filepath.Ext (uploader.Filename header) in
  (∃ message details, resp = uploader.Error message details 500
                      ∧ started = None)
  ∨ (∃ now,
       resp = uploader.Uploaded
                (uploader.mkVideoUploadResponse videoID
                   (uploader.Filename header) (uploader.Size header)
                   (uploader.ContentType header) "uploaded"
                   "Video uploaded successfully and scheduled for transcoding"
                   now)
       ∧ (started = None
          ∨ started = Some (transcoder.mkTranscodeParams videoID objectKey
                              (uploader.Filename header)
                              (uploader.ContentType header)))).
Proof.
  unfold uploader.UploadVideo. intros Hrun Hparse Hform Hvalid.
  rewrite Hparse, Hform, Hvalid in Hrun. cbn [negb] in Hrun.
  apply bind_ok_inv in Hrun as (w1 & videoID & Hid & Hrun).
  rewrite generateUniqueID_eq in Hid. injection Hid as <- <-.
  apply bind_ok_inv in Hrun as (w2 & e & _ & Hrun).
  apply bind_ok_inv in Hrun as (w3 & [[]|err] & _ & Hrun).
  2: { injection Hrun as _ <- <-. left. by eexists _, _. }
  apply bind_ok_inv in Hrun as (w4 & [[]|err] & _ & Hrun).
  2: { injection Hrun as _ <- <-. left. by eexists _, _. }
  apply bind_ok_inv in Hrun as (w5 & [url|err] & _ & Hrun).
  2: { injection Hrun as _ <- <-. left. by eexists _, _. }
  apply bind_ok_inv in Hrun as (w6 & outcome & _ & Hrun).
  apply bind_ok_inv in Hrun as (w7 & now & _ & Hrun).
  injection Hrun as _ <- <-. right. exists now. split; [reflexivity|].
  destruct outcome; auto.
Qed.

(** X27. What an upload starts. Whenever the upload handler starts a
    workflow, it has answered [uploaded] with the id of that workflow's
    video; the file of the request has one of the five listed content
    types, and the workflow gets that type, the name of the file as sent,
    and the object key [uploads/<id>/<id><ext>] with the extension of that
    name. *)
Theorem UploadVideo_starts (bucket : string) (r : uploader.Request)
    (w w' : World) (resp : uploader.Response)
    (params : transcoder.TranscodeParams) :
  uploader.UploadVideo bucket r w = (w', Ok (resp, Some params)) →
  ∃ header response,
    uploader.FormFile r = Ok header
    ∧ uploader.ContentType header ∈ uploader.validTypes
    ∧ resp = uploader.Uploaded response
    ∧ uploader.Status response = "uploaded"
    ∧ uploader.ur_VideoID response = transcoder.VideoID params
    ∧ transcoder.Filename params = uploader.Filename header
    ∧ transcoder.ContentType params = uploader.ContentType header
    ∧ transcoder.ObjectKey params
      = "uploads/" +:+ transcoder.VideoID params +:+ "/"
        +:+ transcoder.VideoID params
        +:+ filepath.Ext (uploader.Filename header).
Proof.
  intros Hrun. pose proof Hrun as Hrun'. unfold uploader.UploadVideo in Hrun'.
  destruct (uploader.ParseMultipartForm r) as [err|] eqn:Hparse; [done|].
  destruct (uploader.FormFile r) as [header|err] eqn:Hform; [|done].
  destruct (uploader.isValidVideoType (uploader.ContentType header)) eqn:Hvalid;
    [|done].
  clear Hrun'.
  destruct (UploadVideo_accepted bucket r header w w' resp (Some params)
              Hrun Hparse Hform Hvalid)
    as [(m & d & _ & ?)|(now & -> & [?|[= ->]])]; [done | done |].
  eexists header, _. split; [done|].
  split; [by apply isValidVideoType_spec|].
  split; [reflexivity|]. done.
Qed.

Lemma UploadVideo_starts_witness :
  ∃ header response,
    uploader.FormFile request_A = Ok header
    ∧ uploader.ContentType header ∈ uploader.validTypes
    ∧ uploader.Uploaded
        (uploader.mkVideoUploadResponse "0-tmp" "movie.mp4" 15728640
           "video/mp4" "uploaded"
           "Video uploaded successfully and scheduled for transcoding" 1001)
      = uploader.Uploaded response
    ∧ uploader.Status response = "uploaded"
    ∧ uploader.ur_VideoID response
      = transcoder.VideoID
          (transcoder.mkTranscodeParams "0-tmp" "uploads/0-tmp/0-tmp.mp4"
             "movie.mp4" "video/mp4")
    ∧ transcoder.Filename
        (transcoder.mkTranscodeParams "0-tmp" "uploads/0-tmp/0-tmp.mp4"
           "movie.mp4" "video/mp4")
      = uploader.Filename header
    ∧ transcoder.ContentType
        (transcoder.mkTranscodeParams "0-tmp" "uploads/0-tmp/0-tmp.mp4"
           "movie.mp4" "video/mp4")
      = uploader.ContentType header
    ∧ transcoder.ObjectKey
        (transcoder.mkTranscodeParams "0-tmp" "uploads/0-tmp/0-tmp.mp4"
           "movie.mp4" "video/mp4")
      = "uploads/"
        +:+ transcoder.VideoID
              (transcoder.mkTranscodeParams "0-tmp" "uploads/0-tmp/0-tmp.mp4"
                 "movie.mp4" "video/mp4")
        +:+ "/"
        +:+ transcoder.VideoID
              (transcoder.mkTranscodeParams "0-tmp" "uploads/0-tmp/0-tmp.mp4"
                 "movie.mp4" "video/mp4")
        +:+ filepath.Ext (uploader.Filename header).
Proof.
  apply (UploadVideo_starts "videos" request_A world_A world_A_uploaded
           (uploader.Uploaded
              (uploader.mkVideoUploadResponse "0-tmp" "movie.mp4" 15728640
                 "video/mp4" "uploaded"
                 "Video uploaded successfully and scheduled for transcoding"
                 1001))
           (transcoder.mkTranscodeParams "0-tmp" "uploads/0-tmp/0-tmp.mp4"
              "movie.mp4" "video/mp4")).
  vm_compute. reflexivity.
Defined.

(** X28. An upload that is not scheduled says it is. When the file has
    been saved and stored but the workflow cannot be started, the handler
    starts nothing and still answers [uploaded], with the message that the
    video is scheduled for transcoding. *)
Theorem UploadVideo_start_failure (bucket : string) (r : uploader.Request)
    (header : uploader.FileHeader) (w : World) (err : error)
    (q : list (option error)) :
  uploader.ParseMultipartForm r = None →
  uploader.FormFile r = Ok header →
  uploader.ContentType header ∈ uploader.validTypes →
  faults w = None :: None :: None :: None :: Some err :: q →
  snd (uploader.UploadVideo bucket r w)
  = Ok (uploader.Uploaded
          (uploader.mkVideoUploadResponse (unique_id (clock w) (env w))
             (uploader.Filename header) (uploader.Size header)
             (uploader.ContentType header) "uploaded"
             "Video uploaded successfully and scheduled for transcoding"
             (clock w + 1)),
        None).
Proof.
  intros Hparse Hform Hvalid%isValidVideoType_spec Hq.
  unfold uploader.UploadVideo. rewrite Hparse, Hform, Hvalid. cbn [negb].
  destruct w as [d h fs c cs e]. cbn [faults clock env] in *. subst fs.
  reflexivity.
Qed.

Lemma UploadVideo_start_failure_witness :
  snd (uploader.UploadVideo "videos" request_A
         (with_faults [None; None; None; None; Some "temporal is down"] world_A))
  = Ok (uploader.Uploaded
          (uploader.mkVideoUploadResponse
             (unique_id
                (clock (with_faults
                          [None; None; None; None; Some "temporal is down"]
                          world_A))
                (env (with_faults
                        [None; None; None; None; Some "temporal is down"]
                        world_A)))
             (uploader.Filename
                (uploader.mkFileHeader "movie.mp4" 15728640 "video/mp4"))
             (uploader.Size
                (uploader.mkFileHeader "movie.mp4" 15728640 "video/mp4"))
             (uploader.ContentType
                (uploader.mkFileHeader "movie.mp4" 15728640 "video/mp4"))
             "uploaded"
             "Video uploaded successfully and scheduled for transcoding"
             (clock (with_faults
                       [None; None; None; None; Some "temporal is down"]
                       world_A) + 1)),
        None).
Proof.
  apply (UploadVideo_start_failure "videos" request_A
           (uploader.mkFileHeader "movie.mp4" 15728640 "video/mp4")
           (with_faults [None; None; None; None; Some "temporal is down"] world_A)
           "temporal is down" []).
  - reflexivity.
  - reflexivity.
  - apply (bool_decide_eq_true_1 (_ ∈ _)). vm_compute. reflexivity.
  - reflexivity.
Defined.

Lemma UploadVideo_id bucket r w w' response started :
  uploader.UploadVideo bucket r w = (w', Ok (uploader.Uploaded response, started)) →
  uploader.ur_VideoID response = unique_id (clock w) (env w).
Proof.
  intros Hrun. pose proof Hrun as Hrun'. unfold uploader.UploadVideo in Hrun'.
  destruct (uploader.ParseMultipartForm r) as [err|] eqn:Hparse; [done|].
  destruct (uploader.FormFile r) as [header|err] eqn:Hform; [|done].
  destruct (uploader.isValidVideoType (uploader.ContentType header)) eqn:Hvalid;
    [|done].
  clear Hrun'.
  destruct (UploadVideo_accepted bucket r header w w' _ started
              Hrun Hparse Hform Hvalid)
    as [(m & d & ? & _)|(now & [= ->] & _)]; done.
Qed.

(** X29. Two uploads in one second share their id. The id of an upload
    is made of the second in which it is made and of the temporary
    directory: two uploads the handler accepts in the same second and the
    same surroundings are answered with the same video id, whatever their
    files. *)
Theorem UploadVideo_same_second (bucket : string) (r1 r2 : uploader.Request)
    (w1 w1' w2 w2' : World) (u1 u2 : uploader.VideoUploadResponse)
    (s1 s2 : option transcoder.TranscodeParams) :
  uploader.UploadVideo bucket r1 w1 = (w1', Ok (uploader.Uploaded u1, s1)) →
  uploader.UploadVideo bucket r2 w2 = (w2', Ok (uploader.Uploaded u2, s2)) →
  uploader.Unix (clock w1) = uploader.Unix (clock w2) →
  TempDir (env w1) = TempDir (env w2) →
  uploader.ur_VideoID u1 = uploader.ur_VideoID u2.
Proof.
  intros ->%UploadVideo_id ->%UploadVideo_id Hsecond Hdir.
  unfold unique_id. by rewrite Hsecond, Hdir.
Qed.

Lemma UploadVideo_same_second_witness :
  uploader.ur_VideoID
    (uploader.mkVideoUploadResponse "0-tmp" "movie.mp4" 15728640 "video/mp4"
       "uploaded" "Video uploaded successfully and scheduled for transcoding"
       1001)
  = uploader.ur_VideoID
      (uploader.mkVideoUploadResponse "0-tmp" "trailer.mov" 4096
         "video/quicktime" "uploaded"
         "Video uploaded successfully and scheduled for transcoding" 1003).
Proof.
  apply (UploadVideo_same_second "videos" request_A request_B
           world_A world_A_uploaded
           world_A_uploaded
           (fst (uploader.UploadVideo "videos" request_B world_A_uploaded))
           _ _
           (Some (transcoder.mkTranscodeParams "0-tmp" "uploads/0-tmp/0-tmp.mp4"
                    "movie.mp4" "video/mp4"))
           (Some (transcoder.mkTranscodeParams "0-tmp" "uploads/0-tmp/0-tmp.mov"
                    "trailer.mov" "video/quicktime"))).
  - vm_compute. reflexivity.
  - vm_compute. reflexivity.
  - vm_compute. reflexivity.
  - reflexivity.
Defined.

(** ** The row of a downloaded video *)

Lemma string_app_empty_r (s : string) : s +:+ "" = s.
Proof. induction s as [|c s IH]; cbn; [done | by rewrite IH]. Qed.

Lemma rev_app_spec s : ∀ acc, String.rev_app s acc = String.rev s +:+ acc.
Proof.
  unfold String.rev. induction s as [|c s IH]; intros acc; cbn; [done|].
  rewrite (IH (String c "")), IH, string_app_assoc. reflexivity.
Qed.

Lemma rev_append (a b : string) :
  String.rev (a +:+ b) = String.rev b +:+ String.rev a.
Proof.
  induction a as [|c a IH]; cbn.
  - by rewrite string_app_empty_r.
  - change (String.rev (String c (a +:+ b)))
      with (String.rev_app (a +:+ b) (String c "")).
    change (String.rev (String c a)) with (String.rev_app a (String c "")).
    rewrite (rev_app_spec (a +:+ b)), (rev_app_spec a), IH.
    by rewrite string_app_assoc.
Qed.

Lemma HasPrefix_app (p x : string) : strings_go.HasPrefix (p +:+ x) p = true.
Proof.
  induction p as [|c p IH]; cbn; [by destruct x|].
  by rewrite decide_True.
Qed.

Lemma HasSuffix_app (a b : string) : strings_go.HasSuffix (a +:+ b) b = true.
Proof. unfold strings_go.HasSuffix. rewrite rev_append. apply HasPrefix_app. Qed.

Lemma substring_0_app (a b : string) :
  String.substring 0 (String.length a) (a +:+ b) = a.
Proof.
  induction a as [|c a IH]; cbn; [by destruct b | by rewrite IH].
Qed.

Lemma TrimSuffix_app (a b : string) : strings_go.TrimSuffix (a +:+ b) b = a.
Proof.
  unfold strings_go.TrimSuffix. rewrite HasSuffix_app, length_app_string.
  replace (String.length a + String.length b - String.length b)%nat
    with (String.length a) by lia.
  apply substring_0_app.
Qed.

Lemma string_of_list_ascii_app (a b : list ascii) :
  string_of_list_ascii (a ++ b) = string_of_list_ascii a +:+ string_of_list_ascii b.
Proof. induction a as [|c a IH]; cbn; [done | by rewrite IH]. Qed.

Lemma ext_go_suffix rev : ∀ acc,
  ∃ pre, (reverse rev ++ acc)%list
         = (pre ++ list_ascii_of_string (filepath.ext_go rev acc))%list.
Proof.
  induction rev as [|c r IH]; intros acc; cbn [filepath.ext_go].
  - exists acc. cbn. by rewrite app_nil_r.
  - destruct (decide (c = filepath.slash)).
    { exists (reverse (c :: r) ++ acc)%list. cbn. by rewrite app_nil_r. }
    destruct (decide (c = filepath.dot)).
    { exists (reverse r). rewrite list_ascii_of_string_of_list_ascii.
      by rewrite reverse_cons, <- app_assoc. }
    destruct (IH (c :: acc)) as (pre & Hpre). exists pre.
    by rewrite reverse_cons, <- app_assoc.
Qed.

Lemma Ext_suffix path : ∃ stem, path = stem +:+ filepath.Ext path.
Proof.
  unfold filepath.Ext.
  destruct (ext_go_suffix (reverse (list_ascii_of_string path)) [])
    as (pre & Hpre).
  rewrite reverse_involutive, app_nil_r in Hpre.
  exists (string_of_list_ascii pre).
  set (ext := filepath.ext_go (reverse (list_ascii_of_string path)) []) in *.
  rewrite <- (string_of_list_ascii_of_string path).
  rewrite Hpre, string_of_list_ascii_app.
  by rewrite string_of_list_ascii_of_string.
Qed.

Lemma TrimSuffix_Ext path :
  strings_go.TrimSuffix path (filepath.Ext path) +:+ filepath.Ext path = path.
Proof.
  destruct (Ext_suffix path) as (stem & Hstem).
  rewrite Hstem at 1. rewrite TrimSuffix_app. by rewrite <- Hstem.
Qed.

(** X30. The row the Download stage writes. When the Download stage
    succeeds, the catalog holds the video in the state [downloading] with
    the file name as sent, the object key, the content type, a duration of
    0, the size [os.Stat] gives for the local file, equal creation and
    update times, and as title the file name without its extension: the
    title followed by the extension is the file name. *)
Theorem DownloadVideoActivity_row (params : transcoder.TranscodeParams)
    (w w' : World) (download : transcoder.DownloadResult) :
  transcoder.DownloadVideoActivity params w = (w', Ok download) →
  ∃ video,
    sql.select_video (transcoder.VideoID params) (db w') = Some video
    ∧ Video.Title video +:+ filepath.Ext (transcoder.Filename params)
      = transcoder.Filename params
    ∧ Video.OriginalName video = transcoder.Filename params
    ∧ Video.OriginalPath video = transcoder.ObjectKey params
    ∧ Video.ContentType video = transcoder.ContentType params
    ∧ Video.ProcessingState video = "downloading"
    ∧ Video.Duration video = 0%float
    ∧ Video.Size video = stat_size (env w) (transcoder.LocalPath download)
    ∧ Video.CreatedAt video = Video.UpdatedAt video.
Proof.
  unfold transcoder.DownloadVideoActivity.
  intros (w1 & tempDir & H1 & H)%bind_ok_inv.
  apply bind_ok_inv in H as (w2 & [] & H2 & H).
  apply bind_ok_inv in H as (w3 & now & H3 & H).
  apply bind_ok_inv in H as (w4 & size & H4 & H).
  apply bind_ok_inv in H as (w5 & [] & H5 & H).
  unfold ret in H. injection H as <- <-. cbn [transcoder.LocalPath].
  pose proof (keeps_env_MkdirTemp ("transcode-" +:+ transcoder.VideoID params) w)
    as E1.
  pose proof (keeps_env_external w1) as E2.
  unfold storage.DownloadFile in H2.
  rewrite H1 in E1. rewrite H2 in E2. cbn [fst] in E1, E2.
  unfold Now in H3. injection H3 as <- <-.
  unfold transcoder.getFileSize, bind, ask, ret in H4.
  injection H4 as <- <-. cbn [env].
  match type of H5 with
  | database.CreateVideo ?v ?w0 = _ =>
      destruct (CreateVideo_db_cases v w0) as [[_ Hins]|[Hfail _]];
      rewrite H5 in *; cbn [fst snd] in *; [|done]
  end.
  unfold sql.insert_video in Hins. cbn [Video.ID db] in Hins.
  destruct (sql.has_video (transcoder.VideoID params) (db w2)) eqn:Hnew; [done|].
  injection Hins as <-. apply has_video_select in Hnew.
  eexists. split.
  { destruct (db w2) as [rows vs]. cbn [sql.videos sql.video_streams] in *.
    rewrite select_video_app, Hnew. cbn [Video.ID].
    by rewrite bool_decide_eq_true_2. }
  cbn [Video.Title Video.OriginalName Video.OriginalPath Video.ContentType
       Video.ProcessingState Video.Duration Video.Size Video.CreatedAt
       Video.UpdatedAt].
  rewrite TrimSuffix_Ext, E2, E1. done.
Qed.

Lemma DownloadVideoActivity_row_witness :
  ∃ video,
    sql.select_video (transcoder.VideoID params_A) (db world_A_downloaded)
    = Some video
    ∧ Video.Title video +:+ filepath.Ext (transcoder.Filename params_A)
      = transcoder.Filename params_A
    ∧ Video.OriginalName video = transcoder.Filename params_A
    ∧ Video.OriginalPath video = transcoder.ObjectKey params_A
    ∧ Video.ContentType video = transcoder.ContentType params_A
    ∧ Video.ProcessingState video = "downloading"
    ∧ Video.Duration video = 0%float
    ∧ Video.Size video = stat_size (env world_A) (transcoder.LocalPath download_A)
    ∧ Video.CreatedAt video = Video.UpdatedAt video.
Proof.
  apply (DownloadVideoActivity_row params_A world_A world_A_downloaded download_A).
  vm_compute. reflexivity.
Defined.
